(** * taskcluster-lib-api: the APIBuilder registry ([src/builder.js])

    A shallow embedding of [src/builder.js] and a verification of its
    specification.  The file is organised as the source is:

    - [Module JS]: the fragment of JavaScript the builder runs on: values,
      a heap of objects addressed by reference, property reads and writes,
      truthiness, [===] and [==], [typeof], [instanceof];
    - [Module Regex]: regular-expression literals and [RegExp.prototype.test];
    - [Module Lodash]: [_.defaults], [_.forEach], [_.values];
    - [Section Builder]: [APIBuilder], [declare] and [build], statement by
      statement, in a state-and-exception monad over the heap;
    - the theorems: the claims of the specification ([Claim Cn]), proved
      from what a call of [declare] or of the constructor does when it
      returns, and further properties of the code ([Property Xn]), proved
      from [APIBuilder_outcome_spec] and [declare_outcome_spec], which
      account for every way out of the two functions.

    Scope of the object model.  Objects are what object literals, array
    literals, regular-expression literals and function expressions create:
    own enumerable data properties, kept in property enumeration order.
    Accessors, non-enumerable user properties, proxies and user-made
    prototype chains are outside the model; none of the property names
    [builder.js] reads exists on a built-in prototype.  Strings are
    sequences of bytes, which agrees with JavaScript on ASCII text. *)

From Stdlib Require Import ZArith QArith_base String Ascii List Bool Lia.
From stdpp Require Import base option list gmap strings pretty.

Close Scope Q_scope.

(** The double-quote character, for messages that embed one. *)
Definition dquote : string := String (ascii_of_nat 34) EmptyString.

(* ===================================================================== *)
(** * JavaScript values and objects *)
(* ===================================================================== *)

Module JS.

Definition loc := positive.

(** Numbers: finite doubles as rationals, NaN and the two infinities. *)
Inductive number :=
| Fin (q : Q)
| NaN
| Inf (negative : bool).

Inductive value :=
| VUndefined
| VNull
| VBool (b : bool)
| VNum (n : number)
| VStr (s : string)
| VRef (l : loc).

Definition num (z : Z) : value := VNum (Fin (inject_Z z)).

(** What kind of object a heap cell is.  An array carries its elements, a
    function its two built-in own properties [name] and [length]. *)
Inductive kind :=
| KPlain
| KArray (elems : list value)
| KRegExp
| KFunction (fname : string) (arity : nat).

(** [props]: the own enumerable named properties, in enumeration order. *)
Record object := Object { okind : kind; props : list (string * value) }.

Definition plain (ps : list (string * value)) : object := Object KPlain ps.
Definition array (vs : list value) : object := Object (KArray vs) [].
Definition regexp : object := Object KRegExp [].
Definition function (name : string) (arity : nat) : object :=
  Object (KFunction name arity) [].

(** The heap.  A reference that is not in the heap's domain does not occur in
    a running program; it reads as an object without properties, so that every
    operation is total. *)
Abbreviation heap := (gmap loc object).

Definition deref (h : heap) (l : loc) : object := default (plain []) (h !! l).

(** ** Exceptions and completions *)

Inductive exn :=
| AssertionError (message : string)   (* thrown by [assert] *)
| Error (message : string)            (* [throw new Error(message)] *)
| TypeError                           (* thrown by the engine *)
| Foreign (cause : value).            (* thrown or rejected by a collaborator *)

Inductive completion (A : Type) :=
| Normal (a : A)
| Throw (e : exn).
Arguments Normal {A} a.
Arguments Throw {A} e.

Definition throws {A} (c : completion A) : bool :=
  match c with Normal _ => false | Throw _ => true end.

(** ** Numbers *)

Definition is_integer (q : Q) : bool := (Qnum q mod Zpos (Qden q) =? 0)%Z.
Definition integer_part (q : Q) : Z := (Qnum q / Zpos (Qden q))%Z.

Definition number_eq (a b : number) : bool :=
  match a, b with
  | Fin p, Fin q => Qeq_bool p q
  | Inf s, Inf t => Bool.eqb s t
  | _, _ => false                      (* NaN differs from everything *)
  end.

(** ** ToBoolean *)
Definition truthy (v : value) : bool :=
  match v with
  | VUndefined | VNull => false
  | VBool b => b
  | VNum (Fin q) => negb (Qeq_bool q 0)
  | VNum NaN => false
  | VNum (Inf _) => true
  | VStr s => negb (String.eqb s EmptyString)
  | VRef _ => true
  end.

(** ** [===] *)
Definition strict_eq (a b : value) : bool :=
  match a, b with
  | VUndefined, VUndefined => true
  | VNull, VNull => true
  | VBool x, VBool y => Bool.eqb x y
  | VNum x, VNum y => number_eq x y
  | VStr x, VStr y => String.eqb x y
  | VRef x, VRef y => Pos.eqb x y
  | _, _ => false
  end.

Definition is_nullish (v : value) : bool :=
  match v with VUndefined | VNull => true | _ => false end.

Definition same_type (a b : value) : bool :=
  match a, b with
  | VUndefined, VUndefined | VNull, VNull | VBool _, VBool _
  | VNum _, VNum _ | VStr _, VStr _ | VRef _, VRef _ => true
  | _, _ => false
  end.

(** ** [typeof] *)
Definition typeof (h : heap) (v : value) : string :=
  match v with
  | VUndefined => "undefined"
  | VNull => "object"
  | VBool _ => "boolean"
  | VNum _ => "number"
  | VStr _ => "string"
  | VRef l => match okind (deref h l) with
              | KFunction _ _ => "function"
              | _ => "object"
              end
  end.

(** ** [instanceof RegExp], [instanceof Function] *)
Definition instanceof_RegExp (h : heap) (v : value) : bool :=
  match v with
  | VRef l => match okind (deref h l) with KRegExp => true | _ => false end
  | _ => false
  end.

Definition instanceof_Function (h : heap) (v : value) : bool :=
  match v with
  | VRef l => match okind (deref h l) with KFunction _ _ => true | _ => false end
  | _ => false
  end.

(** ** Property keys *)

Definition digit_of (c : ascii) : option N :=
  let n := N_of_ascii c in
  if ((48 <=? n) && (n <=? 57))%N then Some (n - 48)%N else None.

Fixpoint parse_digits (s : string) (acc : N) : option N :=
  match s with
  | EmptyString => Some acc
  | String c s' =>
      match digit_of c with
      | Some d => parse_digits s' (10 * acc + d)%N
      | None => None
      end
  end.

(** An array index is a canonical decimal numeral below [2^32 - 1]. *)
Definition array_index (k : string) : option N :=
  match k with
  | EmptyString => None
  | _ =>
      match parse_digits k 0 with
      | Some n => if (String.eqb (pretty n) k && (n <? 4294967295)%N)%bool
                  then Some n else None
      | None => None
      end
  end.

(** ** Reading and writing own properties *)

Fixpoint assoc (k : string) (ps : list (string * value)) : option value :=
  match ps with
  | [] => None
  | (k', v) :: ps' => if String.eqb k k' then Some v else assoc k ps'
  end.

Fixpoint nth_char (n : nat) (s : string) : option ascii :=
  match s, n with
  | EmptyString, _ => None
  | String c _, O => Some c
  | String _ s', S n' => nth_char n' s'
  end.

Definition obj_get (o : object) (k : string) : value :=
  let named := default VUndefined (assoc k (props o)) in
  match okind o with
  | KPlain | KRegExp => named
  | KArray elems =>
      if String.eqb k "length" then num (Z.of_nat (length elems))
      else match array_index k with
           | Some i => default VUndefined (elems !! N.to_nat i)
           | None => named
           end
  | KFunction fname arity =>
      if String.eqb k "name" then VStr fname
      else if String.eqb k "length" then num (Z.of_nat arity)
      else named
  end.

(** A new named property goes to the end of the enumeration order, except that
    array-index keys come first, in ascending order. *)
Fixpoint insert_index (i : N) (k : string) (v : value)
    (ps : list (string * value)) : list (string * value) :=
  match ps with
  | [] => [(k, v)]
  | (k', v') :: ps' =>
      match array_index k' with
      | Some j => if (j <? i)%N then (k', v') :: insert_index i k v ps'
                  else (k, v) :: ps
      | None => (k, v) :: ps
      end
  end.

Fixpoint replace_prop (k : string) (v : value)
    (ps : list (string * value)) : list (string * value) :=
  match ps with
  | [] => []
  | (k', v') :: ps' =>
      if String.eqb k k' then (k', v) :: ps' else (k', v') :: replace_prop k v ps'
  end.

Definition set_named (k : string) (v : value)
    (ps : list (string * value)) : list (string * value) :=
  match assoc k ps with
  | Some _ => replace_prop k v ps
  | None =>
      match array_index k with
      | Some i => insert_index i k v ps
      | None => ps ++ [(k, v)]
      end
  end.

(** [o[k] = v] in sloppy mode.  Writing an element of an array past its end
    pads with [undefined]; the built-in [name] and [length] of a function are
    not writable and the write is ignored; [builder.js] never assigns the
    [length] of an array, which is left as it is here. *)
Definition obj_set (o : object) (k : string) (v : value) : object :=
  let named := Object (okind o) (set_named k v (props o)) in
  match okind o with
  | KPlain | KRegExp => named
  | KArray elems =>
      if String.eqb k "length" then o
      else match array_index k with
           | Some i =>
               let n := N.to_nat i in
               if decide (n < length elems)%nat
               then Object (KArray (<[n := v]> elems)) (props o)
               else Object (KArray (elems ++ replicate (n - length elems) VUndefined ++ [v]))
                           (props o)
           | None => named
           end
  | KFunction _ _ =>
      if (String.eqb k "name" || String.eqb k "length")%bool then o else named
  end.

(** Own enumerable keys, in enumeration order ([Object.keys], [for .. in]). *)
Definition index_keys (n : nat) : list string := (λ i : nat, pretty i) <$> seq 0 n.

Definition obj_keys (o : object) : list string :=
  match okind o with
  | KArray elems => index_keys (length elems) ++ (fst <$> props o)
  | _ => fst <$> props o
  end.

(** ** Properties of values: [v[k]] and the keys of [Object(v)] *)

Definition get_prop (h : heap) (v : value) (k : string) : completion value :=
  match v with
  | VUndefined | VNull => Throw TypeError
  | VRef l => Normal (obj_get (deref h l) k)
  | VStr s =>
      if String.eqb k "length" then Normal (num (Z.of_nat (String.length s)))
      else match array_index k with
           | Some i => Normal (match nth_char (N.to_nat i) s with
                               | Some c => VStr (String c EmptyString)
                               | None => VUndefined
                               end)
           | None => Normal VUndefined
           end
  | VBool _ | VNum _ => Normal VUndefined
  end.

(** [v[i]] for a number [i] that is an index *)
Definition get_index (h : heap) (v : value) (i : nat) : value :=
  match v with
  | VRef l =>
      match okind (deref h l) with
      | KArray elems => default VUndefined (elems !! i)
      | _ => obj_get (deref h l) (pretty i)
      end
  | VStr s => match nth_char i s with
              | Some c => VStr (String c EmptyString)
              | None => VUndefined
              end
  | _ => VUndefined
  end.

Definition keys_of (h : heap) (v : value) : list string :=
  match v with
  | VRef l => obj_keys (deref h l)
  | VStr s => index_keys (String.length s)
  | _ => []
  end.

(** ** Statements: a state-and-exception monad over the heap

    An exception leaves the heap as it was when it was thrown: what a
    statement wrote before a later one throws stays written. *)

Definition M (A : Type) : Type := heap → completion A * heap.

Definition ret {A} (a : A) : M A := λ h, (Normal a, h).

Definition bind {A B} (m : M A) (f : A → M B) : M B :=
  λ h, match m h with
       | (Normal a, h') => f a h'
       | (Throw e, h') => (Throw e, h')
       end.

#[global] Instance M_ret : MRet M := @ret.
#[global] Instance M_bind : MBind M := λ A B f m, bind m f.
#[global] Instance M_fmap : FMap M := λ A B f m, bind m (λ a, ret (f a)).

Definition throw {A} (e : exn) : M A := λ h, (Throw e, h).

(** the heap as it is now, for the pure queries [typeof] and [instanceof] *)
Definition current_heap : M heap := λ h, (Normal h, h).

(** [assert(value, message)] *)
Definition assert (v : bool) (message : string) : M unit :=
  if v then ret () else throw (AssertionError message).

(** an object, array, function or regular-expression literal *)
Definition alloc (o : object) : M loc :=
  λ h, let l := fresh (dom h) in (Normal l, <[l := o]> h).

(** [v[k]] *)
Definition get (v : value) (k : string) : M value := λ h, (get_prop h v k, h).

(** [l[k] = v] *)
Definition set (l : loc) (k : string) (v : value) : M unit :=
  λ h, (Normal (), <[l := obj_set (deref h l) k v]> h).

(** [a || b], where [b] is only evaluated when [a] is falsy *)
Definition or_elseM (a : value) (b : M value) : M value :=
  if truthy a then ret a else b.

(** [xs.forEach(f)] for an array literal [xs] of strings *)
Fixpoint array_forEach {A} (xs : list A) (f : A → M unit) : M unit :=
  match xs with
  | [] => ret ()
  | x :: xs' => f x ;; array_forEach xs' f
  end.

(** The elements of [v] when [v] is an array; calling [filter], [some] or
    [push] on anything else is a [TypeError]. *)
Definition array_elems (v : value) : M (list value) :=
  λ h, match v with
       | VRef l => match okind (deref h l) with
                   | KArray elems => (Normal elems, h)
                   | _ => (Throw TypeError, h)
                   end
       | _ => (Throw TypeError, h)
       end.

(** [xs.filter(p)] *)
Fixpoint filterM (p : value → M bool) (xs : list value) : M (list value) :=
  match xs with
  | [] => ret []
  | x :: xs' =>
      keep ← p x;
      rest ← filterM p xs';
      ret (if keep : bool then x :: rest else rest)
  end.

(** [xs.some(p)]: stops at the first element that satisfies [p] *)
Fixpoint someM (p : value → M bool) (xs : list value) : M bool :=
  match xs with
  | [] => ret false
  | x :: xs' => found ← p x; if found : bool then ret true else someM p xs'
  end.

(** [arr.push(v)] *)
Definition push (arr : value) (v : value) : M unit :=
  λ h, match arr with
       | VRef l =>
           match okind (deref h l) with
           | KArray elems =>
               (Normal (), <[l := Object (KArray (elems ++ [v])) (props (deref h l))]> h)
           | _ => (Throw TypeError, h)
           end
       | _ => (Throw TypeError, h)
       end.

(** [xs.indexOf(v)]: the first position that is [===] to [v], or [-1] *)
Fixpoint indexOf_from (i : Z) (xs : list value) (v : value) : Z :=
  match xs with
  | [] => (-1)%Z
  | x :: xs' => if strict_eq x v then i else indexOf_from (i + 1)%Z xs' v
  end.

Definition indexOf (xs : list value) (v : value) : Z := indexOf_from 0 xs v.

End JS.

(* ===================================================================== *)
(** * Regular-expression literals *)
(* ===================================================================== *)

Module Regex.

(** The syntax the literals of [builder.js] use: character classes made of
    ranges, concatenation, [*] and [+]; [^] and [$] only at the two ends. *)
Inductive re :=
| Void
| Eps
| Class (ranges : list (ascii * ascii))
| Cat (r1 r2 : re)
| Alt (r1 r2 : re)
| Star (r : re).

Definition Plus (r : re) : re := Cat r (Star r).

Record literal := Literal { caret : bool; body : re; dollar : bool }.

Definition in_range (c : ascii) (rg : ascii * ascii) : bool :=
  ((N_of_ascii (fst rg) <=? N_of_ascii c) && (N_of_ascii c <=? N_of_ascii (snd rg)))%N.

Definition in_class (c : ascii) (ranges : list (ascii * ascii)) : bool :=
  existsb (in_range c) ranges.

(** ** The language of an expression *)
Inductive matches : re → list ascii → Prop :=
| MEps : matches Eps []
| MClass c rs : in_class c rs = true → matches (Class rs) [c]
| MCat r1 r2 s1 s2 : matches r1 s1 → matches r2 s2 → matches (Cat r1 r2) (s1 ++ s2)
| MAltL r1 r2 s : matches r1 s → matches (Alt r1 r2) s
| MAltR r1 r2 s : matches r2 s → matches (Alt r1 r2) s
| MStarNil r : matches (Star r) []
| MStarApp r s1 s2 : matches r s1 → matches (Star r) s2 → matches (Star r) (s1 ++ s2).

(** ** Matching by derivatives *)
Fixpoint nullable (r : re) : bool :=
  match r with
  | Void => false
  | Eps => true
  | Class _ => false
  | Cat r1 r2 => nullable r1 && nullable r2
  | Alt r1 r2 => nullable r1 || nullable r2
  | Star _ => true
  end.

Fixpoint deriv (c : ascii) (r : re) : re :=
  match r with
  | Void => Void
  | Eps => Void
  | Class rs => if in_class c rs then Eps else Void
  | Cat r1 r2 =>
      if nullable r1 then Alt (Cat (deriv c r1) r2) (deriv c r2)
      else Cat (deriv c r1) r2
  | Alt r1 r2 => Alt (deriv c r1) (deriv c r2)
  | Star r1 => Cat (deriv c r1) (Star r1)
  end.

(** [match_here to_end r s]: some prefix of [s] (all of [s] when [to_end]) is
    in the language of [r]. *)
Fixpoint match_here (to_end : bool) (r : re) (s : list ascii) : bool :=
  match s with
  | [] => nullable r
  | c :: s' => (negb to_end && nullable r) || match_here to_end (deriv c r) s'
  end.

(** a match may start at any position of [s] *)
Fixpoint match_anywhere (to_end : bool) (r : re) (s : list ascii) : bool :=
  match_here to_end r s ||
  match s with
  | [] => false
  | _ :: s' => match_anywhere to_end r s'
  end.

(** [lit.test(s)] for a string [s] *)
Definition test (lit : literal) (s : string) : bool :=
  let cs := list_ascii_of_string s in
  if caret lit then match_here (dollar lit) (body lit) cs
  else match_anywhere (dollar lit) (body lit) cs.

(** ** The literals of [builder.js] *)
Definition lower : ascii * ascii := ("a", "z")%char.
Definition upper : ascii * ascii := ("A", "Z")%char.
Definition digit : ascii * ascii := ("0", "9")%char.
Definition only (c : ascii) : ascii * ascii := (c, c).

(** [/^[a-z][a-z0-9_-]*$/] *)
Definition api_name : literal :=
  Literal true
    (Cat (Class [lower]) (Star (Class [lower; digit; only "_"; only "-"]%char)))
    true.

(** [/^v[0-9]+$/] *)
Definition api_version : literal :=
  Literal true (Cat (Class [only "v"%char]) (Plus (Class [digit]))) true.

(** [/[A-Z][A-Za-z0-9]*/], as written in the error-code check: no anchors *)
Definition error_code : literal :=
  Literal false (Cat (Class [upper]) (Star (Class [upper; lower; digit]))) false.

(** [/^[A-Z][A-Za-z0-9]*$/], the pattern the documentation of [errorCodes]
    gives for an error-code identifier *)
Definition error_code_documented : literal :=
  Literal true (Cat (Class [upper]) (Star (Class [upper; lower; digit]))) true.

End Regex.

(* ===================================================================== *)
(** * The lodash functions [builder.js] calls *)
(* ===================================================================== *)

Module Lodash.
Import JS.

(** [isLength(v)]: a number that is an integer in [0 .. 2^53 - 1] *)
Definition isLength (v : value) : option nat :=
  match v with
  | VNum (Fin q) =>
      if (is_integer q && (0 <=? integer_part q) && (integer_part q <=? 9007199254740991))%Z%bool
      then Some (Z.to_nat (integer_part q)) else None
  | _ => None
  end.

(** [isArrayLike(v)]: [v != null && isLength(v.length) && !isFunction(v)];
    gives the length. *)
Definition isArrayLike (h : heap) (v : value) : option nat :=
  match v with
  | VUndefined | VNull => None
  | _ =>
      if instanceof_Function h v then None
      else match get_prop h v "length" with
           | Normal len => isLength len
           | Throw _ => None
           end
  end.

Definition isArray (h : heap) (v : value) : option (list value) :=
  match v with
  | VRef l => match okind (deref h l) with KArray elems => Some elems | _ => None end
  | _ => None
  end.

(** One source of [_.defaults]: for every enumerable key of [source], in
    order, [if (object[key] === undefined) object[key] = source[key]]. *)
Fixpoint defaults_keys (object : loc) (source : value) (keys : list string) : M unit :=
  match keys with
  | [] => ret ()
  | key :: keys' =>
      value ← get (VRef object) key;
      (if strict_eq value VUndefined
       then (v ← get source key; set object key v)
       else ret ());;
      defaults_keys object source keys'
  end.

Definition defaults_source (object : loc) (source : value) : M unit :=
  h ← current_heap;
  defaults_keys object source (keys_of h source).

(** [_.defaults(object, ...sources)]: fills the properties of [object] that
    are [undefined] from the sources, left to right, and returns [object].
    A source that is [null] or [undefined] has no keys. *)
Fixpoint defaults (object : loc) (sources : list value) : M loc :=
  match sources with
  | [] => ret object
  | source :: sources' => defaults_source object source;; defaults object sources'
  end.

(** the index loop of [arrayEach] and of [baseEach] on array-likes:
    [iteratee(collection[index], index)] for [index] from [from] on *)
Fixpoint each_index (collection : value) (iteratee : value → value → M unit)
    (from count : nat) : M unit :=
  match count with
  | O => ret ()
  | S count' =>
      h ← current_heap;
      iteratee (get_index h collection from) (num (Z.of_nat from));;
      each_index collection iteratee (S from) count'
  end.

(** the key loop of [baseForOwn]: [iteratee(object[key], key)] *)
Fixpoint each_key (collection : value) (iteratee : value → value → M unit)
    (keys : list string) : M unit :=
  match keys with
  | [] => ret ()
  | key :: keys' =>
      v ← get collection key;
      iteratee v (VStr key);;
      each_key collection iteratee keys'
  end.

(** [_.forEach(collection, iteratee)], for an iteratee that never returns
    [false] (both iteratees of [builder.js] return [undefined]).

    An array is iterated by index.  So is any other collection that
    [isArrayLike]: a string, and every object that is not a function and
    whose [length] property is a number accepted by [isLength]; its own
    keys are then not enumerated.  Everything else is iterated over its own
    enumerable keys; [null] and [undefined] are not iterated at all. *)
Definition forEach (collection : value) (iteratee : value → value → M unit) : M unit :=
  h ← current_heap;
  match isArray h collection with
  | Some elems => each_index collection iteratee 0 (length elems)
  | None =>
      if is_nullish collection then ret ()
      else match isArrayLike h collection with
           | Some n => each_index collection iteratee 0 n
           | None => each_key collection iteratee (keys_of h collection)
           end
  end.

(** [_.values(object)] for an object literal given by its properties *)
Definition values (ps : list (string * value)) : list value := snd <$> ps.

End Lodash.

(* ===================================================================== *)
(** * [builder.js] *)
(* ===================================================================== *)

Import JS.

(** The three states of the promise an [async] function returns. *)
Inductive promise (A : Type) :=
| Fulfilled (a : A)
| Rejected (cause : exn)
| Pending.
Arguments Fulfilled {A} a.
Arguments Rejected {A} cause.
Arguments Pending {A}.

(** What [builder.js] requires from other modules and from the engine.

    - [ERROR_CODES]: the value of [errors.ERROR_CODES] ([./errors]);
    - [ScopeExpressionTemplate_validate]: [ScopeExpressionTemplate.validate]
      ([./expressions]);
    - [API]: the constructor [new API(options)] ([./api]), which may throw
      and may write to the heap;
    - [publish]: [await service.publish()] on a service that [API] built:
      the state in which the awaited promise ends;
    - [JSON_stringify]: [JSON.stringify(v, null, 2)];
    - [ToString_host]: the string conversion of objects and of the numbers
      that are not printed as plain decimal integers;
    - [loose_eq_host]: [==] between two values of different types, neither
      of them [null] or [undefined].

    The theorems hold for every choice of these. *)
Record Host := {
  ERROR_CODES : value;
  ScopeExpressionTemplate_validate : heap → value → bool;
  API : loc → M loc;
  publish : loc → heap → promise value * heap;
  JSON_stringify : heap → value → string;
  ToString_host : heap → value → string;
  loose_eq_host : heap → value → value → bool;
}.

(** The calls [build] makes to its collaborators, in order. *)
Inductive call :=
| CallAPI (options : loc)
| CallPublish (service : loc).

Section Builder.

Context (host : Host).

(** ** String conversion and [==] *)

Definition ToString (h : heap) (v : value) : string :=
  match v with
  | VStr s => s
  | VUndefined => "undefined"
  | VNull => "null"
  | VBool true => "true"
  | VBool false => "false"
  | VNum NaN => "NaN"
  | VNum (Inf false) => "Infinity"
  | VNum (Inf true) => "-Infinity"
  | VNum (Fin q) =>
      if (is_integer q && (Z.abs (integer_part q) <? 10 ^ 21)%Z)%bool
      then pretty (integer_part q)
      else ToString_host host h v
  | VRef _ => ToString_host host h v
  end.

Definition loose_eq (h : heap) (a b : value) : bool :=
  if same_type a b then strict_eq a b
  else if is_nullish a then is_nullish b
  else if is_nullish b then false
  else loose_eq_host host h a b.

(** [re.test(v)] *)
Definition test (re : Regex.literal) (v : value) : M bool :=
  h ← current_heap; mret (Regex.test re (ToString h v)).

(** ** [var APIBuilder = function(options) { ... }], called with [new] *)

Definition validate_error_code (value key : value) : M unit :=
  h ← current_heap;
  ok ← test Regex.error_code key;
  assert ok ("Invalid error code: " +:+ ToString h key);;
  assert (String.eqb (typeof h value) "number") "Expected HTTP status code to be int".

Definition APIBuilder (options : loc) : M loc :=
  this ← alloc (plain []);
  schemaPrefix ← get (VRef options) "schemaPrefix";
  assert (negb (truthy schemaPrefix)) "schemaPrefix is no longer allowed!";;
  array_forEach ["title"; "description"; "name"; "version"] (λ key,
    v ← get (VRef options) key;
    assert (truthy v) ("Option '" +:+ key +:+ "' must be provided"));;
  name ← get (VRef options) "name";
  h ← current_heap;
  ok ← test Regex.api_name name;
  assert ok ("api name " +:+ dquote +:+ ToString h name +:+ dquote +:+ " is not valid");;
  version ← get (VRef options) "version";
  ok ← test Regex.api_version version;
  assert ok ("api version " +:+ dquote +:+ ToString h version +:+ dquote +:+ " is not valid");;
  (* options = _.defaults({errorCodes: _.defaults({}, options.errorCodes || {},
                                                  errors.ERROR_CODES)},
                          options, {params: {}, context: [], errorCodes: {}}) *)
  target ← alloc (plain []);
  empty ← alloc (plain []);
  errorCodes ← get (VRef options) "errorCodes";
  user ← or_elseM errorCodes (VRef <$> alloc (plain []));
  merged ← Lodash.defaults empty [user; ERROR_CODES host];
  set target "errorCodes" (VRef merged);;
  params0 ← alloc (plain []);
  context0 ← alloc (array []);
  errorCodes0 ← alloc (plain []);
  fallback ← alloc (plain [("params", VRef params0); ("context", VRef context0);
                           ("errorCodes", VRef errorCodes0)]);
  options ← Lodash.defaults target [VRef options; VRef fallback];
  errorCodes ← get (VRef options) "errorCodes";
  Lodash.forEach errorCodes validate_error_code;;
  v ← get (VRef options) "name"; set this "name" v;;
  v ← get (VRef options) "version"; set this "version" v;;
  v ← get (VRef options) "title"; set this "title" v;;
  v ← get (VRef options) "description"; set this "description" v;;
  v ← get (VRef options) "params"; set this "params" v;;
  v ← get (VRef options) "context"; set this "context" v;;
  v ← get (VRef options) "errorCodes"; set this "errorCodes" v;;
  entries ← alloc (array []);
  set this "entries" (VRef entries);;
  mret this.

(** ** [var stability = { ... }] and [STABILITY_LEVELS] *)

Definition stability : list (string * value) :=
  [("deprecated", VStr "deprecated");
   ("experimental", VStr "experimental");
   ("stable", VStr "stable")].

Definition stability_experimental : value :=
  default VUndefined (assoc "experimental" stability).

Definition STABILITY_LEVELS : list value := Lodash.values stability.

(** ** [APIBuilder.prototype.declare = function(options, handler) { ... }] *)

Definition validate_query (value key : value) : M unit :=
  h ← current_heap;
  if negb (instanceof_RegExp h value || instanceof_Function h value)
  then throw (Error ("query." +:+ ToString h key +:+ " must be a RegExp or a function!"))
  else mret ().

(** [entry => entry.route == options.route && entry.method == options.method] *)
Definition same_route_and_method (options : loc) (entry : value) : M bool :=
  r ← get entry "route";
  r' ← get (VRef options) "route";
  h ← current_heap;
  if loose_eq h r r' then
    m ← get entry "method";
    m' ← get (VRef options) "method";
    mret (loose_eq h m m')
  else mret false.

(** [entry => entry.name === options.name] *)
Definition same_name (options : loc) (entry : value) : M bool :=
  n ← get entry "name";
  n' ← get (VRef options) "name";
  mret (strict_eq n n').

Definition declare (this : loc) (options : loc) (handler : value) : M unit :=
  array_forEach ["name"; "method"; "route"; "title"; "description"] (λ key,
    v ← get (VRef options) key;
    assert (truthy v) ("Option '" +:+ key +:+ "' must be provided"));;
  (* Default to experimental API end-points *)
  s ← get (VRef options) "stability";
  (if negb (truthy s) then set options "stability" stability_experimental else mret ());;
  s ← get (VRef options) "stability";
  assert (negb (indexOf STABILITY_LEVELS s =? -1)%Z)
    ("options.stability must be a valid stability-level, " +:+
     "see base.API.stability for valid options");;
  (* options.params = _.defaults({}, options.params || {}, this.params) *)
  empty ← alloc (plain []);
  params ← get (VRef options) "params";
  own ← or_elseM params (VRef <$> alloc (plain []));
  shared ← get (VRef this) "params";
  merged ← Lodash.defaults empty [own; shared];
  set options "params" (VRef merged);;
  (* options.query = options.query || {} *)
  query ← get (VRef options) "query";
  query ← or_elseM query (VRef <$> alloc (plain []));
  set options "query" query;;
  query ← get (VRef options) "query";
  Lodash.forEach query validate_query;;
  deferAuth ← get (VRef options) "deferAuth";
  assert (negb (truthy deferAuth))
    "deferAuth is deprecated! https://github.com/taskcluster/taskcluster-lib-api#request-handlers";;
  scopes ← get (VRef options) "scopes";
  h ← current_heap;
  (if truthy scopes && negb (ScopeExpressionTemplate_validate host h scopes)
   then throw (Error ("Invalid scope expression template: " +:+ JSON_stringify host h scopes))
   else mret ());;
  set options "handler" handler;;
  entries ← get (VRef this) "entries";
  elems ← array_elems entries;
  identical ← filterM (same_route_and_method options) elems;
  (if (0 <? length identical)%nat
   then throw (Error "Identical route and method declaration.")
   else mret ());;
  entries ← get (VRef this) "entries";
  elems ← array_elems entries;
  declared ← someM (same_name options) elems;
  (if declared : bool
   then throw (Error "This function has already been declared.")
   else mret ());;
  entries ← get (VRef this) "entries";
  push entries (VRef options).

(** ** [APIBuilder.prototype.build = async function(options) { ... }]

    The result is the state of the promise [build] returns, the heap, and the
    calls made to the collaborators. *)
Definition build (this : loc) (options : loc) (h : heap)
    : promise loc * heap * list call :=
  (* options.api = this *)
  let h1 := <[options := obj_set (deref h options) "api" (VRef this)]> h in
  (* const service = new API(options) *)
  match API host options h1 with
  | (Throw e, h2) => (Rejected e, h2, [CallAPI options])
  | (Normal service, h2) =>
      if truthy (obj_get (deref h2 options) "publish") then
        (* await service.publish() *)
        match publish host service h2 with
        | (Fulfilled _, h3) =>
            (Fulfilled service, h3, [CallAPI options; CallPublish service])
        | (Rejected cause, h3) =>
            (Rejected cause, h3, [CallAPI options; CallPublish service])
        | (Pending, h3) =>
            (Pending, h3, [CallAPI options; CallPublish service])
        end
      else (Fulfilled service, h2, [CallAPI options])
  end.

End Builder.

(* ===================================================================== *)
(** * Specification vocabulary *)
(* ===================================================================== *)

(** ** Reasoning about statements *)

(** [wp m h Q]: running [m] from heap [h] ends in a completion and a heap
    that satisfy [Q]; every statement terminates, so this is total
    correctness. *)
Definition wp {A} (m : M A) (h : heap) (Q : completion A → heap → Prop) : Prop :=
  Q (m h).1 (m h).2.

(** statements that leave the heap as it is *)
Definition pure_action {A} (m : M A) : Prop := ∀ h, (m h).2 = h.

(** ** Objects *)

(** keys on which every kind of object behaves as a plain object does *)
Definition ordinary (k : string) : Prop :=
  array_index k = None ∧ k ≠ "length" ∧ k ≠ "name".

Definition named (o : object) (k : string) : value :=
  default VUndefined (assoc k (props o)).

Definition lookup_prop (ps : list (string * value)) (k : string) : value :=
  default VUndefined (assoc k ps).

(** [v[k]] for a [v] that is neither [null] nor [undefined] *)
Definition prop_of (h : heap) (v : value) (k : string) : value :=
  match get_prop h v k with Normal x => x | Throw _ => VUndefined end.

Definition is_undefined (v : value) : bool := strict_eq v VUndefined.

(** [h'] differs from [h] at most at [l], and a plain object at [l] stays a
    plain object: all that [_.defaults] does to the heap. *)
Definition plain_update (l : loc) (h h' : heap) : Prop :=
  (∀ l', l' ≠ l → h' !! l' = h !! l') ∧
  (∀ ps, h !! l = Some (plain ps) → ∃ ps', h' !! l = Some (plain ps')).

(** ** The builder and its registry *)

(** The entries of the builder at [this]: the elements of the array that its
    [entries] property refers to.  The elements are references: the sequence
    says which objects are registered, not what they hold. *)
Definition entries_of (h : heap) (this : loc) : option (list value) :=
  match h !! this with
  | Some o =>
      match obj_get o "entries" with
      | VRef a =>
          match h !! a with
          | Some oa => match okind oa with KArray es => Some es | _ => None end
          | None => None
          end
      | _ => None
      end
  | None => None
  end.

(** [h'] has every object of [h], unchanged *)
Definition extends (h h' : heap) : Prop := ∀ l o, h !! l = Some o → h' !! l = Some o.

(** the builder object that [new APIBuilder(options)] returns for an object
    literal [options] with properties [ps]; [merged] is its table of error
    codes *)
Definition constructed (ps : list (string * value)) (h' : heap) (this merged : loc)
    : Prop :=
  ∃ params context entries,
    h' !! this = Some (plain [("name", lookup_prop ps "name");
                              ("version", lookup_prop ps "version");
                              ("title", lookup_prop ps "title");
                              ("description", lookup_prop ps "description");
                              ("params", params); ("context", context);
                              ("errorCodes", VRef merged);
                              ("entries", VRef entries)]) ∧
    h' !! entries = Some (array []).

(** The properties [psm] of
    [_.defaults({}, user, codes)], the new object being at [merged] in heap
    [hu]: first the properties of [user], then those of [codes] that [user]
    leaves undefined. *)
Definition merged_error_codes (hu : heap) (merged : loc) (user codes : value)
    (psm : list (string * value)) : Prop :=
  ∃ ps1,
    (∀ k, lookup_prop ps1 k =
          if bool_decide (k ∈ keys_of hu user) then prop_of hu user k else VUndefined) ∧
    (∀ k, lookup_prop psm k =
          if is_undefined (lookup_prop ps1 k) &&
             bool_decide (k ∈ keys_of (<[merged := plain ps1]> hu) codes)
          then prop_of (<[merged := plain ps1]> hu) codes k
          else lookup_prop ps1 k).

(** All that a construction from an object literal with properties [ps] does:
    [hu] is the heap in which line 34 merges the error codes, [hv] the one in
    which line 40 validates them. *)
Definition APIBuilder_post (host : Host) (h : heap) (ps : list (string * value))
    (r : completion loc) (h' : heap) : Prop :=
  match r with
  | Throw _ => True
  | Normal this =>
      h !! this = None ∧
      ∃ (merged : loc) (user : value) (hu : heap) (psm : list (string * value)) (hv : heap),
        constructed ps h' this merged ∧
        h !! merged = None ∧
        extends h hu ∧ hu !! merged = Some (plain []) ∧
        (truthy (lookup_prop ps "errorCodes") = true ∧ user = lookup_prop ps "errorCodes" ∨
         truthy (lookup_prop ps "errorCodes") = false ∧
           ∃ l, user = VRef l ∧ h !! l = None ∧ hu !! l = Some (plain [])) ∧
        merged_error_codes hu merged user (ERROR_CODES host) psm ∧
        extends h hv ∧ hv !! merged = Some (plain psm) ∧
        (Lodash.forEach (VRef merged) (validate_error_code host) hv).1 = Normal ()
  end.

(** ** Every outcome of a construction *)

(** what lines 29 and 145 throw for [key] *)
Definition must_be_provided (key : string) : exn :=
  AssertionError ("Option '" +:+ key +:+ "' must be provided").

(** the first of [keys] that [o] leaves falsy *)
Definition first_missing (o : object) (keys : list string) : option string :=
  List.find (λ key, negb (truthy (obj_get o key))) keys.

(** [v] is the result of filling [given] by [_.defaults] from a source that
    holds the new object [fallback]: [given], unless that is [undefined] *)
Definition defaulted (h h' : heap) (given : value) (fallback : object) (v : value) : Prop :=
  if is_undefined given
  then ∃ l, v = VRef l ∧ h !! l = None ∧ h' !! l = Some fallback
  else v = given.

(** [_.defaults({}, user, codes)] makes no key of its own: a key of the
    result is a key of [user] or a key of [codes] *)
Definition merged_keys (hu : heap) (merged : loc) (user codes : value)
    (psm : list (string * value)) : Prop :=
  ∀ k, k ∈ (fst <$> psm) →
       k ∈ keys_of hu user ∨ ∃ ps1, k ∈ keys_of (<[merged := plain ps1]> hu) codes.

(** and it has every key of [user] and every key of [codes] *)
Definition merged_covers (hu : heap) (merged : loc) (user codes : value)
    (psm : list (string * value)) : Prop :=
  ∀ k, k ∈ keys_of hu user ∨ codes ≠ VRef merged ∧ k ∈ keys_of hu codes →
       k ∈ (fst <$> psm).

(** Line 34: [merged] is the new table, [user] is [options.errorCodes || {}],
    [hu] the heap in which the two tables are merged, [psm] the properties of
    the result, and [hv] the heap in which line 40 iterates over it. *)
Definition error_codes_merged (host : Host) (h : heap) (ps : list (string * value))
    (merged : loc) (user : value) (hu : heap) (psm : list (string * value)) (hv : heap)
    : Prop :=
  h !! merged = None ∧
  extends h hu ∧ hu !! merged = Some (plain []) ∧
  (truthy (lookup_prop ps "errorCodes") = true ∧ user = lookup_prop ps "errorCodes" ∨
   truthy (lookup_prop ps "errorCodes") = false ∧
     ∃ l, user = VRef l ∧ h !! l = None ∧ hu !! l = Some (plain [])) ∧
  merged_error_codes hu merged user (ERROR_CODES host) psm ∧
  merged_keys hu merged user (ERROR_CODES host) psm ∧
  merged_covers hu merged user (ERROR_CODES host) psm ∧
  extends h hv ∧ hv !! merged = Some (plain psm).

(** the table that [options.errorCodes || {}] refers to: [pc] are its
    properties *)
Definition user_error_codes (h : heap) (ps pc : list (string * value)) : Prop :=
  truthy (lookup_prop ps "errorCodes") = false ∧ pc = [] ∨
  ∃ codes, lookup_prop ps "errorCodes" = VRef codes ∧ h !! codes = Some (plain pc).

(** what lines 41 and 42 accept: a key with an upper-case letter followed by
    alphanumerics somewhere in it, and a number *)
Definition accepted_error_code (kv : string * value) : bool :=
  Regex.test Regex.error_code kv.1 && match kv.2 with VNum _ => true | _ => false end.

(** The five ways in which a construction from an object literal with
    properties [ps] throws, in the order of the checks. *)
Inductive construction_failure (host : Host) (h : heap) (ps : list (string * value))
    : exn → Prop :=
| schemaPrefix_given :
    truthy (lookup_prop ps "schemaPrefix") = true →
    construction_failure host h ps (AssertionError "schemaPrefix is no longer allowed!")
| option_missing key :
    truthy (lookup_prop ps "schemaPrefix") = false →
    first_missing (plain ps) ["title"; "description"; "name"; "version"] = Some key →
    construction_failure host h ps (must_be_provided key)
| invalid_name hx :
    extends h hx →
    Regex.test Regex.api_name (ToString host hx (lookup_prop ps "name")) = false →
    construction_failure host h ps
      (AssertionError ("api name " +:+ dquote +:+ ToString host hx (lookup_prop ps "name")
                         +:+ dquote +:+ " is not valid"))
| invalid_version hx :
    extends h hx →
    Regex.test Regex.api_name (ToString host hx (lookup_prop ps "name")) = true →
    Regex.test Regex.api_version (ToString host hx (lookup_prop ps "version")) = false →
    construction_failure host h ps
      (AssertionError ("api version " +:+ dquote +:+ ToString host hx (lookup_prop ps "version")
                         +:+ dquote +:+ " is not valid"))
| invalid_error_codes merged user hu psm hv e :
    error_codes_merged host h ps merged user hu psm hv →
    (Lodash.forEach (VRef merged) (validate_error_code host) hv).1 = Throw e →
    construction_failure host h ps e.

(** Everything a construction from an object literal with properties [ps]
    can do.  No object of the heap is written.  When the construction
    returns, all five checks have passed and the builder is a new object that
    holds what was passed, the merged table of error codes, and new objects
    for what was not passed. *)
Definition APIBuilder_outcome (host : Host) (h : heap) (ps : list (string * value))
    (r : completion loc) (h' : heap) : Prop :=
  extends h h' ∧
  match r with
  | Throw e => construction_failure host h ps e
  | Normal this =>
      h !! this = None ∧
      truthy (lookup_prop ps "schemaPrefix") = false ∧
      first_missing (plain ps) ["title"; "description"; "name"; "version"] = None ∧
      (∃ hx, extends h hx ∧
         Regex.test Regex.api_name (ToString host hx (lookup_prop ps "name")) = true ∧
         Regex.test Regex.api_version (ToString host hx (lookup_prop ps "version")) = true) ∧
      ∃ (merged : loc) (user : value) (hu : heap) (psm : list (string * value)) (hv : heap)
        (params context : value) (entries : loc),
        error_codes_merged host h ps merged user hu psm hv ∧
        (Lodash.forEach (VRef merged) (validate_error_code host) hv).1 = Normal () ∧
        h' !! this = Some (plain [("name", lookup_prop ps "name");
                                  ("version", lookup_prop ps "version");
                                  ("title", lookup_prop ps "title");
                                  ("description", lookup_prop ps "description");
                                  ("params", params); ("context", context);
                                  ("errorCodes", VRef merged);
                                  ("entries", VRef entries)]) ∧
        h' !! merged = Some (plain psm) ∧
        h !! entries = None ∧ h' !! entries = Some (array []) ∧
        defaulted h h' (lookup_prop ps "params") (plain []) params ∧
        defaulted h h' (lookup_prop ps "context") (array []) context
  end.

(** ** What [declare] writes *)

(** the properties of [options] that [declare] assigns *)
Definition written : list string := ["stability"; "params"; "query"; "handler"].

(** the properties [declare] requires *)
Definition required : list string := ["name"; "method"; "route"; "title"; "description"].

Definition changed_only (o0 o : object) : Prop :=
  okind o = okind o0 ∧ ∀ k, k ∉ written → assoc k (props o) = assoc k (props o0).

(** [h] is [h0] except for new objects and for the [written] properties of
    the object at [options]. *)
Definition frame (options : loc) (h0 h : heap) : Prop :=
  (∀ l, l ≠ options → is_Some (h0 !! l) → h !! l = h0 !! l) ∧
  (∀ o0, h0 !! options = Some o0 →
     ∃ o, h !! options = Some o ∧ changed_only o0 o).

Definition state_ok (options : loc) (h0 : heap) (o0 : object) (h : heap) (o : object)
    : Prop :=
  h !! options = Some o ∧
  (∀ l, l ≠ options → is_Some (h0 !! l) → h !! l = h0 !! l) ∧
  changed_only o0 o.

Definition with_default_stability (o : object) : object :=
  if truthy (obj_get o "stability") then o
  else obj_set o "stability" stability_experimental.

(** the options object as [declare] leaves it, just before the registry is
    consulted *)
Definition prepared (o0 : object) (params query handler : value) : object :=
  obj_set (obj_set (obj_set (with_default_stability o0) "params" params) "query" query)
          "handler" handler.

(** Everything a call of [declare] can do.  When it throws, the heap is
    framed.  When it returns, [h1] is the heap after lines 144-166: [m] is the
    new merged [params] object, [q] the query object, [a] the array of
    entries, in which no entry has the route and method or the name of
    [options]; the final heap is [h1] with [options] pushed.  [hg] is the
    heap in which line 156 has validated the query. *)
Definition declare_post (host : Host) (this options : loc) (handler : value)
    (h0 : heap) (o0 : object) (r : completion unit) (h' : heap) : Prop :=
  match r with
  | Throw _ => frame options h0 h'
  | Normal _ =>
      ∃ (h1 : heap) (m : loc) (q : value) (a : loc) (es : list value) (hg : heap),
        (frame options h0 hg ∧
         (Lodash.forEach q (validate_query host) hg).1 = Normal ()) ∧
        h0 !! m = None ∧ (∃ ps, h1 !! m = Some (plain ps)) ∧
        (truthy (obj_get o0 "query") = true ∧ q = obj_get o0 "query" ∨
         truthy (obj_get o0 "query") = false ∧
           ∃ ql, q = VRef ql ∧ h0 !! ql = None ∧ ql ≠ m ∧ h1 !! ql = Some (plain [])) ∧
        h1 !! options = Some (prepared o0 (VRef m) q handler) ∧
        (∀ l, l ≠ options → is_Some (h0 !! l) → h1 !! l = h0 !! l) ∧
        (∀ k, k ∈ required → truthy (obj_get o0 k) = true) ∧
        indexOf STABILITY_LEVELS (obj_get (with_default_stability o0) "stability") ≠ (-1)%Z ∧
        obj_get (deref h1 this) "entries" = VRef a ∧
        okind (deref h1 a) = KArray es ∧
        (∀ entry, entry ∈ es → (same_route_and_method host options entry h1).1 = Normal false) ∧
        (∀ entry, entry ∈ es → (same_name options entry h1).1 = Normal false) ∧
        h' = <[a := Object (KArray (es ++ [VRef options])) (props (deref h1 a))]> h1
  end.

(** ** Every outcome of a call of [declare] *)

(** the options object after line 155, before the query is looked at *)
Definition queried (o0 : object) (params query : value) : object :=
  obj_set (obj_set (with_default_stability o0) "params" params) "query" query.

(** Line 154: [psm] are the properties of
    [_.defaults({}, options.params || {}, this.params)], which is the new
    object [m]; [hd] is the heap in which the two are merged and [own] is
    [options.params || {}].  Every reference reads in [hd] as it does in
    [h0] once the stability is defaulted: the objects made since have no
    properties yet. *)
Definition params_merged (this options : loc) (h0 : heap) (o0 : object) (m : loc)
    (psm : list (string * value)) : Prop :=
  ∃ (own : value) (hd : heap),
    hd !! options = Some (with_default_stability o0) ∧
    (∀ l, l ≠ options → is_Some (h0 !! l) → hd !! l = h0 !! l) ∧
    (∀ l, deref hd l = deref (<[options := with_default_stability o0]> h0) l) ∧
    (truthy (obj_get o0 "params") = true ∧ own = obj_get o0 "params" ∨
     truthy (obj_get o0 "params") = false ∧
       ∃ l, own = VRef l ∧ h0 !! l = None ∧ hd !! l = Some (plain [])) ∧
    merged_error_codes hd m own (obj_get (deref hd this) "params") psm.

(** A heap [h] during a call of [declare], from line 156 on: [options] holds
    [o], everything else that was in [h0] is as it was, [m] is the new
    [params] object and [q] the query. *)
Definition declare_staged (this options : loc) (h0 : heap) (o0 : object) (m : loc)
    (q : value) (psm : list (string * value)) (h : heap) (o : object) : Prop :=
  h !! options = Some o ∧
  (∀ l, l ≠ options → is_Some (h0 !! l) → h !! l = h0 !! l) ∧
  h0 !! m = None ∧ h !! m = Some (plain psm) ∧
  params_merged this options h0 o0 m psm ∧
  (truthy (obj_get o0 "query") = true ∧ q = obj_get o0 "query" ∨
   truthy (obj_get o0 "query") = false ∧
     ∃ ql, q = VRef ql ∧ h0 !! ql = None ∧ ql ≠ m ∧ h !! ql = Some (plain [])).

(** The ways in which a call of [declare] throws, in the order of the
    statements, with the exception and the heap it leaves. *)
Inductive declare_failure (host : Host) (this options : loc) (handler : value)
    (h0 : heap) (o0 : object) : exn → heap → Prop :=
| required_missing key :
    first_missing o0 required = Some key →
    declare_failure host this options handler h0 o0 (must_be_provided key) h0
| stability_invalid h' :
    indexOf STABILITY_LEVELS (obj_get (with_default_stability o0) "stability") = (-1)%Z →
    declare_failure host this options handler h0 o0
      (AssertionError ("options.stability must be a valid stability-level, " +:+
                       "see base.API.stability for valid options")) h'
| query_invalid m q psm hg e :
    declare_staged this options h0 o0 m q psm hg (queried o0 (VRef m) q) →
    (Lodash.forEach q (validate_query host) hg).1 = Throw e →
    declare_failure host this options handler h0 o0 e hg
| deferAuth_given h' :
    truthy (obj_get o0 "deferAuth") = true →
    declare_failure host this options handler h0 o0
      (AssertionError
         "deferAuth is deprecated! https://github.com/taskcluster/taskcluster-lib-api#request-handlers")
      h'
| scopes_invalid hg :
    truthy (obj_get o0 "scopes") = true →
    ScopeExpressionTemplate_validate host hg (obj_get o0 "scopes") = false →
    declare_failure host this options handler h0 o0
      (Error ("Invalid scope expression template: " +:+
              JSON_stringify host hg (obj_get o0 "scopes"))) hg
| entries_unusable m q psm h1 e :
    declare_staged this options h0 o0 m q psm h1 (prepared o0 (VRef m) q handler) →
    (array_elems (obj_get (deref h1 this) "entries") h1).1 = Throw e →
    declare_failure host this options handler h0 o0 e h1
| route_check_throws m q psm h1 es e :
    declare_staged this options h0 o0 m q psm h1 (prepared o0 (VRef m) q handler) →
    (array_elems (obj_get (deref h1 this) "entries") h1).1 = Normal es →
    (filterM (same_route_and_method host options) es h1).1 = Throw e →
    declare_failure host this options handler h0 o0 e h1
| route_and_method_taken m q psm h1 es entry identical :
    declare_staged this options h0 o0 m q psm h1 (prepared o0 (VRef m) q handler) →
    (array_elems (obj_get (deref h1 this) "entries") h1).1 = Normal es →
    (filterM (same_route_and_method host options) es h1).1 = Normal (entry :: identical) →
    declare_failure host this options handler h0 o0
      (Error "Identical route and method declaration.") h1
| name_check_throws m q psm h1 es e :
    declare_staged this options h0 o0 m q psm h1 (prepared o0 (VRef m) q handler) →
    (array_elems (obj_get (deref h1 this) "entries") h1).1 = Normal es →
    (someM (same_name options) es h1).1 = Throw e →
    declare_failure host this options handler h0 o0 e h1
| name_taken m q psm h1 es :
    declare_staged this options h0 o0 m q psm h1 (prepared o0 (VRef m) q handler) →
    (array_elems (obj_get (deref h1 this) "entries") h1).1 = Normal es →
    (someM (same_name options) es h1).1 = Normal true →
    declare_failure host this options handler h0 o0
      (Error "This function has already been declared.") h1.

(** Everything a call of [declare] can do, with every way out.  When it
    returns, every check has passed: [hg] is the heap in which the query and
    the scopes are checked, [h1] the heap in which the registry is searched,
    and the final heap is [h1] with [options] pushed. *)
Definition declare_outcome (host : Host) (this options : loc) (handler : value)
    (h0 : heap) (o0 : object) (r : completion unit) (h' : heap) : Prop :=
  match r with
  | Throw e => frame options h0 h' ∧ declare_failure host this options handler h0 o0 e h'
  | Normal _ =>
      ∃ (h1 : heap) (m : loc) (q : value) (psm : list (string * value)) (a : loc)
        (es : list value) (hg : heap),
        first_missing o0 required = None ∧
        indexOf STABILITY_LEVELS (obj_get (with_default_stability o0) "stability") ≠ (-1)%Z ∧
        frame options h0 hg ∧
        declare_staged this options h0 o0 m q psm hg (queried o0 (VRef m) q) ∧
        (Lodash.forEach q (validate_query host) hg).1 = Normal () ∧
        truthy (obj_get o0 "deferAuth") = false ∧
        (truthy (obj_get o0 "scopes") = false ∨
         ScopeExpressionTemplate_validate host hg (obj_get o0 "scopes") = true) ∧
        declare_staged this options h0 o0 m q psm h1 (prepared o0 (VRef m) q handler) ∧
        obj_get (deref h1 this) "entries" = VRef a ∧
        okind (deref h1 a) = KArray es ∧
        (∀ entry, entry ∈ es → (same_route_and_method host options entry h1).1 = Normal false) ∧
        (∀ entry, entry ∈ es → (same_name options entry h1).1 = Normal false) ∧
        h' = <[a := Object (KArray (es ++ [VRef options])) (props (deref h1 a))]> h1
  end.

(** ** What [_.defaults] copies *)

(** [v[k]] as [_.defaults] reads it from a source [v]: the value of an own
    enumerable key of [v], and [undefined] for every other key *)
Definition enumerated (h : heap) (v : value) (k : string) : value :=
  if bool_decide (k ∈ keys_of h v) then prop_of h v k else VUndefined.

(** the value under [k] in [_.defaults({}, own, shared)]: what [own] holds,
    and what [shared] holds where [own] holds [undefined] *)
Definition merged_value (h : heap) (own shared : value) (k : string) : value :=
  if is_undefined (enumerated h own k) then enumerated h shared k
  else enumerated h own k.

(** what line 157 accepts as a validator *)
Definition is_validator (h : heap) (v : value) : bool :=
  instanceof_RegExp h v || instanceof_Function h v.

(** a value that, when it is a reference, refers into the heap *)
Definition in_heap (h : heap) (v : value) : Prop :=
  match v with VRef l => is_Some (h !! l) | _ => True end.

(** ** End-points that [declare] accepts *)

(** the object that [options.params || {}] refers to: [pp] are its
    properties *)
Definition own_params (h : heap) (options : loc) (o0 : object)
    (pp : list (string * value)) : Prop :=
  truthy (obj_get o0 "params") = false ∧ pp = [] ∨
  ∃ l, obj_get o0 "params" = VRef l ∧ l ≠ options ∧ h !! l = Some (plain pp).

(** An end-point [o0] at [options] that passes the checks of lines 144-165:
    the required options are truthy, the stability is absent or one of the
    levels, the query is absent or an object literal of regular expressions
    and functions, there is no [deferAuth], and the scopes are absent or
    valid. *)
Definition well_formed (host : Host) (h : heap) (options : loc) (o0 : object) : Prop :=
  h !! options = Some o0 ∧
  first_missing o0 required = None ∧
  (truthy (obj_get o0 "stability") = false ∨ obj_get o0 "stability" ∈ STABILITY_LEVELS) ∧
  (truthy (obj_get o0 "query") = false ∨
   ∃ ql psq, obj_get o0 "query" = VRef ql ∧ ql ≠ options ∧ h !! ql = Some (plain psq) ∧
             forallb (λ kv, is_validator h kv.2) psq = true) ∧
  truthy (obj_get o0 "deferAuth") = false ∧
  (truthy (obj_get o0 "scopes") = false ∨
   ∀ h', frame options h h' →
         ScopeExpressionTemplate_validate host h' (obj_get o0 "scopes") = true).

(** No entry of [es] has the name of [o0], and none has both its route and
    its method. *)
Definition unregistered (host : Host) (h : heap) (o0 : object) (es : list value) : Prop :=
  ∀ entry, entry ∈ es →
    ∃ e oe, entry = VRef e ∧ h !! e = Some oe ∧
      strict_eq (obj_get oe "name") (obj_get o0 "name") = false ∧
      ∀ h', loose_eq host h' (obj_get oe "route") (obj_get o0 "route") &&
            loose_eq host h' (obj_get oe "method") (obj_get o0 "method") = false.

(** the names of the entries, in order *)
Definition entry_names (h : heap) (es : list value) : list value :=
  (λ entry, prop_of h entry "name") <$> es.

(** [differ] holds between every element and every later one *)
Fixpoint pairwise {A} (differ : A → A → bool) (xs : list A) : bool :=
  match xs with
  | [] => true
  | x :: xs' => forallb (differ x) xs' && pairwise differ xs'
  end.

(** no two of [vs] are [===] *)
Definition pairwise_distinct (vs : list value) : bool :=
  pairwise (λ v w, negb (strict_eq v w)) vs.

(** the routes of the entries with their methods, in order *)
Definition entry_routes (h : heap) (es : list value) : list (value * value) :=
  (λ entry, (prop_of h entry "route", prop_of h entry "method")) <$> es.

Definition is_string (v : value) : bool :=
  match v with VStr _ => true | _ => false end.

(** every route and every method is a string *)
Definition string_routes (rs : list (value * value)) : bool :=
  forallb (λ r, is_string r.1 && is_string r.2) rs.

(** no two of [rs] have the same route and the same method *)
Definition routes_distinct (rs : list (value * value)) : bool :=
  pairwise (λ r r', negb (strict_eq r.1 r'.1 && strict_eq r.2 r'.2)) rs.

(** ** The calls of [build] *)

Definition is_publish (c : call) : bool :=
  match c with CallPublish _ => true | CallAPI _ => false end.

Definition publish_calls (cs : list call) : nat := length (List.filter is_publish cs).

(* ===================================================================== *)
(** * A widget service, for examples *)
(* ===================================================================== *)

Module Widgets.

Definition handler : loc := 21%positive.
Definition builder : loc := 10%positive.

Definition entry (name method route : string) (more : list (string * value)) : object :=
  plain ([("method", VStr method); ("route", VStr route); ("name", VStr name);
          ("title", VStr "A title"); ("description", VStr "A description")] ++ more).

Definition options (name version : string) (more : list (string * value)) : object :=
  plain ([("title", VStr "Widgets"); ("description", VStr "The widget service");
          ("name", VStr name); ("version", VStr version)] ++ more).

(** A heap with the table of error codes at 1, construction options at 2, 3,
    4, 40, 42, 44 and 46, a builder at 10 that has one entry,
    [get /widgets/:id] at 20, and further options objects for [declare] at
    30-39. *)
Definition heap0 : heap :=
  list_to_map [
    (1%positive, plain [("MalformedPayload", num 400); ("ResourceNotFound", num 404);
                        ("InternalServerError", num 500)]);
    (2%positive, options "widgets" "v1" []);
    (3%positive, options "Bad Name" "v1" []);
    (4%positive, options "widgets" "version1" []);
    (builder, plain [("name", VStr "widgets"); ("version", VStr "v1");
                     ("title", VStr "Widgets"); ("description", VStr "The widget service");
                     ("params", VRef 11%positive); ("context", VRef 13%positive);
                     ("errorCodes", VRef 1%positive); ("entries", VRef 12%positive)]);
    (11%positive, plain []);
    (12%positive, array [VRef 20%positive]);
    (13%positive, array []);
    (20%positive, entry "getWidget" "get" "/widgets/:id"
                    [("stability", VStr "experimental"); ("params", VRef 22%positive);
                     ("query", VRef 23%positive); ("handler", VRef handler)]);
    (handler, function "handler" 2);
    (22%positive, plain []);
    (23%positive, plain []);
    (24%positive, function "otherHandler" 2);
    (30%positive, entry "getWidgetAgain" "get" "/widgets/:id" []);
    (31%positive, entry "getWidget" "put" "/widgets/:id/copy" []);
    (32%positive, entry "listWidgets" "get" "/widgets" []);
    (33%positive, entry "listWidgets" "get" "/widgets" [("stability", VStr EmptyString)]);
    (34%positive, entry "listWidgets" "get" "/widgets" [("stability", VStr "beta")]);
    (35%positive, entry "listWidgets" "get" "/widgets" [("query", VRef 36%positive)]);
    (36%positive, plain [("limit", VStr "not-a-function-or-regex"); ("length", num 0)]);
    (37%positive, entry "listWidgets" "get" "/widgets" [("query", VRef 38%positive)]);
    (38%positive, plain [("limit", VStr "not-a-function-or-regex")]);
    (39%positive, entry "listWidgets" "get" "/widgets" [("query", VRef 48%positive)]);
    (48%positive, plain [("limit", VRef 49%positive); ("after", VRef 24%positive)]);
    (49%positive, regexp);
    (40%positive, options "widgets" "v1" [("errorCodes", VRef 41%positive)]);
    (41%positive, plain [("bad-Code", num 400)]);
    (42%positive, options "widgets" "v1" [("errorCodes", VRef 43%positive)]);
    (43%positive, plain [("Teapot", VNum (Fin (Qmake 837 2)))]);
    (44%positive, options "widgets" "v1" [("errorCodes", VRef 45%positive)]);
    (45%positive, plain [("teapot", num 418)]);
    (46%positive, options "widgets" "v1" [("errorCodes", VRef 47%positive)]);
    (47%positive, plain [("Teapot", VStr "418")]);
    (50%positive, plain [("publish", VBool true)]);
    (51%positive, plain [("publish", VBool false)])
  ].

(** collaborators: a scope validator that accepts arrays, a service
    constructor that allocates the service, a [publish] that resolves *)
Definition host : Host := {|
  ERROR_CODES := VRef 1%positive;
  ScopeExpressionTemplate_validate := λ h v, bool_decide (is_Some (Lodash.isArray h v));
  API := λ options, alloc (plain [("options", VRef options)]);
  publish := λ service h, (Fulfilled VUndefined, h);
  JSON_stringify := λ _ _, "[]";
  ToString_host := λ _ _, "[object Object]";
  loose_eq_host := λ _ _ _, false;
|}.

(** the same, with a [publish] that rejects *)
Definition failing_host : Host := {|
  ERROR_CODES := VRef 1%positive;
  ScopeExpressionTemplate_validate := λ h v, bool_decide (is_Some (Lodash.isArray h v));
  API := λ options, alloc (plain [("options", VRef options)]);
  publish := λ service h, (Rejected (Foreign (VStr "bucket not found")), h);
  JSON_stringify := λ _ _, "[]";
  ToString_host := λ _ _, "[object Object]";
  loose_eq_host := λ _ _ _, false;
|}.

(** the heap after [build] on the options at 50 has constructed the service *)
Definition heap_with_service : heap :=
  <[52%positive := plain [("options", VRef 50%positive)]]>
    (<[50%positive := obj_set (deref heap0 50%positive) "api" (VRef builder)]> heap0).



End Widgets.

(* ===================================================================== *)
(** * A gadget service, for more examples *)
(* ===================================================================== *)

Module Gadgets.
Import Widgets.

Definition gadgets : loc := 17%positive.

(** construction options with a table of error codes at 8 and [params] at 9 *)
Definition service : list (string * value) :=
  [("title", VStr "Gadgets"); ("description", VStr "The gadget service");
   ("name", VStr "gadgets"); ("version", VStr "v2");
   ("errorCodes", VRef 8%positive); ("params", VRef 9%positive)].

Definition codes : list (string * value) :=
  [("ResourceNotFound", num 410); ("Teapot", num 418)].

(** the patterns of the builder at [gadgets] and those of the end-point at 25 *)
Definition shared_params : list (string * value) :=
  [("gadgetId", VRef 49%positive); ("size", VRef 24%positive)].

Definition own_params : list (string * value) := [("size", VRef 49%positive)].

(** The heap of the widget service, and with it: construction options at 5
    (with a [schemaPrefix]), 6 (without a description) and 7, end-points at 14
    (without a route), 15 (with [deferAuth]), 16 (with scopes that are no
    array) and 25, and a second builder at [gadgets], without entries. *)
Definition heap1 : heap :=
  list_to_map [
    (5%positive, options "widgets" "v1" [("schemaPrefix", VStr "widgets/v1/")]);
    (6%positive, plain [("title", VStr "Widgets"); ("name", VStr "widgets");
                        ("version", VStr "v1")]);
    (7%positive, plain service);
    (8%positive, plain codes);
    (9%positive, plain [("gadgetId", VRef 49%positive)]);
    (14%positive, plain [("method", VStr "get"); ("name", VStr "listGadgets");
                         ("title", VStr "A title"); ("description", VStr "A description")]);
    (15%positive, entry "listGadgets" "get" "/gadgets" [("deferAuth", VBool true)]);
    (16%positive, entry "listGadgets" "get" "/gadgets" [("scopes", VStr "gadgets:list")]);
    (gadgets, plain [("name", VStr "gadgets"); ("version", VStr "v2");
                     ("title", VStr "Gadgets"); ("description", VStr "The gadget service");
                     ("params", VRef 18%positive); ("context", VRef 13%positive);
                     ("errorCodes", VRef 1%positive); ("entries", VRef 19%positive)]);
    (18%positive, plain shared_params);
    (19%positive, array []);
    (25%positive, entry "getGadget" "get" "/gadgets/:gadgetId" [("params", VRef 26%positive)]);
    (26%positive, plain own_params)
  ] ∪ heap0.

End Gadgets.

(* ===================================================================== *)
(** * The regular-expression matcher is correct *)
(* ===================================================================== *)
Module RegexFacts.
Import Regex.

Lemma matches_Void s : ¬ matches Void s.
Proof. intros H. inversion H. Qed.

Lemma matches_Eps s : matches Eps s ↔ s = [].
Proof. split; [intros H; by inversion H|intros ->; constructor]. Qed.

Lemma matches_Class rs s : matches (Class rs) s ↔ ∃ c, s = [c] ∧ in_class c rs = true.
Proof.
  split.
  - intros H. inversion H; subst. eauto.
  - intros (c & -> & Hc). by constructor.
Qed.

Lemma matches_Cat r1 r2 s :
  matches (Cat r1 r2) s ↔ ∃ s1 s2, s = s1 ++ s2 ∧ matches r1 s1 ∧ matches r2 s2.
Proof.
  split.
  - intros H. inversion H; subst. eauto.
  - intros (s1 & s2 & -> & H1 & H2). by constructor.
Qed.

Lemma matches_Alt r1 r2 s : matches (Alt r1 r2) s ↔ matches r1 s ∨ matches r2 s.
Proof.
  split.
  - intros H. inversion H; subst; auto.
  - intros [H|H]; [by apply MAltL|by apply MAltR].
Qed.

Lemma matches_Star_cons r c s :
  matches (Star r) (c :: s) →
  ∃ s1 s2, s = s1 ++ s2 ∧ matches r (c :: s1) ∧ matches (Star r) s2.
Proof.
  intros H. remember (Star r) as r' eqn:Hr. remember (c :: s) as s' eqn:Hs.
  revert s Hs. induction H as [| | | | | |r0 s1 s2 H1 _ H2 IH2]; intros t Ht; try discriminate.
  injection Hr as ->. destruct s1 as [|c1 s1]; simpl in Ht.
  - by apply IH2.
  - injection Ht as -> <-. eauto.
Qed.

Lemma nullable_matches r : nullable r = true ↔ matches r [].
Proof.
  induction r as [| |rs|r1 IH1 r2 IH2|r1 IH1 r2 IH2|r IH]; simpl.
  - split; [done|]. intros H. by apply matches_Void in H.
  - split; [constructor|done].
  - split; [done|]. intros (c & Hc & _)%matches_Class. discriminate.
  - rewrite andb_true_iff, IH1, IH2, matches_Cat. split.
    + intros [H1 H2]. by exists [], [].
    + intros (s1 & s2 & Hs & H1 & H2). symmetry in Hs.
      apply app_eq_nil in Hs as [-> ->]. done.
  - by rewrite orb_true_iff, IH1, IH2, matches_Alt.
  - split; [constructor|done].
Qed.

Lemma deriv_matches c r s : matches (deriv c r) s ↔ matches r (c :: s).
Proof.
  revert s. induction r as [| |rs|r1 IH1 r2 IH2|r1 IH1 r2 IH2|r IH]; intros s; simpl.
  - split; intros H; by apply matches_Void in H.
  - split; intros H; [by apply matches_Void in H|].
    apply matches_Eps in H. discriminate.
  - rewrite matches_Class. destruct (in_class c rs) eqn:Hc.
    + rewrite matches_Eps. split.
      * intros ->. eauto.
      * by intros (c' & [= -> ->] & _).
    + split; [intros H; by apply matches_Void in H|].
      intros (c' & [= -> ->] & Hc'). congruence.
  - assert (matches (Cat (deriv c r1) r2) s ↔
            ∃ s1 s2, s = s1 ++ s2 ∧ matches r1 (c :: s1) ∧ matches r2 s2) as Hcat.
    { rewrite matches_Cat. by setoid_rewrite IH1. }
    rewrite (matches_Cat r1 r2).
    destruct (nullable r1) eqn:Hn.
    + rewrite matches_Alt, Hcat, IH2. split.
      * intros [(s1 & s2 & -> & H1 & H2)|H2].
        -- exists (c :: s1), s2. done.
        -- exists [], (c :: s). split; [done|]. split; [by apply nullable_matches|done].
      * intros (s1 & s2 & Hs & H1 & H2). destruct s1 as [|c1 s1]; simpl in Hs.
        -- right. by rewrite Hs.
        -- injection Hs as -> ->. left. eauto.
    + rewrite Hcat. split.
      * intros (s1 & s2 & -> & H1 & H2). exists (c :: s1), s2. done.
      * intros (s1 & s2 & Hs & H1 & H2). destruct s1 as [|c1 s1]; simpl in Hs.
        -- apply nullable_matches in H1. congruence.
        -- injection Hs as -> ->. eauto.
  - by rewrite !matches_Alt, IH1, IH2.
  - rewrite matches_Cat. setoid_rewrite IH. split.
    + intros (s1 & s2 & -> & H1 & H2). by apply (MStarApp r (c :: s1) s2).
    + apply matches_Star_cons.
Qed.

(** [match_here] decides the language *)
Lemma match_here_to_end r s : match_here true r s = true ↔ matches r s.
Proof.
  revert r. induction s as [|c s IH]; intros r; simpl.
  - apply nullable_matches.
  - by rewrite IH, deriv_matches.
Qed.

Lemma match_here_prefix r s :
  match_here false r s = true ↔ ∃ s1 s2, s = s1 ++ s2 ∧ matches r s1.
Proof.
  revert r. induction s as [|c s IH]; intros r; simpl.
  - rewrite nullable_matches. split.
    + intros H. by exists [], [].
    + intros (s1 & s2 & Hs & H). symmetry in Hs. by apply app_eq_nil in Hs as [-> ->].
  - rewrite orb_true_iff, IH, nullable_matches. setoid_rewrite deriv_matches. split.
    + intros [H|(s1 & s2 & -> & H)].
      * by exists [], (c :: s).
      * by exists (c :: s1), s2.
    + intros (s1 & s2 & Hs & H). destruct s1 as [|c1 s1]; simpl in Hs.
      * by left.
      * injection Hs as -> ->. right. eauto.
Qed.

Lemma match_anywhere_prefix r s :
  match_anywhere false r s = true ↔ ∃ s0 s1 s2, s = s0 ++ s1 ++ s2 ∧ matches r s1.
Proof.
  induction s as [|c s IH]; simpl.
  - rewrite orb_false_r, nullable_matches. split.
    + intros H. by exists [], [], [].
    + intros (s0 & s1 & s2 & Hs & H). symmetry in Hs.
      apply app_eq_nil in Hs as [-> Hs]. by apply app_eq_nil in Hs as [-> ->].
  - rewrite !orb_true_iff, IH, nullable_matches.
    pose proof (match_here_prefix (deriv c r) s) as Hp. rewrite Hp. clear Hp.
    setoid_rewrite deriv_matches. split.
    + intros [[H|(s1 & s2 & -> & H)]|(s0 & s1 & s2 & -> & H)].
      * by exists [], [], (c :: s).
      * by exists [], (c :: s1), s2.
      * by exists (c :: s0), s1, s2.
    + intros (s0 & s1 & s2 & Hs & H). destruct s0 as [|c0 s0]; simpl in Hs.
      * destruct s1 as [|c1 s1]; simpl in Hs.
        -- left. by left.
        -- injection Hs as -> ->. left. right. eauto.
      * injection Hs as -> ->. right. eauto.
Qed.

(** ** What the four literals accept *)

Lemma matches_Star_Class rs s :
  matches (Star (Class rs)) s ↔ Forall (λ c, in_class c rs = true) s.
Proof.
  split.
  - intros H. remember (Star (Class rs)) as r eqn:Hr.
    induction H as [| | | | | |r0 s1 s2 H1 _ H2 IH2]; try discriminate; [constructor|].
    injection Hr as ->. apply matches_Class in H1 as (c & -> & Hc).
    constructor; [done|by apply IH2].
  - induction 1 as [|c s Hc _ IH]; [constructor|].
    apply (MStarApp _ [c] s); [by constructor|done].
Qed.

Lemma matches_first_rest first rest s :
  matches (Cat (Class first) (Star (Class rest))) s ↔
  ∃ c s', s = c :: s' ∧ in_class c first = true ∧ Forall (λ c, in_class c rest = true) s'.
Proof.
  rewrite matches_Cat. setoid_rewrite matches_Class. setoid_rewrite matches_Star_Class. split.
  - intros (s1 & s2 & -> & (c & -> & Hc) & H). by exists c, s2.
  - intros (c & s' & -> & Hc & H). exists [c], s'. eauto.
Qed.

Local Abbreviation chars := list_ascii_of_string.

(** [/^[a-z][a-z0-9_-]*$/]: a lower-case letter, then lower-case letters,
    digits, [_] and [-] up to the end *)
Lemma api_name_accepts s :
  test api_name s = true ↔
  ∃ c s', chars s = c :: s' ∧ in_class c [lower] = true ∧
          Forall (λ c, in_class c [lower; digit; only "_"; only "-"]%char = true) s'.
Proof. unfold test. simpl. by rewrite match_here_to_end, matches_first_rest. Qed.

(** [/^v[0-9]+$/]: the letter [v], then one digit or more up to the end *)
Lemma api_version_accepts s :
  test api_version s = true ↔
  ∃ d ds, chars s = "v"%char :: d :: ds ∧ Forall (λ c, in_class c [digit] = true) (d :: ds).
Proof.
  unfold test. simpl. rewrite match_here_to_end, matches_Cat.
  setoid_rewrite matches_Class. unfold Plus. setoid_rewrite matches_first_rest. split.
  - intros (s1 & s2 & -> & (c & -> & Hc) & d & ds & -> & Hd & Hds).
    exists d, ds. split; [|by constructor].
    unfold in_class, in_range, only in Hc. cbn [existsb fst snd] in Hc.
    rewrite orb_false_r, andb_true_iff, !N.leb_le in Hc. destruct Hc as [Hc1 Hc2].
    pose proof (N.le_antisymm _ _ Hc2 Hc1) as Heq.
    apply (f_equal ascii_of_N) in Heq. rewrite !ascii_N_embedding in Heq. by subst c.
  - intros (d & ds & -> & Hds). apply Forall_cons in Hds as [Hd Hds].
    exists ["v"%char], (d :: ds). split; [done|]. split; [by exists "v"%char|].
    by exists d, ds.
Qed.

(** [/[A-Z][A-Za-z0-9]*/]: without anchors, any string that contains an
    upper-case letter *)
Lemma error_code_accepts s :
  test error_code s = true ↔ Exists (λ c, in_class c [upper] = true) (chars s).
Proof.
  unfold test. simpl. rewrite match_anywhere_prefix. setoid_rewrite matches_first_rest.
  rewrite Exists_exists. split.
  - intros (s0 & s1 & s2 & -> & c & s' & -> & Hc & _). exists c. split; [|done].
    rewrite !elem_of_app, elem_of_cons. auto.
  - intros (c & Hin & Hc). apply list_elem_of_split in Hin as (s0 & s2 & ->).
    exists s0, [c], s2. split; [done|]. exists c, []. by repeat split.
Qed.

(** [/^[A-Z][A-Za-z0-9]*$/] *)
Lemma error_code_documented_accepts s :
  test error_code_documented s = true ↔
  ∃ c s', chars s = c :: s' ∧ in_class c [upper] = true ∧
          Forall (λ c, in_class c [upper; lower; digit] = true) s'.
Proof. unfold test. simpl. by rewrite match_here_to_end, matches_first_rest. Qed.

Lemma error_code_documented_stricter s :
  test error_code_documented s = true → test error_code s = true.
Proof.
  rewrite error_code_documented_accepts, error_code_accepts.
  intros (c & s' & -> & Hc & _). by constructor.
Qed.

End RegexFacts.

(* ===================================================================== *)
(** * Objects and the heap *)
(* ===================================================================== *)

Lemma assoc_replace_prop k v ps k' :
  assoc k' (replace_prop k v ps) =
  if String.eqb k' k then (match assoc k ps with Some _ => Some v | None => None end) else assoc k' ps.
Proof.
  induction ps as [|[k0 v0] ps IH]; simpl.
  - by destruct (String.eqb k' k).
  - destruct (String.eqb_spec k k0) as [E|Hk]; simpl.
    + subst k0. destruct (String.eqb_spec k' k); done.
    + rewrite IH. destruct (String.eqb_spec k' k) as [E|Hk']; [|done].
      subst k'. destruct (String.eqb_spec k k0); done.
Qed.

Lemma assoc_app k ps qs :
  assoc k (ps ++ qs) = match assoc k ps with Some v => Some v | None => assoc k qs end.
Proof. induction ps as [|[k0 v0] ps IH]; simpl; [done|]. by destruct (String.eqb k k0). Qed.

Lemma assoc_insert_index i k v ps k' :
  assoc k ps = None →
  assoc k' (insert_index i k v ps) = if String.eqb k' k then Some v else assoc k' ps.
Proof.
  induction ps as [|[k0 v0] ps IH]; simpl; intros Hk.
  - by destruct (String.eqb k' k).
  - destruct (String.eqb_spec k k0) as [E|Hne]; [done|].
    destruct (array_index k0) as [j|]; [destruct (j <? i)%N|]; simpl;
      try (destruct (String.eqb_spec k' k) as [E|]; [|done]; try done).
    rewrite IH by done.
    destruct (String.eqb_spec k' k0) as [E|]; [|done].
    subst k'. by destruct (String.eqb_spec k0 k) as [E|].
Qed.

Lemma assoc_set_named k v ps k' :
  assoc k' (set_named k v ps) = if String.eqb k' k then Some v else assoc k' ps.
Proof.
  unfold set_named. destruct (assoc k ps) as [x|] eqn:Hk.
  - rewrite assoc_replace_prop, Hk. done.
  - destruct (array_index k) as [i|].
    + by apply assoc_insert_index.
    + rewrite assoc_app. simpl. destruct (String.eqb_spec k' k) as [E|].
      * subst k'. by rewrite Hk.
      * by destruct (assoc k' ps).
Qed.

Lemma obj_get_ordinary o k : ordinary k → obj_get o k = named o k.
Proof.
  intros (Hi & Hl & Hn). unfold obj_get, named.
  destruct (okind o); try done.
  - destruct (String.eqb_spec k "length"); [done|]. by rewrite Hi.
  - destruct (String.eqb_spec k "name"); [done|].
    by destruct (String.eqb_spec k "length").
Qed.

Lemma obj_set_ordinary o k v :
  ordinary k → obj_set o k v = Object (okind o) (set_named k v (props o)).
Proof.
  intros (Hi & Hl & Hn). unfold obj_set.
  destruct (okind o); try done.
  - destruct (String.eqb_spec k "length"); [done|]. by rewrite Hi.
  - destruct (String.eqb_spec k "name"); [done|].
    by destruct (String.eqb_spec k "length").
Qed.

Lemma obj_get_set_eq o k v : ordinary k → obj_get (obj_set o k v) k = v.
Proof.
  intros Hk. rewrite obj_set_ordinary, obj_get_ordinary by done.
  unfold named; simpl. by rewrite assoc_set_named, String.eqb_refl.
Qed.

Lemma obj_get_set_ne o k v k' :
  ordinary k → ordinary k' → k' ≠ k → obj_get (obj_set o k v) k' = obj_get o k'.
Proof.
  intros Hk Hk' Hne. rewrite obj_set_ordinary, !obj_get_ordinary by done.
  unfold named; simpl. rewrite assoc_set_named.
  by destruct (String.eqb_spec k' k).
Qed.

Lemma obj_get_plain ps k : obj_get (plain ps) k = default VUndefined (assoc k ps).
Proof. done. Qed.

Lemma obj_set_plain ps k v : obj_set (plain ps) k v = plain (set_named k v ps).
Proof. done. Qed.

Ltac ordinary_key := split; [vm_compute; reflexivity | split; discriminate].

Lemma wp_bind {A B} (m : M A) (f : A → M B) h Q :
  wp m h (λ r h', match r with
                  | Normal a => wp (f a) h' Q
                  | Throw e => Q (Throw e) h'
                  end) →
  wp (m ≫= f) h Q.
Proof.
  unfold wp, mbind, M_bind, bind. by destruct (m h) as [[a|e] h'].
Qed.

Lemma wp_ret {A} (a : A) h (Q : completion A → heap → Prop) : Q (Normal a) h → wp (mret a) h Q.
Proof. done. Qed.

Lemma wp_throw {A} e h (Q : completion A → heap → Prop) : Q (Throw e) h → wp (throw e) h Q.
Proof. done. Qed.

Lemma wp_get l k h Q : Q (Normal (obj_get (deref h l) k)) h → wp (get (VRef l) k) h Q.
Proof. done. Qed.

Lemma wp_current_heap h Q : Q (Normal h) h → wp current_heap h Q.
Proof. done. Qed.

Lemma wp_assert b msg h Q :
  (b = true → Q (Normal ()) h) → (b = false → Q (Throw (AssertionError msg)) h) →
  wp (assert b msg) h Q.
Proof. destruct b; unfold wp; simpl; auto. Qed.

Lemma wp_alloc o h Q :
  (∀ l, h !! l = None → Q (Normal l) (<[l := o]> h)) → wp (alloc o) h Q.
Proof.
  intros H. unfold wp, alloc; simpl. apply H.
  apply not_elem_of_dom. apply is_fresh.
Qed.

Lemma wp_set l k v h Q :
  Q (Normal ()) (<[l := obj_set (deref h l) k v]> h) → wp (set l k v) h Q.
Proof. done. Qed.

Lemma wp_fmap_alloc o h (Q : completion value → heap → Prop) :
  (∀ l, h !! l = None → Q (Normal (VRef l)) (<[l := o]> h)) → wp (VRef <$> alloc o) h Q.
Proof.
  intros H. unfold wp, fmap, M_fmap, bind, alloc; simpl. apply H.
  apply not_elem_of_dom. apply is_fresh.
Qed.

Lemma wp_pure {A} (m : M A) h Q :
  pure_action m → Q (m h).1 h → wp m h Q.
Proof. intros Hp HQ. unfold wp. by rewrite Hp. Qed.

Lemma pure_ret {A} (a : A) : pure_action (mret a).
Proof. done. Qed.
Lemma pure_throw {A} e : pure_action (@throw A e).
Proof. done. Qed.
Lemma pure_get v k : pure_action (get v k).
Proof. done. Qed.
Lemma pure_current_heap : pure_action current_heap.
Proof. done. Qed.
Lemma pure_assert b msg : pure_action (assert b msg).
Proof. by destruct b. Qed.
Lemma pure_array_elems v : pure_action (array_elems v).
Proof. intros h. unfold array_elems. destruct v; try done. by destruct (okind _). Qed.
Lemma pure_bind {A B} (m : M A) (f : A → M B) :
  pure_action m → (∀ a, pure_action (f a)) → pure_action (m ≫= f).
Proof.
  intros Hm Hf h. unfold mbind, M_bind, bind.
  specialize (Hm h). destruct (m h) as [[a|e] h']; simpl in *; subst; [apply Hf|done].
Qed.
Lemma pure_if {A} (b : bool) (m1 m2 : M A) :
  pure_action m1 → pure_action m2 → pure_action (if b then m1 else m2).
Proof. by destruct b. Qed.

Create HintDb pure_db.
#[global] Hint Resolve pure_ret pure_throw pure_get pure_current_heap pure_assert
  pure_array_elems pure_if : pure_db.
#[global] Hint Extern 2 (pure_action (_ ≫= _)) => apply pure_bind; [|intros] : pure_db.

Lemma pure_each_index c it from n :
  (∀ v k, pure_action (it v k)) → pure_action (Lodash.each_index c it from n).
Proof.
  intros Hit. revert from. induction n as [|n IH]; intros from; simpl; auto with pure_db.
Qed.

Lemma pure_each_key c it keys :
  (∀ v k, pure_action (it v k)) → pure_action (Lodash.each_key c it keys).
Proof.
  intros Hit. induction keys as [|key keys IH]; simpl; auto with pure_db.
Qed.

Lemma pure_forEach c it :
  (∀ v k, pure_action (it v k)) → pure_action (Lodash.forEach c it).
Proof.
  intros Hit. unfold Lodash.forEach. apply pure_bind; [auto with pure_db|].
  intros h. destruct (Lodash.isArray h c); [by apply pure_each_index|].
  destruct (is_nullish c); [auto with pure_db|].
  destruct (Lodash.isArrayLike h c); [by apply pure_each_index|by apply pure_each_key].
Qed.

Lemma pure_filterM p xs : (∀ x, pure_action (p x)) → pure_action (filterM p xs).
Proof. intros Hp. induction xs; simpl; auto with pure_db. Qed.

Lemma pure_someM p xs : (∀ x, pure_action (p x)) → pure_action (someM p xs).
Proof.
  intros Hp. induction xs; simpl; [auto with pure_db|].
  apply pure_bind; [done|]. intros []; auto with pure_db.
Qed.

Section PureBuilderActions.
Context (host : Host).
Lemma pure_test re v : pure_action (test host re v).
Proof. unfold test. auto with pure_db. Qed.
Lemma pure_validate_query v k : pure_action (validate_query host v k).
Proof. unfold validate_query. apply pure_bind; [auto with pure_db|]. intros h. apply pure_if; auto with pure_db. Qed.
Lemma pure_validate_error_code v k : pure_action (validate_error_code host v k).
Proof. unfold validate_error_code. pose proof pure_test. auto 10 with pure_db. Qed.
Lemma pure_same_route_and_method o e : pure_action (same_route_and_method host o e).
Proof. unfold same_route_and_method. 
  repeat (apply pure_bind; [auto with pure_db|intros]). apply pure_if; auto 10 with pure_db. Qed.
Lemma pure_same_name o e : pure_action (same_name o e).
Proof. unfold same_name. auto 10 with pure_db. Qed.
End PureBuilderActions.

Lemma get_prop_nonnullish h v k :
  is_nullish v = false → get_prop h v k = Normal (prop_of h v k).
Proof.
  unfold prop_of. destruct v; try done; simpl.
  destruct (String.eqb k "length"); [done|]. by destruct (array_index k).
Qed.

Lemma deref_insert_eq (h : heap) l o : deref (<[l := o]> h) l = o.
Proof. unfold deref. by rewrite lookup_insert_eq. Qed.

Lemma deref_insert_ne (h : heap) l l' o : l ≠ l' → deref (<[l := o]> h) l' = deref h l'.
Proof. intros. unfold deref. by rewrite lookup_insert_ne. Qed.

Lemma deref_lookup (h : heap) l o : h !! l = Some o → deref h l = o.
Proof. intros H. unfold deref. by rewrite H. Qed.

Lemma deref_alloc (h : heap) l o l' :
  h !! l = None → o = plain [] → deref (<[l := o]> h) l' = deref h l'.
Proof.
  intros Hl ->. destruct (decide (l = l')) as [<-|Hne].
  - rewrite deref_insert_eq. unfold deref. by rewrite Hl.
  - by rewrite deref_insert_ne.
Qed.

Lemma prop_of_insert_ne (h : heap) l o v k :
  v ≠ VRef l → prop_of (<[l := o]> h) v k = prop_of h v k.
Proof.
  intros Hv. unfold prop_of. destruct v; try done. simpl.
  rewrite deref_insert_ne; [done|congruence].
Qed.

Lemma plain_update_refl l h : plain_update l h h.
Proof. split; eauto. Qed.

Lemma plain_update_trans l h1 h2 h3 :
  plain_update l h1 h2 → plain_update l h2 h3 → plain_update l h1 h3.
Proof.
  intros [H1 H1'] [H2 H2']. split.
  - intros l' Hl'. rewrite H2, H1; done.
  - intros ps Hps. destruct (H1' _ Hps) as [ps' Hps']. eauto.
Qed.

Lemma plain_update_set l h k v :
  plain_update l h (<[l := obj_set (deref h l) k v]> h).
Proof.
  split.
  - intros l' Hl'. by rewrite lookup_insert_ne.
  - intros ps Hps. rewrite lookup_insert_eq, (deref_lookup _ _ _ Hps). eauto.
Qed.

Lemma defaults_keys_update object source keys h :
  plain_update object h (Lodash.defaults_keys object source keys h).2.
Proof.
  revert h. induction keys as [|key keys IH]; intros h; simpl.
  - apply plain_update_refl.
  - unfold mbind, M_bind, bind; simpl.
    destruct (strict_eq _ _); simpl.
    + destruct (get_prop h source key) as [v|e]; simpl.
      * eapply plain_update_trans; [|apply IH]. apply plain_update_set.
      * apply plain_update_refl.
    + apply IH.
Qed.

Lemma defaults_keys_result object source keys h :
  is_nullish source = false ∨ keys = [] →
  (Lodash.defaults_keys object source keys h).1 = Normal ().
Proof.
  revert h. induction keys as [|key keys IH]; intros h Hs; simpl; [done|].
  destruct Hs as [Hs|?]; [|done].
  unfold mbind, M_bind, bind; simpl.
  destruct (strict_eq _ _); simpl.
  - rewrite (get_prop_nonnullish _ _ _ Hs); simpl. apply IH. by left.
  - apply IH. by left.
Qed.

Lemma keys_of_nullish h v : is_nullish v = true → keys_of h v = [].
Proof. by destruct v. Qed.

Lemma defaults_source_update object source h :
  plain_update object h (Lodash.defaults_source object source h).2.
Proof. apply defaults_keys_update. Qed.

Lemma defaults_source_result object source h :
  (Lodash.defaults_source object source h).1 = Normal ().
Proof.
  unfold Lodash.defaults_source, mbind, M_bind, bind; simpl.
  apply defaults_keys_result.
  destruct (is_nullish source) eqn:E; [right; by apply keys_of_nullish|by left].
Qed.

Lemma defaults_update object sources h :
  plain_update object h (Lodash.defaults object sources h).2.
Proof.
  revert h. induction sources as [|s sources IH]; intros h; simpl.
  - apply plain_update_refl.
  - unfold mbind, M_bind, bind.
    pose proof (defaults_source_update object s h) as Hu.
    pose proof (defaults_source_result object s h) as Hr.
    destruct (Lodash.defaults_source object s h) as [r h']; simpl in *; subst r.
    eapply plain_update_trans; [exact Hu|apply IH].
Qed.

Lemma defaults_result object sources h :
  (Lodash.defaults object sources h).1 = Normal object.
Proof.
  revert h. induction sources as [|s sources IH]; intros h; simpl; [done|].
  unfold mbind, M_bind, bind.
  pose proof (defaults_source_result object s h) as Hr.
  destruct (Lodash.defaults_source object s h) as [r h']; simpl in *; subst r.
  apply IH.
Qed.

Lemma is_undefined_true v : is_undefined v = true → v = VUndefined.
Proof. by destruct v. Qed.

Lemma bool_decide_elem_cons_ne (k key : string) keys :
  k ≠ key → bool_decide (k ∈ key :: keys) = bool_decide (k ∈ keys).
Proof.
  intros Hne. apply bool_decide_ext. rewrite elem_of_cons.
  split; [intros [?|?]; [contradiction|assumption]|by right].
Qed.

Lemma bool_decide_elem_cons_eq (k : string) keys : bool_decide (k ∈ k :: keys) = true.
Proof. apply bool_decide_eq_true_2, elem_of_cons. by left. Qed.

Lemma lookup_prop_set_named k v ps k' :
  lookup_prop (set_named k v ps) k' = if String.eqb k' k then v else lookup_prop ps k'.
Proof. unfold lookup_prop. rewrite assoc_set_named. by destruct (String.eqb k' k). Qed.

Lemma prop_of_after_default object source h ps key k :
  h !! object = Some (plain ps) → is_undefined (lookup_prop ps key) = true →
  prop_of (<[object := plain (set_named key (prop_of h source key) ps)]> h) source k
  = prop_of h source k.
Proof.
  intros Hps Hu.
  assert (source = VRef object ∨ source ≠ VRef object) as [->|Hne].
  { destruct source as [| | | | |l]; try (by right).
    destruct (decide (l = object)) as [->|]; [by left|right; congruence]. }
  2: by apply prop_of_insert_ne.
  unfold prop_of. cbn [get_prop]. rewrite deref_insert_eq, (deref_lookup _ _ _ Hps).
  rewrite !obj_get_plain. fold (lookup_prop ps key) (lookup_prop ps k).
  fold (lookup_prop (set_named key (lookup_prop ps key) ps) k).
  rewrite lookup_prop_set_named. by destruct (String.eqb_spec k key) as [->|].
Qed.

Lemma defaults_keys_spec object source keys :
  is_nullish source = false →
  ∀ h ps, h !! object = Some (plain ps) →
  ∃ ps', Lodash.defaults_keys object source keys h = (Normal (), <[object := plain ps']> h) ∧
    ∀ k, lookup_prop ps' k =
         if is_undefined (lookup_prop ps k) && bool_decide (k ∈ keys)
         then prop_of h source k else lookup_prop ps k.
Proof.
  intros Hs. induction keys as [|key keys IH]; intros h ps Hps; simpl.
  - exists ps. split; [by rewrite insert_id|].
    intros k. by rewrite andb_false_r.
  - unfold mbind, M_bind, bind; simpl.
    rewrite (deref_lookup _ _ _ Hps), obj_get_plain.
    fold (lookup_prop ps key). fold (is_undefined (lookup_prop ps key)).
    destruct (is_undefined (lookup_prop ps key)) eqn:Hu; simpl.
    + rewrite (get_prop_nonnullish _ _ _ Hs); simpl.
      unfold set; simpl. rewrite (deref_lookup _ _ _ Hps), obj_set_plain.
      destruct (IH (<[object := plain (set_named key (prop_of h source key) ps)]> h)
                  (set_named key (prop_of h source key) ps)) as (ps' & Hrun & Hget).
      { by rewrite lookup_insert_eq. }
      exists ps'. split.
      { rewrite Hrun. by rewrite insert_insert_eq. }
      intros k. rewrite Hget, !lookup_prop_set_named.
      rewrite prop_of_after_default by done.
      destruct (String.eqb_spec k key) as [E|Hk].
      * subst k. rewrite Hu. simpl.
        rewrite bool_decide_elem_cons_eq.
        match goal with |- context [if ?b then _ else _] => destruct b end; reflexivity.
      * by rewrite bool_decide_elem_cons_ne.
    + destruct (IH h ps Hps) as (ps' & Hrun & Hget).
      exists ps'. split; [done|].
      intros k. rewrite Hget.
      destruct (decide (k = key)) as [->|Hk].
      * rewrite Hu. done.
      * by rewrite bool_decide_elem_cons_ne.
Qed.

Lemma defaults_source_spec object source h ps :
  h !! object = Some (plain ps) →
  ∃ ps', Lodash.defaults_source object source h = (Normal (), <[object := plain ps']> h) ∧
    ∀ k, lookup_prop ps' k =
         if is_undefined (lookup_prop ps k) && bool_decide (k ∈ keys_of h source)
         then prop_of h source k else lookup_prop ps k.
Proof.
  intros Hps. unfold Lodash.defaults_source, mbind, M_bind, bind; simpl.
  destruct (is_nullish source) eqn:Hs.
  - rewrite (keys_of_nullish _ _ Hs). simpl. exists ps.
    split; [by rewrite insert_id|]. intros k. by rewrite andb_false_r.
  - by apply defaults_keys_spec.
Qed.

Lemma assoc_Some_key k v ps : assoc k ps = Some v → k ∈ (fst <$> ps).
Proof.
  induction ps as [|[k0 v0] ps IH]; simpl; [done|].
  destruct (String.eqb_spec k k0) as [->|Hne].
  - intros _. apply list_elem_of_here.
  - intros H. apply list_elem_of_further. by apply IH.
Qed.

Lemma key_assoc_Some k ps : k ∈ (fst <$> ps) → is_Some (assoc k ps).
Proof.
  induction ps as [|[k0 v0] ps IH]; simpl; [by intros ?%elem_of_nil|].
  destruct (String.eqb_spec k k0) as [->|Hne]; [by eauto|].
  intros [?|?]%elem_of_cons; [done|by apply IH].
Qed.

Lemma set_named_keys k v ps k' :
  k' ∈ (fst <$> set_named k v ps) → k' = k ∨ k' ∈ (fst <$> ps).
Proof.
  intros [x Hx]%key_assoc_Some. rewrite assoc_set_named in Hx.
  destruct (String.eqb_spec k' k); [by left|right]. by eapply assoc_Some_key.
Qed.

(** [_.defaults] adds no key that the source does not have. *)
Lemma defaults_keys_domain object source keys h ps :
  h !! object = Some (plain ps) →
  ∃ ps', (Lodash.defaults_keys object source keys h).2 !! object = Some (plain ps') ∧
         ∀ k, k ∈ (fst <$> ps') → k ∈ (fst <$> ps) ∨ k ∈ keys.
Proof.
  revert h ps. induction keys as [|key keys IH]; intros h ps Hps; simpl.
  - exists ps. split; [done|]. by left.
  - unfold mbind, M_bind, bind; simpl.
    destruct (strict_eq _ _); simpl.
    + destruct (get_prop h source key) as [v|e]; simpl.
      * rewrite (deref_lookup _ _ _ Hps), obj_set_plain.
        destruct (IH (<[object := plain (set_named key v ps)]> h) (set_named key v ps))
          as (ps' & Hps' & Hkeys); [by rewrite lookup_insert_eq|].
        exists ps'. split; [done|]. intros k Hk.
        destruct (Hkeys k Hk) as [[->|?]%set_named_keys|?].
        -- right. apply list_elem_of_here.
        -- by left.
        -- right. by apply list_elem_of_further.
      * exists ps. split; [done|]. by left.
    + destruct (IH h ps Hps) as (ps' & Hps' & Hkeys).
      exists ps'. split; [done|]. intros k Hk.
      destruct (Hkeys k Hk); [by left|right; by apply list_elem_of_further].
Qed.

Lemma defaults_source_domain object source h ps ps' :
  h !! object = Some (plain ps) →
  Lodash.defaults_source object source h = (Normal (), <[object := plain ps']> h) →
  ∀ k, k ∈ (fst <$> ps') → k ∈ (fst <$> ps) ∨ k ∈ keys_of h source.
Proof.
  intros Hps Hrun.
  destruct (defaults_keys_domain object source (keys_of h source) h ps Hps)
    as (ps'' & Hps'' & Hkeys).
  unfold Lodash.defaults_source, mbind, M_bind, bind in Hrun. cbn [current_heap] in Hrun.
  rewrite Hrun in Hps''. cbn [snd] in Hps''. rewrite lookup_insert_eq in Hps''.
  by injection Hps'' as <-.
Qed.

Lemma set_named_covers k v ps k' :
  k' = k ∨ k' ∈ (fst <$> ps) → k' ∈ (fst <$> set_named k v ps).
Proof.
  intros Hk'.
  assert (is_Some (assoc k' (set_named k v ps))) as [x Hx]; [|by eapply assoc_Some_key].
  rewrite assoc_set_named. destruct (String.eqb_spec k' k) as [|Hne]; [by eauto|].
  destruct Hk' as [?|Hin]; [done|]. by apply key_assoc_Some.
Qed.

(** [_.defaults] leaves the object with every key of the source. *)
Lemma defaults_keys_covers object source keys h ps :
  h !! object = Some (plain ps) → is_nullish source = false →
  ∃ ps', (Lodash.defaults_keys object source keys h).2 !! object = Some (plain ps') ∧
         ∀ k, k ∈ (fst <$> ps) ∨ k ∈ keys → k ∈ (fst <$> ps').
Proof.
  intros Hps Hs. revert h ps Hps.
  induction keys as [|key keys IH]; intros h ps Hps; simpl.
  - exists ps. split; [done|]. intros k [?|[]%elem_of_nil]. done.
  - unfold mbind, M_bind, bind; simpl.
    rewrite (deref_lookup _ _ _ Hps), obj_get_plain. fold (lookup_prop ps key).
    destruct (strict_eq (lookup_prop ps key) VUndefined) eqn:Hu; simpl.
    + rewrite (get_prop_nonnullish _ _ _ Hs); simpl.
      rewrite (deref_lookup _ _ _ Hps), obj_set_plain.
      destruct (IH (<[object := plain (set_named key (prop_of h source key) ps)]> h)
                  (set_named key (prop_of h source key) ps))
        as (ps' & Hps' & Hkeys); [by rewrite lookup_insert_eq|].
      exists ps'. split; [done|]. intros k Hk. apply Hkeys.
      destruct Hk as [Hk|[->|Hk]%elem_of_cons]; [|  |by right]; left;
        apply set_named_covers; eauto.
    + destruct (IH h ps Hps) as (ps' & Hps' & Hkeys).
      exists ps'. split; [done|]. intros k Hk. apply Hkeys.
      destruct Hk as [Hk|[->|Hk]%elem_of_cons]; [by left| |by right]. left.
      unfold lookup_prop in Hu. destruct (assoc key ps) as [x|] eqn:Hx; [|done].
      by eapply assoc_Some_key.
Qed.

Lemma defaults_source_covers object source h ps ps' :
  h !! object = Some (plain ps) →
  Lodash.defaults_source object source h = (Normal (), <[object := plain ps']> h) →
  ∀ k, k ∈ (fst <$> ps) ∨ k ∈ keys_of h source → k ∈ (fst <$> ps').
Proof.
  intros Hps Hrun k Hk. destruct (is_nullish source) eqn:Hs.
  - rewrite (keys_of_nullish _ _ Hs) in Hk.
    unfold Lodash.defaults_source, mbind, M_bind, bind in Hrun.
    cbn [current_heap] in Hrun. rewrite (keys_of_nullish _ _ Hs) in Hrun.
    cbn [Lodash.defaults_keys ret] in Hrun.
    assert (Hsame : h !! object = Some (plain ps')).
    { injection Hrun as Hrun. rewrite Hrun. apply lookup_insert_eq. }
    rewrite Hps in Hsame. injection Hsame as <-.
    by destruct Hk as [?|[]%elem_of_nil].
  - destruct (defaults_keys_covers object source (keys_of h source) h ps Hps Hs)
      as (ps'' & Hps'' & Hkeys).
    unfold Lodash.defaults_source, mbind, M_bind, bind in Hrun. cbn [current_heap] in Hrun.
    rewrite Hrun in Hps''. cbn [snd] in Hps''. rewrite lookup_insert_eq in Hps''.
    injection Hps'' as <-. by apply Hkeys.
Qed.

(* ===================================================================== *)
(** * [declare]: what it writes *)
(* ===================================================================== *)

Lemma written_ordinary k : k ∈ written → ordinary k.
Proof.
  unfold written. rewrite !elem_of_cons, elem_of_nil.
  intros [->|[->|[->|[->|[]]]]]; repeat split; try discriminate; vm_compute; reflexivity.
Qed.

Lemma changed_only_refl o : changed_only o o.
Proof. by split. Qed.

Lemma changed_only_set o0 o k v :
  k ∈ written → changed_only o0 o → changed_only o0 (obj_set o k v).
Proof.
  intros Hk [Hkind Hps]. rewrite obj_set_ordinary by by apply written_ordinary.
  split; [done|]. simpl. intros k' Hk'. rewrite assoc_set_named.
  destruct (String.eqb_spec k' k) as [E|]; [by subst k'|by apply Hps].
Qed.

Lemma changed_only_get o0 o k :
  changed_only o0 o → k ∉ written → obj_get o k = obj_get o0 k.
Proof. intros [Hkind Hps] Hw. unfold obj_get. by rewrite Hkind, Hps. Qed.

Section Frame.
Context (options : loc) (h0 : heap) (o0 : object) (Ho0 : h0 !! options = Some o0).

Lemma state_ok_init : state_ok options h0 o0 h0 o0.
Proof. split; [done|]. split; [done|apply changed_only_refl]. Qed.

Lemma state_ok_frame h o : state_ok options h0 o0 h o → frame options h0 h.
Proof.
  intros (Ho & Hrest & Hch). split; [done|].
  intros o0' Ho0'. rewrite Ho0 in Ho0'. injection Ho0' as <-. eauto.
Qed.

Lemma state_ok_other h o h' l :
  state_ok options h0 o0 h o → h0 !! l = None → plain_update l h h' →
  state_ok options h0 o0 h' o.
Proof.
  intros (Ho & Hrest & Hch) Hl [Hu _].
  assert (l ≠ options) by (intros ->; by rewrite Ho0 in Hl).
  split; [by rewrite Hu|]. split; [|done].
  intros l' Hl' Hin. rewrite Hu; [by apply Hrest|].
  intros ->. rewrite Hl in Hin. by destruct Hin.
Qed.

Lemma state_ok_alloc h o l x :
  state_ok options h0 o0 h o → h !! l = None →
  state_ok options h0 o0 (<[l := x]> h) o ∧ h0 !! l = None ∧ l ≠ options.
Proof.
  intros (Ho & Hrest & Hch) Hl.
  assert (l ≠ options) by (intros ->; by rewrite Ho in Hl).
  assert (h0 !! l = None).
  { destruct (h0 !! l) eqn:E; [|done]. rewrite <-Hrest, Hl in E; [done..|by rewrite E]. }
  split; [|done]. split; [by rewrite lookup_insert_ne|]. split; [|done].
  intros l' Hl' Hin. rewrite lookup_insert_ne; [by apply Hrest|].
  intros ->. by destruct Hin; simplify_eq.
Qed.

Lemma state_ok_set h o k v :
  state_ok options h0 o0 h o → k ∈ written →
  state_ok options h0 o0 (<[options := obj_set (deref h options) k v]> h) (obj_set o k v).
Proof.
  intros (Ho & Hrest & Hch) Hk. rewrite (deref_lookup _ _ _ Ho).
  split; [by rewrite lookup_insert_eq|]. split.
  - intros l' Hl' Hin. rewrite lookup_insert_ne by done. by apply Hrest.
  - by apply changed_only_set.
Qed.

End Frame.

Lemma bind_run {A B} (m : M A) (f : A → M B) h :
  (m ≫= f) h = match m h with
               | (Normal a, h') => f a h'
               | (Throw e, h') => (Throw e, h')
               end.
Proof. done. Qed.

Section Loops.
Context (host : Host).

Lemma wp_require_fields keys options h Q :
  ((∀ k, k ∈ keys → truthy (obj_get (deref h options) k) = true) → Q (Normal ()) h) →
  (∀ msg, Q (Throw (AssertionError msg)) h) →
  wp (array_forEach keys (λ key,
        v ← get (VRef options) key;
        assert (truthy v) ("Option '" +:+ key +:+ "' must be provided"))) h Q.
Proof.
  intros HN HT. induction keys as [|key keys IH]; simpl.
  - apply wp_ret, HN. intros k Hk. by apply elem_of_nil in Hk.
  - apply wp_bind, wp_bind, wp_get. cbn beta iota.
    apply wp_assert; intros Hb; [|apply HT].
    apply IH. intros Hks. apply HN. intros k [->|Hk]%elem_of_cons; auto.
Qed.

Lemma require_fields_run keys options h :
  array_forEach keys (λ key,
      v ← get (VRef options) key;
      assert (truthy v) ("Option '" +:+ key +:+ "' must be provided")) h =
  (match first_missing (deref h options) keys with
   | None => Normal ()
   | Some key => Throw (must_be_provided key)
   end, h).
Proof.
  induction keys as [|key keys IH]; [done|].
  cbn [array_forEach first_missing List.find].
  unfold mbind, M_bind, bind, get. cbn [get_prop].
  destruct (truthy (obj_get (deref h options) key)); cbn; [|done]. apply IH.
Qed.

Lemma first_missing_None o keys :
  first_missing o keys = None ↔ ∀ k, k ∈ keys → truthy (obj_get o k) = true.
Proof.
  unfold first_missing. induction keys as [|key keys IH]; simpl.
  - split; [|done]. intros _ k Hk. by apply elem_of_nil in Hk.
  - destruct (truthy (obj_get o key)) eqn:Hkey; simpl.
    + rewrite IH. split.
      * intros H k [->|Hk]%elem_of_cons; auto.
      * intros H k Hk. apply H. by apply list_elem_of_further.
    + split; [done|]. intros H. rewrite H in Hkey; [done|apply list_elem_of_here].
Qed.

Lemma first_missing_Some o keys key :
  first_missing o keys = Some key → key ∈ keys ∧ truthy (obj_get o key) = false.
Proof.
  unfold first_missing. induction keys as [|k keys IH]; simpl; [done|].
  destruct (truthy (obj_get o k)) eqn:Hk; simpl.
  - intros [Hin Hkey]%IH. split; [by apply list_elem_of_further|done].
  - intros [= <-]. split; [apply list_elem_of_here|done].
Qed.

Lemma wp_mono {A} (m : M A) h (Q Q' : completion A → heap → Prop) :
  wp m h Q → (∀ r h', Q r h' → Q' r h') → wp m h Q'.
Proof. unfold wp. auto. Qed.

Lemma wp_or_else_alloc (a : value) h Q :
  (truthy a = true → Q (Normal a) h) →
  (truthy a = false → ∀ l, h !! l = None → Q (Normal (VRef l)) (<[l := plain []]> h)) →
  wp (or_elseM a (VRef <$> alloc (plain []))) h Q.
Proof.
  intros HT HF. unfold or_elseM. destruct (truthy a).
  - by apply wp_ret, HT.
  - by apply wp_fmap_alloc, HF.
Qed.

End Loops.

Ltac key_side := first [ordinary_key | (intro; discriminate) | done].
Ltac in_list := repeat first [apply list_elem_of_here | apply list_elem_of_further].

Lemma changed_only_with_default_stability o : changed_only o (with_default_stability o).
Proof.
  unfold with_default_stability. destruct (truthy _); [apply changed_only_refl|].
  apply changed_only_set; [in_list|apply changed_only_refl].
Qed.

Lemma changed_only_prepared o p q hd : changed_only o (prepared o p q hd).
Proof.
  unfold prepared. repeat (apply changed_only_set; [in_list|]).
  apply changed_only_with_default_stability.
Qed.

Ltac not_in_list :=
  let H := fresh in
  intros H; repeat (apply elem_of_cons in H as [H|H]; [discriminate|]);
  by apply elem_of_nil in H.

(* ===================================================================== *)
(** * [declare], statement by statement *)
(* ===================================================================== *)

Section DeclareSpec.
Context (host : Host).

Lemma wp_or_else_alloc_cases (a : value) h Q :
  (∀ v h', (truthy a = true ∧ v = a ∧ h' = h) ∨
           (truthy a = false ∧ ∃ l, h !! l = None ∧ v = VRef l ∧ h' = <[l := plain []]> h) →
           Q (Normal v) h') →
  wp (or_elseM a (VRef <$> alloc (plain []))) h Q.
Proof.
  intros H. apply wp_or_else_alloc.
  - intros Ht. apply H. by left.
  - intros Hf l Hl. apply H. right. eauto.
Qed.

Lemma wp_default_stability options h0 o0 Q :
  h0 !! options = Some o0 →
  (∀ h', state_ok options h0 o0 h' (with_default_stability o0) →
         (∀ l, deref h' l = deref (<[options := with_default_stability o0]> h0) l) →
         Q (Normal ()) h') →
  wp (if negb (truthy (obj_get o0 "stability"))
      then set options "stability" stability_experimental
      else mret ()) h0 Q.
Proof.
  intros Ho0 HQ. pose proof (state_ok_init options h0 o0 Ho0) as Hok.
  unfold with_default_stability in HQ.
  destruct (truthy (obj_get o0 "stability")); simpl.
  - apply wp_ret, HQ; [done|]. intros l. by rewrite insert_id.
  - apply wp_set. rewrite (deref_lookup _ _ _ Ho0). apply HQ; [|done].
    pose proof (state_ok_set _ _ _ _ _ "stability" stability_experimental Hok) as H.
    rewrite (deref_lookup _ _ _ Ho0) in H.
    apply H. unfold written. apply elem_of_cons. by left.
Qed.

Lemma plain_update_insert m (h : heap) ps : plain_update m h (<[m := plain ps]> h).
Proof.
  split.
  - intros l Hl. by rewrite lookup_insert_ne.
  - intros ps0 _. rewrite lookup_insert_eq. eauto.
Qed.

Lemma filterM_none p xs h :
  (∀ x, pure_action (p x)) →
  (filterM p xs h).1 = Normal [] ↔ ∀ x, x ∈ xs → (p x h).1 = Normal false.
Proof.
  intros Hp. induction xs as [|x xs IH]; cbn [filterM].
  - split; [intros _ x Hx; by apply elem_of_nil in Hx|done].
  - rewrite bind_run. pose proof (Hp x h) as Hh.
    destruct (p x h) as [[keep|e] h1] eqn:Hpx; cbn [snd] in Hh; subst h1.
    + rewrite bind_run. pose proof (pure_filterM p xs Hp h) as Hh.
      destruct (filterM p xs h) as [[rest|e] h1]; cbn [snd] in Hh; subst h1; cbn [fst] in *.
      * unfold ret. cbn [fst]. split.
        -- intros Hnil. destruct keep; [done|]. injection Hnil as ->.
           intros y [->|Hy]%elem_of_cons; [by rewrite Hpx|]. by apply IH.
        -- intros H. pose proof (H x ltac:(apply list_elem_of_here)) as Hx.
           rewrite Hpx in Hx. injection Hx as ->. apply (proj2 IH).
           intros y Hy. apply H. by apply list_elem_of_further.
      * split; [done|]. intros H. apply (proj2 IH). intros y Hy. apply H.
        by apply list_elem_of_further.
    + cbn [fst]. split; [done|]. intros H.
      pose proof (H x ltac:(apply list_elem_of_here)) as Hx. by rewrite Hpx in Hx.
Qed.

Lemma someM_none p xs h :
  (∀ x, pure_action (p x)) →
  (someM p xs h).1 = Normal false ↔ ∀ x, x ∈ xs → (p x h).1 = Normal false.
Proof.
  intros Hp. induction xs as [|x xs IH]; cbn [someM].
  - split; [intros _ x Hx; by apply elem_of_nil in Hx|done].
  - rewrite bind_run. pose proof (Hp x h) as Hh.
    destruct (p x h) as [[found|e] h1] eqn:Hpx; cbn [snd] in Hh; subst h1.
    + destruct found.
      * split; [done|]. intros H.
        pose proof (H x ltac:(apply list_elem_of_here)) as Hx. by rewrite Hpx in Hx.
      * rewrite IH. split.
        -- intros H y [->|Hy]%elem_of_cons; [by rewrite Hpx|]. by apply H.
        -- intros H y Hy. apply H. by apply list_elem_of_further.
    + cbn [fst]. split; [done|]. intros H.
      pose proof (H x ltac:(apply list_elem_of_here)) as Hx. by rewrite Hpx in Hx.
Qed.

(** [declare], statement by statement, with every way out *)
Lemma declare_outcome_spec this options handler h0 o0 :
  h0 !! options = Some o0 →
  wp (declare host this options handler) h0
     (declare_outcome host this options handler h0 o0).
Proof.
  intros Ho0. unfold declare.
  pose proof (state_ok_init options h0 o0 Ho0) as Hok.
  apply wp_bind. unfold wp at 1. rewrite require_fields_run. cbn [fst snd].
  rewrite (deref_lookup _ _ _ Ho0).
  destruct (first_missing o0 _) as [key|] eqn:Hreq;
    [split; [by eapply state_ok_frame|by constructor]|].
  (* stability *)
  apply wp_bind, wp_get. cbn beta iota.
  rewrite (deref_lookup _ _ _ Ho0).
  apply wp_bind, (wp_default_stability options h0 o0); [done|].
  clear Hok. intros ha Hok Hread.
  apply wp_bind, wp_get. cbn beta iota.
  rewrite (deref_lookup _ _ _ (proj1 Hok)).
  apply wp_bind, wp_assert; intros Hstab;
    [|split; [by eapply state_ok_frame|]; apply stability_invalid;
      by apply negb_false_iff, Z.eqb_eq in Hstab].
  apply negb_true_iff, Z.eqb_neq in Hstab.
  (* params *)
  apply wp_bind, wp_alloc. intros m Hm.
  destruct (state_ok_alloc _ _ _ _ _ _ (plain []) Hok Hm) as (Hok1 & Hm0 & Hmo).
  clear Hok.
  assert (Hmp : <[m := plain []]> ha !! m = Some (plain [])) by by rewrite lookup_insert_eq.
  assert (Hread1 : ∀ l, deref (<[m := plain []]> ha) l
                        = deref (<[options := with_default_stability o0]> h0) l).
  { intros l. by rewrite (deref_alloc ha m _ l Hm eq_refl). }
  revert Hok1 Hmp Hread1. generalize (<[m := plain []]> ha). clear ha Hm Hread.
  intros hb Hok Hmp Hread.
  apply wp_bind, wp_get. cbn beta iota.
  rewrite (deref_lookup _ _ _ (proj1 Hok)).
  assert (Hp : obj_get (with_default_stability o0) "params" = obj_get o0 "params").
  { unfold with_default_stability. destruct (truthy (obj_get o0 "stability")); [done|].
    by rewrite obj_get_set_ne by key_side. }
  rewrite Hp. clear Hp.
  apply wp_bind, wp_or_else_alloc_cases. intros own hc Hown.
  assert (state_ok options h0 o0 hc (with_default_stability o0) ∧
          hc !! m = Some (plain []) ∧
          (∀ l, deref hc l = deref (<[options := with_default_stability o0]> h0) l) ∧
          (truthy (obj_get o0 "params") = true ∧ own = obj_get o0 "params" ∨
           truthy (obj_get o0 "params") = false ∧
             ∃ l, own = VRef l ∧ h0 !! l = None ∧ hc !! l = Some (plain [])))
    as (Hok1 & Hmp1 & Hread1 & Hown1).
  { destruct Hown as [(Ht & -> & ->)|(Hf & l & Hl & -> & ->)];
      [repeat (split; [done|]); by left|].
    destruct (state_ok_alloc _ _ _ _ _ _ (plain []) Hok Hl) as (? & ? & _).
    split; [done|]. split; [|split].
    - rewrite lookup_insert_ne; [done|]. intros ->. by rewrite Hmp in Hl.
    - intros l'. by rewrite (deref_alloc hb l _ l' Hl eq_refl).
    - right. split; [done|]. exists l. by rewrite lookup_insert_eq. }
  clear Hown Hok Hmp Hread hb.
  apply wp_bind, wp_get. cbn beta iota.
  apply wp_bind. cbn [Lodash.defaults]. apply wp_bind.
  destruct (defaults_source_spec m own hc [] Hmp1) as (ps1 & Hrun1 & Hps1).
  unfold wp at 1. rewrite Hrun1. cbn [fst snd]. apply wp_bind.
  destruct (defaults_source_spec m (obj_get (deref hc this) "params")
              (<[m := plain ps1]> hc) ps1 ltac:(apply lookup_insert_eq))
    as (psm & Hrun2 & Hpsm).
  unfold wp at 1. rewrite Hrun2. cbn [fst snd]. rewrite insert_insert_eq. apply wp_ret.
  assert (Hmerged : params_merged this options h0 o0 m psm).
  { exists own, hc. destruct Hok1 as (? & ? & _). repeat (split; [done|]).
    exists ps1. split; [|done]. intros k. by rewrite Hps1. }
  pose proof (state_ok_other _ _ _ Ho0 _ _ _ _ Hok1 Hm0 (plain_update_insert m hc psm)) as Hok.
  assert (Hmp : <[m := plain psm]> hc !! m = Some (plain psm)) by apply lookup_insert_eq.
  revert Hok Hmp. generalize (<[m := plain psm]> hc).
  clear Hrun1 Hrun2 Hps1 Hpsm Hok1 Hmp1 Hread1 Hown1 hc ps1 own. intros hd Hok Hmp.
  apply wp_bind, wp_set.
  pose proof (state_ok_set _ _ _ _ _ "params" (VRef m) Hok ltac:(in_list)) as Hok1.
  rewrite (deref_lookup _ _ _ (proj1 Hok)) in Hok1 |- *.
  assert (Hmp1 : <[options := obj_set (with_default_stability o0) "params" (VRef m)]> hd !! m
                 = Some (plain psm)) by by rewrite lookup_insert_ne.
  revert Hok1 Hmp1.
  generalize (<[options := obj_set (with_default_stability o0) "params" (VRef m)]> hd).
  clear Hok Hmp hd. intros he Hok Hmp.
  (* query *)
  apply wp_bind, wp_get. cbn beta iota.
  rewrite (deref_lookup _ _ _ (proj1 Hok)).
  assert (Hq : obj_get (obj_set (with_default_stability o0) "params" (VRef m)) "query"
               = obj_get o0 "query").
  { rewrite obj_get_set_ne by key_side.
    unfold with_default_stability. destruct (truthy (obj_get o0 "stability")); [done|].
    by rewrite obj_get_set_ne by key_side. }
  rewrite Hq. clear Hq.
  apply wp_bind, wp_or_else_alloc_cases. intros q hf Hq.
  assert (state_ok options h0 o0 hf (obj_set (with_default_stability o0) "params" (VRef m)) ∧
          hf !! m = Some (plain psm) ∧
          (truthy (obj_get o0 "query") = true ∧ q = obj_get o0 "query" ∨
           truthy (obj_get o0 "query") = false ∧
             ∃ ql, q = VRef ql ∧ h0 !! ql = None ∧ ql ≠ m ∧ ql ≠ options ∧
                   hf !! ql = Some (plain [])))
    as (Hok1 & Hmp1 & Hq1).
  { destruct Hq as [(Ht & -> & ->)|(Hf & l & Hl & -> & ->)]; [by eauto|].
    destruct (state_ok_alloc _ _ _ _ _ _ (plain []) Hok Hl) as (? & ? & ?).
    split; [done|]. split.
    - rewrite lookup_insert_ne; [done|]. intros ->. by rewrite Hmp in Hl.
    - right. split; [done|]. exists l. rewrite lookup_insert_eq.
      repeat split; try done. intros ->. by rewrite Hmp in Hl. }
  clear Hq Hok Hmp he.
  apply wp_bind, wp_set.
  pose proof (state_ok_set _ _ _ _ _ "query" q Hok1 ltac:(in_list)) as Hok.
  rewrite (deref_lookup _ _ _ (proj1 Hok1)) in Hok |- *.
  fold (queried o0 (VRef m) q) in *.
  assert (Hfacts : <[options := queried o0 (VRef m) q]> hf !! m = Some (plain psm) ∧
          (truthy (obj_get o0 "query") = true ∧ q = obj_get o0 "query" ∨
           truthy (obj_get o0 "query") = false ∧
             ∃ ql, q = VRef ql ∧ h0 !! ql = None ∧ ql ≠ m ∧ ql ≠ options ∧
                   <[options := queried o0 (VRef m) q]> hf !! ql = Some (plain []))).
  { split; [by rewrite lookup_insert_ne|].
    destruct Hq1 as [?|(? & ql & ? & ? & ? & ? & ?)]; [by left|right].
    split; [done|]. exists ql. by rewrite lookup_insert_ne. }
  revert Hok Hfacts. generalize (<[options := queried o0 (VRef m) q]> hf).
  clear Hok1 Hmp1 Hq1 hf. intros hg Hok [Hmp Hq].
  pose proof (state_ok_frame _ _ _ Ho0 _ _ Hok) as Hframe.
  assert (Hstaged : declare_staged this options h0 o0 m q psm hg (queried o0 (VRef m) q)).
  { destruct Hok as (? & ? & _). repeat (split; [done|]).
    destruct Hq as [?|(? & ql & ? & ? & ? & ? & ?)]; [by left|right].
    split; [done|]. by exists ql. }
  assert (Hsame : ∀ k, k ∉ written → obj_get (queried o0 (VRef m) q) k = obj_get o0 k).
  { intros k Hk. by apply changed_only_get; [apply Hok|]. }
  apply wp_bind, wp_get. cbn beta iota.
  rewrite (deref_lookup _ _ _ (proj1 Hok)).
  unfold queried at 1. rewrite obj_get_set_eq by ordinary_key.
  apply wp_bind, wp_pure; [apply pure_forEach, pure_validate_query|].
  destruct (Lodash.forEach _ _ hg).1 as [[]|e] eqn:Hvalid;
    [|split; [done|by eapply query_invalid]].
  apply wp_bind, wp_get. cbn beta iota.
  rewrite (deref_lookup _ _ _ (proj1 Hok)), Hsame by not_in_list.
  apply wp_bind, wp_assert; intros Hdefer;
    [apply negb_true_iff in Hdefer
    |split; [done|]; apply deferAuth_given; by apply negb_false_iff in Hdefer].
  apply wp_bind, wp_get. cbn beta iota.
  rewrite (deref_lookup _ _ _ (proj1 Hok)), Hsame by not_in_list.
  apply wp_bind, wp_current_heap.
  apply wp_bind.
  destruct (truthy (obj_get o0 "scopes") &&
            negb (ScopeExpressionTemplate_validate host hg (obj_get o0 "scopes")))
    eqn:Hscopes.
  { apply andb_true_iff in Hscopes as [Ht Hv%negb_true_iff].
    apply wp_throw. split; [done|]. by apply scopes_invalid. }
  apply wp_ret.
  assert (Hscopes' : truthy (obj_get o0 "scopes") = false ∨
            ScopeExpressionTemplate_validate host hg (obj_get o0 "scopes") = true).
  { apply andb_false_iff in Hscopes as [?|?%negb_false_iff]; eauto. }
  clear Hscopes.
  apply wp_bind, wp_set.
  pose proof (state_ok_set _ _ _ _ _ "handler" handler Hok ltac:(in_list)) as Hok1.
  rewrite (deref_lookup _ _ _ (proj1 Hok)) in Hok1 |- *.
  change (obj_set (queried o0 (VRef m) q) "handler" handler)
    with (prepared o0 (VRef m) q handler) in *.
  assert (Hfacts : <[options := prepared o0 (VRef m) q handler]> hg !! m = Some (plain psm) ∧
          (truthy (obj_get o0 "query") = true ∧ q = obj_get o0 "query" ∨
           truthy (obj_get o0 "query") = false ∧
             ∃ ql, q = VRef ql ∧ h0 !! ql = None ∧ ql ≠ m ∧
                   <[options := prepared o0 (VRef m) q handler]> hg !! ql = Some (plain []))).
  { split; [by rewrite lookup_insert_ne|].
    destruct Hq as [?|(? & ql & ? & ? & ? & ? & ?)]; [by left|right].
    split; [done|]. exists ql. by rewrite lookup_insert_ne. }
  revert Hok1 Hfacts. generalize (<[options := prepared o0 (VRef m) q handler]> hg).
  clear Hmp Hq Hsame. intros h1 Hok1 [Hmp Hq].
  assert (Hstaged1 : declare_staged this options h0 o0 m q psm h1
                       (prepared o0 (VRef m) q handler)).
  { destruct Hok1 as (? & ? & _). by repeat (split; [done|]). }
  pose proof (state_ok_frame _ _ _ Ho0 _ _ Hok1) as Hframe1.
  (* the registry *)
  apply wp_bind, wp_get. cbn beta iota.
  apply wp_bind, wp_pure; [apply pure_array_elems|].
  destruct (array_elems _ h1).1 as [es|e] eqn:Hes;
    [|split; [done|by eapply entries_unusable]].
  apply wp_bind, wp_pure; [apply pure_filterM, pure_same_route_and_method|].
  destruct (filterM _ es h1).1 as [identical|e] eqn:Hfilter;
    [|split; [done|by eapply route_check_throws]].
  apply wp_bind.
  destruct identical as [|x identical]; simpl;
    [apply wp_ret|apply wp_throw; split; [done|by eapply route_and_method_taken]].
  apply wp_bind, wp_get. cbn beta iota.
  apply wp_bind, wp_pure; [apply pure_array_elems|].
  rewrite Hes.
  apply wp_bind, wp_pure; [apply pure_someM, pure_same_name|].
  destruct (someM _ es h1).1 as [[]|e] eqn:Hsome;
    [apply wp_bind, wp_throw; split; [done|by eapply name_taken]
    | |split; [done|by eapply name_check_throws]].
  apply wp_bind, wp_ret.
  apply wp_bind, wp_get. cbn beta iota.
  unfold wp, push.
  unfold array_elems in Hes.
  destruct (obj_get (deref h1 this) "entries") as [| | | | |a] eqn:Hentries; try discriminate.
  destruct (okind (deref h1 a)) as [|es'| |] eqn:Hkind; try discriminate.
  injection Hes as <-. simpl.
  exists h1, m, q, psm, a, es', hg.
  pose proof (proj1 (filterM_none _ _ _ (pure_same_route_and_method host options)) Hfilter).
  pose proof (proj1 (someM_none _ _ _ (pure_same_name options)) Hsome).
  by repeat (split; [done|]).
Qed.

(** [declare], statement by statement *)
Lemma declare_spec this options handler h0 o0 :
  h0 !! options = Some o0 →
  wp (declare host this options handler) h0 (declare_post host this options handler h0 o0).
Proof.
  intros Ho0. eapply wp_mono; [by apply declare_outcome_spec|].
  intros [[]|e] h' H; [|by destruct H].
  destruct H as (h1 & m & q & psm & a & es & hg & Hreq & Hstab & Hframe & _ & Hvalid & _ & _ &
                 (Ho1 & Hrest & Hm0 & Hm1 & _ & Hq) & Ha & Hk & Hroute & Hname & ->).
  exists h1, m, q, a, es, hg. repeat (split; [by eauto|]).
  split; [by apply first_missing_None|]. by repeat (split; [done|]).
Qed.

End DeclareSpec.

Lemma entries_of_Some h this es :
  entries_of h this = Some es ↔
  ∃ o a oa, h !! this = Some o ∧ obj_get o "entries" = VRef a ∧
            h !! a = Some oa ∧ okind oa = KArray es.
Proof.
  unfold entries_of. split.
  - destruct (h !! this) as [o|]; [|done].
    destruct (obj_get o "entries") as [| | | | |a] eqn:Ha; try done.
    destruct (h !! a) as [oa|] eqn:Hoa; [|done].
    destruct (okind oa) eqn:Hk; try done. intros [= ->]. eauto 10.
  - intros (o & a & oa & -> & -> & -> & ->). done.
Qed.

Lemma not_written_entries : "entries" ∉ written.
Proof. unfold written. rewrite !elem_of_cons, elem_of_nil. intros [?|[?|[?|[?|[]]]]]; discriminate. Qed.

Lemma entries_of_frame options h0 h this es :
  frame options h0 h → entries_of h0 this = Some es → entries_of h this = Some es.
Proof.
  intros [Hrest Hopt]. rewrite !entries_of_Some.
  intros (o & a & oa & Ho & Ha & Hoa & Hk).
  assert (∃ o', h !! this = Some o' ∧ obj_get o' "entries" = VRef a) as (o' & Ho' & Ha').
  { destruct (decide (this = options)) as [->|Hne].
    - destruct (Hopt _ Ho) as (o' & Ho' & Hch). exists o'. split; [done|].
      rewrite <-Ha. apply changed_only_get; [done|apply not_written_entries].
    - exists o. split; [|done]. rewrite (Hrest _ Hne) by eauto. done. }
  assert (∃ oa', h !! a = Some oa' ∧ okind oa' = KArray es) as (oa' & Hoa' & Hk').
  { destruct (decide (a = options)) as [->|Hne].
    - destruct (Hopt _ Hoa) as (oa' & Hoa' & [Hkind _]). exists oa'. split; [done|congruence].
    - exists oa. split; [|done]. rewrite (Hrest _ Hne) by eauto. done. }
  eauto 10.
Qed.

Lemma entries_of_push h this a es oa v :
  entries_of h this = Some es → 
  obj_get (deref h this) "entries" = VRef a → h !! a = Some oa →
  entries_of (<[a := Object (KArray (es ++ [v])) (props oa)]> h) this = Some (es ++ [v]).
Proof.
  rewrite !entries_of_Some. intros (o & a' & oa' & Ho & Ha & Hoa & Hk) Ha' Hoa'.
  rewrite (deref_lookup _ _ _ Ho), Ha in Ha'. injection Ha' as ->.
  rewrite Hoa in Hoa'. injection Hoa' as ->.
  destruct (decide (this = a)) as [->|Hne].
  - exists (Object (KArray (es ++ [v])) (props oa)), a, (Object (KArray (es ++ [v])) (props oa)).
    rewrite lookup_insert_eq. repeat split; try done.
    rewrite Ho in Hoa. injection Hoa as ->.
    rewrite obj_get_ordinary in Ha |- * by ordinary_key. done.
  - exists o, a, (Object (KArray (es ++ [v])) (props oa)).
    rewrite lookup_insert_eq, lookup_insert_ne by done. done.
Qed.

Lemma plain_kind o : okind o = KPlain → o = plain (props o).
Proof. destruct o as [kind ps]. simpl. by intros ->. Qed.

(** [o[k] = v] is read back as [v] when [o] is an object literal, and for
    the ordinary keys of every object *)
Lemma obj_get_set_same o k v :
  ordinary k ∨ okind o = KPlain → obj_get (obj_set o k v) k = v.
Proof.
  intros [Hk|Ho]; [by apply obj_get_set_eq|].
  rewrite (plain_kind o Ho), obj_set_plain, obj_get_plain, assoc_set_named.
  by rewrite String.eqb_refl.
Qed.

Lemma obj_get_set_other o k v k' :
  ordinary k ∨ okind o = KPlain → ordinary k' → k' ≠ k →
  obj_get (obj_set o k v) k' = obj_get o k'.
Proof.
  intros [Hk|Ho] Hk' Hne; [by apply obj_get_set_ne|].
  rewrite (plain_kind o Ho), obj_set_plain, !obj_get_plain, assoc_set_named.
  by destruct (String.eqb_spec k' k).
Qed.

(** A write to a property of an object, other than the [entries] of the
    builder and the elements and the [length] of an array, leaves the
    entries of the builder as they are. *)
Lemma entries_of_set h this l k v es :
  entries_of h this = Some es →
  ordinary k ∨ okind (deref h l) = KPlain → (l = this → k ≠ "entries") →
  entries_of (<[l := obj_set (deref h l) k v]> h) this = Some es.
Proof.
  rewrite !entries_of_Some. intros (o & a & oa & Ho & Ha & Hoa & Hk) Hord Hne.
  assert (∃ o', <[l := obj_set (deref h l) k v]> h !! this = Some o' ∧
                obj_get o' "entries" = VRef a) as (o' & Ho' & Ha').
  { destruct (decide (l = this)) as [->|Hl].
    - rewrite lookup_insert_eq. rewrite (deref_lookup _ _ _ Ho) in Hord |- *.
      eexists. split; [done|].
      rewrite obj_get_set_other; [done|done|ordinary_key|]. intros E. by apply Hne.
    - rewrite lookup_insert_ne by done. eauto. }
  assert (∃ oa', <[l := obj_set (deref h l) k v]> h !! a = Some oa' ∧
                 okind oa' = KArray es) as (oa' & Hoa' & Hk').
  { destruct (decide (l = a)) as [->|Hl].
    - rewrite lookup_insert_eq. rewrite (deref_lookup _ _ _ Hoa) in Hord |- *.
      destruct Hord as [Hord|Hplain]; [|congruence].
      rewrite obj_set_ordinary by done. eauto.
    - rewrite lookup_insert_ne by done. eauto. }
  eauto 10.
Qed.

(** ** Reading the sources of [_.defaults] *)

Lemma keys_of_falsy h v : truthy v = false → keys_of h v = [].
Proof.
  destruct v as [| |b|n|s|l]; try done. cbn [truthy keys_of].
  intros Hs%negb_false_iff%String.eqb_eq. by subst s.
Qed.

Lemma keys_of_insert_ne (h : heap) l o v :
  v ≠ VRef l → keys_of (<[l := o]> h) v = keys_of h v.
Proof.
  intros Hv. destruct v; try done. cbn [keys_of].
  rewrite deref_insert_ne; [done|congruence].
Qed.

Lemma enumerated_same h h' v k :
  (∀ l, deref h l = deref h' l) → enumerated h v k = enumerated h' v k.
Proof.
  intros Hread. unfold enumerated, prop_of.
  destruct v as [| | | | |l]; try done. cbn [keys_of get_prop]. by rewrite Hread.
Qed.

Lemma with_default_stability_params o :
  obj_get (with_default_stability o) "params" = obj_get o "params".
Proof.
  unfold with_default_stability. destruct (truthy (obj_get o "stability")); [done|].
  by rewrite obj_get_set_ne by key_side.
Qed.

(** the [params] of the builder are the same once the stability of
    [options] is defaulted, also when the builder is [options] itself *)
Lemma shared_params_read (h : heap) this options o0 :
  h !! options = Some o0 →
  obj_get (deref (<[options := with_default_stability o0]> h) this) "params"
  = obj_get (deref h this) "params".
Proof.
  intros Ho0. destruct (decide (options = this)) as [->|Hne].
  - by rewrite deref_insert_eq, (deref_lookup _ _ _ Ho0), with_default_stability_params.
  - by rewrite deref_insert_ne.
Qed.

(** Line 154, read in the heap in which [declare] was called. *)
Lemma params_merged_value this options (h : heap) o0 m psm :
  h !! options = Some o0 → h !! m = None →
  params_merged this options h o0 m psm →
  ∀ k, lookup_prop psm k =
       merged_value (<[options := with_default_stability o0]> h)
         (obj_get o0 "params") (obj_get (deref h this) "params") k.
Proof.
  intros Ho0 Hm (own & hd & Hod & Hrest & Hread & Hown & (ps1 & Hps1 & Hpsm)) k.
  set (h1 := <[options := with_default_stability o0]> h) in *.
  assert (Hmo : m ≠ options) by (intros ->; congruence).
  assert (Hgiven : ∀ key, lookup_prop ps1 key = enumerated h1 (obj_get o0 "params") key).
  { intros key. rewrite Hps1. fold (enumerated hd own key).
    destruct Hown as [[_ ->]|(Hf & l & -> & _ & Hl)]; [by apply enumerated_same|].
    unfold enumerated. rewrite (keys_of_falsy _ _ Hf). cbn [keys_of].
    by rewrite (deref_lookup _ _ _ Hl). }
  assert (Hshared : obj_get (deref hd this) "params" = obj_get (deref h this) "params").
  { rewrite Hread. by apply shared_params_read. }
  rewrite Hpsm, Hshared, Hgiven. unfold merged_value.
  set (shared := obj_get (deref h this) "params").
  set (given := enumerated h1 (obj_get o0 "params") k).
  assert (shared = VRef m ∨ shared ≠ VRef m) as [Hsm|Hsm].
  { destruct shared as [| | | | |l]; try (by right).
    destruct (decide (l = m)) as [->|]; [by left|right; congruence]. }
  - assert (Hnone : enumerated h1 (VRef m) k = VUndefined).
    { unfold enumerated, h1. cbn [keys_of]. rewrite deref_insert_ne by done.
      unfold deref. rewrite Hm. cbn [default obj_keys okind plain props fmap list_fmap].
      by rewrite bool_decide_eq_false_2 by apply not_elem_of_nil. }
    rewrite Hsm, Hnone. unfold prop_of. cbn [get_prop].
    rewrite deref_insert_eq, obj_get_plain. fold (lookup_prop ps1 k).
    rewrite Hgiven. fold given.
    destruct (is_undefined given) eqn:Hu; [|by rewrite andb_false_l].
    rewrite (is_undefined_true _ Hu). by destruct (_ && _).
  - rewrite keys_of_insert_ne, prop_of_insert_ne by done.
    assert (Hkeys : keys_of hd shared = keys_of h1 shared).
    { destruct shared as [| | | | |l]; try done. cbn [keys_of]. by rewrite Hread. }
    assert (Hprop : prop_of hd shared k = prop_of h1 shared k).
    { unfold prop_of. destruct shared as [| | | | |l]; try done. cbn [get_prop].
      by rewrite Hread. }
    rewrite Hkeys, Hprop. unfold enumerated.
    destruct (is_undefined given) eqn:Hu; cbn [andb]; [|done].
    destruct (bool_decide _); [done|]. by apply is_undefined_true.
Qed.

(* ===================================================================== *)
(** * The registry *)
(* ===================================================================== *)

Section Registry.
Context (host : Host).

Lemma declare_dangling this options handler h :
  h !! options = None →
  ∃ e, declare host this options handler h = (Throw e, h).
Proof.
  intros Hd. unfold declare. simpl.
  unfold mbind, M_bind, bind, get. simpl.
  unfold deref. rewrite Hd. simpl. eauto.
Qed.

Lemma strict_eq_refl v : truthy v = true → strict_eq v v = true.
Proof.
  destruct v as [| |b|n|s|l]; simpl; try done.
  - by destruct b.
  - destruct n; simpl; try done. intros _. apply Qeq_bool_refl.
    intros _. by destruct negative.
  - intros _. apply String.eqb_refl.
  - intros _. apply Pos.eqb_refl.
Qed.

Lemma same_type_refl v : same_type v v = true.
Proof. by destruct v. Qed.

Lemma loose_eq_refl h v : truthy v = true → loose_eq host h v v = true.
Proof. intros Hv. unfold loose_eq. rewrite same_type_refl. by apply strict_eq_refl. Qed.

Lemma strict_eq_eq_string s v : strict_eq (VStr s) v = true → v = VStr s.
Proof. destruct v; simpl; try done. by intros ->%String.eqb_eq. Qed.

Lemma obj_get_pushed (h : heap) a k l key :
  ordinary key →
  obj_get (deref (<[a := Object k (props (deref h a))]> h) l) key = obj_get (deref h l) key.
Proof.
  intros Hkey. destruct (decide (a = l)) as [->|Hne].
  - rewrite deref_insert_eq. by rewrite !obj_get_ordinary.
  - by rewrite deref_insert_ne.
Qed.

Lemma obj_get_prepared_other o p q hd key :
  key ∉ written → obj_get (prepared o p q hd) key = obj_get o key.
Proof. intros. apply changed_only_get; [apply changed_only_prepared|done]. Qed.

(** What a call of [declare] on a builder does, in one statement. *)
Lemma declare_inv this options handler h es :
  entries_of h this = Some es →
  match declare host this options handler h with
  | (Throw _, h') => frame options h h'
  | (Normal _, h') =>
      ∃ o0 h1 m q a oa,
        h !! options = Some o0 ∧
        h !! m = None ∧ (∃ ps, h1 !! m = Some (plain ps)) ∧
        (truthy (obj_get o0 "query") = true ∧ q = obj_get o0 "query" ∨
         truthy (obj_get o0 "query") = false ∧
           ∃ ql, q = VRef ql ∧ h !! ql = None ∧ ql ≠ m ∧ h1 !! ql = Some (plain [])) ∧
        h1 !! options = Some (prepared o0 (VRef m) q handler) ∧
        frame options h h1 ∧
        (∀ k, k ∈ required → truthy (obj_get o0 k) = true) ∧
        indexOf STABILITY_LEVELS (obj_get (with_default_stability o0) "stability") ≠ (-1)%Z ∧
        obj_get (deref h1 this) "entries" = VRef a ∧
        h1 !! a = Some oa ∧ okind oa = KArray es ∧
        (∀ entry, entry ∈ es → (same_route_and_method host options entry h1).1 = Normal false) ∧
        (∀ entry, entry ∈ es → (same_name options entry h1).1 = Normal false) ∧
        h' = <[a := Object (KArray (es ++ [VRef options])) (props oa)]> h1
  end.
Proof.
  intros Hes. destruct (h !! options) as [o0|] eqn:Ho0.
  - pose proof (declare_spec host this options handler h o0 Ho0) as H.
    unfold wp, declare_post in H.
    destruct (declare host this options handler h) as [[[]|e] h']; simpl in H; [|done].
    destruct H as (h1 & m & q & a & es1 & hg & _ & Hm & Hm1 & Hq & Ho1 & Hrest & Hreq & Hst & Ha & Hk
                   & Hroute & Hname & ->).
    assert (Hf : frame options h h1).
    { split; [done|]. intros o Ho. rewrite Ho0 in Ho. injection Ho as <-.
      eexists. split; [done|]. apply changed_only_prepared. }
    pose proof (entries_of_frame _ _ _ _ _ Hf Hes) as Hes1.
    apply entries_of_Some in Hes1 as (o & a' & oa & Ho & Ha' & Hoa & Hk').
    rewrite (deref_lookup _ _ _ Ho), Ha' in Ha. injection Ha as ->.
    rewrite (deref_lookup _ _ _ Hoa) in Hk |- *. rewrite Hk' in Hk. injection Hk as <-.
    exists o0, h1, m, q, a, oa. rewrite (deref_lookup _ _ _ Ho). repeat (split; [by eauto|]). done.
  - destruct (declare_dangling this options handler h Ho0) as [e ->].
    split; [done|]. intros o Ho. by rewrite Ho0 in Ho.
Qed.

(** The entries of a builder after a call of [declare]. *)
Lemma declare_entries this options handler h es :
  entries_of h this = Some es →
  match declare host this options handler h with
  | (Normal _, h') => entries_of h' this = Some (es ++ [VRef options])
  | (Throw _, h') => entries_of h' this = Some es
  end.
Proof.
  intros Hes. pose proof (declare_inv this options handler h es Hes) as H.
  destruct (declare host this options handler h) as [[[]|e] h'].
  - destruct H as (o0 & h1 & m & q & a & oa & _ & _ & _ & _ & _ & Hf & _ & _ & Ha & Hoa & _ & _
                   & _ & ->).
    apply entries_of_push; [by eapply entries_of_frame|done..].
  - by eapply entries_of_frame.
Qed.

(** Claim C1.  On a builder whose entries are [es], a call of [declare] that
    throws, for whatever reason, leaves the entries [es]; a call that returns
    leaves [es] followed by the reference to [options], and nothing else: the
    sequence is changed only by the final [push].  (The sequence is that of
    the references the array holds.) *)
Theorem declare_atomic this options handler h es :
  entries_of h this = Some es →
  match declare host this options handler h with
  | (Normal _, h') => entries_of h' this = Some (es ++ [VRef options])
  | (Throw _, h') => entries_of h' this = Some es
  end.
Proof. apply declare_entries. Qed.

(** Claim C3.  If an entry [e] of the builder has the route and the method
    that [options] has, [declare] throws and the entries are what they were;
    in particular their number is unchanged. *)
Theorem declare_rejects_same_route_and_method this options handler h es e oe :
  entries_of h this = Some es →
  VRef e ∈ es → h !! e = Some oe →
  obj_get oe "route" = obj_get (deref h options) "route" →
  obj_get oe "method" = obj_get (deref h options) "method" →
  ∃ err h', declare host this options handler h = (Throw err, h') ∧
            entries_of h' this = Some es ∧
            (∀ es', entries_of h' this = Some es' → length es' = length es).
Proof.
  intros Hes He Hoe Hroute Hmethod.
  pose proof (declare_entries this options handler h es Hes) as Hat.
  pose proof (declare_inv this options handler h es Hes) as Hinv.
  destruct (declare host this options handler h) as [[[]|err] h'].
  - exfalso.
    destruct Hinv as (o0 & h1 & m & q & a & oa & Ho0 & _ & _ & _ & Ho1 & Hf & Hreq & _ & _ & _ & _
                      & Hident & _ & _).
    specialize (Hident _ He). revert Hident.
    rewrite (deref_lookup _ _ _ Ho0) in Hroute, Hmethod.
    assert (Hget : ∀ key, key ∉ written →
              obj_get (deref h1 e) key = obj_get oe key).
    { intros key Hw. destruct (decide (e = options)) as [->|Hne].
      - rewrite (deref_lookup _ _ _ Ho1). rewrite Ho0 in Hoe. injection Hoe as <-.
        by apply obj_get_prepared_other.
      - destruct Hf as [Hrest _]. unfold deref. rewrite (Hrest _ Hne) by eauto. by rewrite Hoe. }
    unfold same_route_and_method, mbind, M_bind, bind, get, current_heap; simpl.
    rewrite (deref_lookup _ _ _ Ho1).
    rewrite (Hget "route"), obj_get_prepared_other, Hroute, loose_eq_refl
      by first [not_in_list | apply Hreq; in_list].
    simpl. rewrite (deref_lookup _ _ _ Ho1).
    rewrite (Hget "method"), obj_get_prepared_other, Hmethod, loose_eq_refl
      by first [not_in_list | apply Hreq; in_list].
    done.
  - exists err, h'. split; [done|]. split; [done|]. intros es'. rewrite Hat. by intros [= ->].
Qed.

(** Claim C4.  If an entry [e] of the builder has the name that [options]
    has, whatever their routes and methods, [declare] throws and the entries
    are what they were. *)
Theorem declare_rejects_same_name this options handler h es e oe :
  entries_of h this = Some es →
  VRef e ∈ es → h !! e = Some oe →
  obj_get oe "name" = obj_get (deref h options) "name" →
  ∃ err h', declare host this options handler h = (Throw err, h') ∧
            entries_of h' this = Some es.
Proof.
  intros Hes He Hoe Hname.
  pose proof (declare_entries this options handler h es Hes) as Hat.
  pose proof (declare_inv this options handler h es Hes) as Hinv.
  destruct (declare host this options handler h) as [[[]|err] h'].
  - exfalso.
    destruct Hinv as (o0 & h1 & m & q & a & oa & Ho0 & _ & _ & _ & Ho1 & Hf & Hreq & _ & _ & _ & _
                      & _ & Hnames & _).
    specialize (Hnames _ He). revert Hnames.
    rewrite (deref_lookup _ _ _ Ho0) in Hname.
    assert (Hget : obj_get (deref h1 e) "name" = obj_get oe "name").
    { destruct (decide (e = options)) as [->|Hne].
      - rewrite (deref_lookup _ _ _ Ho1). rewrite Ho0 in Hoe. injection Hoe as <-.
        apply obj_get_prepared_other; not_in_list.
      - destruct Hf as [Hrest _]. unfold deref. rewrite (Hrest _ Hne) by eauto. by rewrite Hoe. }
    unfold same_name, mbind, M_bind, bind, get; simpl.
    rewrite (deref_lookup _ _ _ Ho1), Hget, obj_get_prepared_other, Hname, strict_eq_refl
      by first [not_in_list | apply Hreq; in_list].
    done.
  - by exists err, h'.
Qed.

Lemma indexOf_from_elem i xs v :
  indexOf_from i xs v ≠ (-1)%Z → ∃ x, x ∈ xs ∧ strict_eq x v = true.
Proof.
  revert i. induction xs as [|x xs IH]; intros i; simpl; [done|].
  destruct (strict_eq x v) eqn:E.
  - intros _. exists x. split; [apply list_elem_of_here|done].
  - intros (y & Hy & Hyv)%IH. exists y. split; [by apply list_elem_of_further|done].
Qed.

Lemma STABILITY_LEVELS_elem v :
  indexOf STABILITY_LEVELS v ≠ (-1)%Z → v ∈ STABILITY_LEVELS.
Proof.
  intros (x & Hx & Hxv)%indexOf_from_elem.
  assert (∃ s, x = VStr s) as [s ->].
  { revert Hx. unfold STABILITY_LEVELS, Lodash.values, stability. simpl.
    rewrite !elem_of_cons, elem_of_nil. intros [->|[->|[->|[]]]]; eauto. }
  by apply strict_eq_eq_string in Hxv as ->.
Qed.

Lemma STABILITY_LEVELS_truthy v : v ∈ STABILITY_LEVELS → truthy v = true.
Proof.
  unfold STABILITY_LEVELS, Lodash.values, stability. simpl.
  rewrite !elem_of_cons, elem_of_nil. by intros [->|[->|[->|[]]]].
Qed.

Lemma stability_with_default o :
  obj_get (with_default_stability o) "stability" =
  if truthy (obj_get o "stability") then obj_get o "stability" else VStr "experimental".
Proof.
  unfold with_default_stability. destruct (truthy _); [done|].
  by rewrite obj_get_set_eq by ordinary_key.
Qed.

Lemma prepared_fields o p q hd :
  obj_get (prepared o p q hd) "stability" = obj_get (with_default_stability o) "stability" ∧
  obj_get (prepared o p q hd) "params" = p ∧
  obj_get (prepared o p q hd) "query" = q ∧
  obj_get (prepared o p q hd) "handler" = hd.
Proof.
  unfold prepared. repeat split.
  - by rewrite !obj_get_set_ne by first [ordinary_key|discriminate].
  - rewrite !obj_get_set_ne by first [ordinary_key|discriminate].
    by rewrite obj_get_set_eq by ordinary_key.
  - rewrite !obj_get_set_ne by first [ordinary_key|discriminate].
    by rewrite obj_get_set_eq by ordinary_key.
  - by rewrite obj_get_set_eq by ordinary_key.
Qed.

(** Claim C5, amended.  After a call of [declare] that returns, the
    [stability] of the stored object is one of [deprecated], [experimental]
    and [stable]: the value that was passed when that was truthy, and
    [experimental] when it was falsy ([undefined], that is omitted, but also
    [null], [false], [0], [NaN] and the empty string).  A call whose
    [stability] is truthy and outside the three levels throws. *)
Theorem declare_stability this options handler h :
  match declare host this options handler h with
  | (Normal _, h') =>
      obj_get (deref h' options) "stability" ∈ STABILITY_LEVELS ∧
      obj_get (deref h' options) "stability" =
        (if truthy (obj_get (deref h options) "stability")
         then obj_get (deref h options) "stability"
         else VStr "experimental")
  | (Throw _, _) => True
  end ∧
  (truthy (obj_get (deref h options) "stability") = true →
   obj_get (deref h options) "stability" ∉ STABILITY_LEVELS →
   throws (declare host this options handler h).1 = true).
Proof.
  assert (Hmain : match declare host this options handler h with
    | (Normal _, h') =>
        obj_get (deref h' options) "stability" ∈ STABILITY_LEVELS ∧
        obj_get (deref h' options) "stability" =
          (if truthy (obj_get (deref h options) "stability")
           then obj_get (deref h options) "stability"
           else VStr "experimental")
    | (Throw _, _) => True
    end).
  { destruct (h !! options) as [o0|] eqn:Ho0.
    - pose proof (declare_spec host this options handler h o0 Ho0) as H.
      unfold wp, declare_post in H.
      destruct (declare host this options handler h) as [[[]|e] h']; simpl in H; [|done].
      destruct H as (h1 & m & q & a & es1 & hg & _ & _ & _ & _ & Ho1 & _ & _ & Hst & _ & _ & _ & _ & ->).
      rewrite obj_get_pushed by ordinary_key.
      rewrite (deref_lookup _ _ _ Ho1), (deref_lookup _ _ _ Ho0).
      destruct (prepared_fields o0 (VRef m) q handler) as (-> & _).
      split; [by apply STABILITY_LEVELS_elem|apply stability_with_default].
    - by destruct (declare_dangling this options handler h Ho0) as [e ->]. }
  split; [done|]. intros Ht Hnot.
  destruct (declare host this options handler h) as [[[]|e] h']; [|done].
  destruct Hmain as [Hin Heq]. rewrite Ht in Heq. by rewrite Heq in Hin.
Qed.

(** Claim C10.  After a call of [declare] that returns, the entry appended is
    the reference [options] itself, and the object it refers to has been
    written in place.  Its [stability] is the one passed, or ["experimental"]
    for a falsy one.  Its [params] is a new object that holds, key by key,
    the merged value: what [options.params] held, and what the [params] of
    the builder hold where it held [undefined] (both read with the stability
    of [options] defaulted, which matters only when one of them is [options]
    itself).  Its [query] is the one passed, or a new object without
    properties for a falsy one.  Its [handler] is the handler passed, and its
    other properties are as they were.  A later assignment to a property of
    that object is read back through the last entry of the registry.

    The properties meant are all those of an object literal, and the
    ordinary ones of an array or a function (not its elements, [length] or
    [name]); an assignment to [entries] when [options] is the builder itself
    replaces the registry and is left out. *)
Theorem declare_registers_the_options_object this options handler h es h' :
  entries_of h this = Some es →
  declare host this options handler h = (Normal (), h') →
  entries_of h' this = Some (es ++ [VRef options]) ∧
  (∀ k, ordinary k ∨ okind (deref h options) = KPlain → k ∉ written →
     obj_get (deref h' options) k = obj_get (deref h options) k) ∧
  obj_get (deref h' options) "stability" =
    (if truthy (obj_get (deref h options) "stability")
     then obj_get (deref h options) "stability"
     else VStr "experimental") ∧
  (∃ m psm,
     obj_get (deref h' options) "params" = VRef m ∧
     h !! m = None ∧ h' !! m = Some (plain psm) ∧
     (∀ k, lookup_prop psm k =
           merged_value (<[options := with_default_stability (deref h options)]> h)
             (obj_get (deref h options) "params") (obj_get (deref h this) "params") k) ∧
     if truthy (obj_get (deref h options) "query")
     then obj_get (deref h' options) "query" = obj_get (deref h options) "query"
     else ∃ ql, obj_get (deref h' options) "query" = VRef ql ∧ ql ≠ m ∧
                h !! ql = None ∧ h' !! ql = Some (plain [])) ∧
  obj_get (deref h' options) "handler" = handler ∧
  (∀ k v, ordinary k ∨ okind (deref h options) = KPlain →
     (options = this → k ≠ "entries") →
     let h'' := <[options := obj_set (deref h' options) k v]> h' in
     ∃ entry, entries_of h'' this ≫= last = Some entry ∧
              get_prop h'' entry k = Normal v).
Proof.
  intros Hes Hrun.
  pose proof (declare_entries this options handler h es Hes) as Hat. rewrite Hrun in Hat.
  destruct (h !! options) as [o0|] eqn:Ho0;
    [|destruct (declare_dangling this options handler h Ho0) as [e He]; congruence].
  pose proof (declare_outcome_spec host this options handler h o0 Ho0) as H.
  unfold wp in H. rewrite Hrun in H. cbn [fst snd declare_outcome] in H.
  destruct H as (h1 & m & q & psm & a & es1 & hg & _ & _ & _ & _ & _ & _ & _ & Hstaged & _ & Hk
                 & _ & _ & Hh').
  destruct Hstaged as (Ho1 & Hrest & Hm0 & Hm1 & Hmerged & Hq).
  rewrite (deref_lookup _ _ _ Ho0).
  assert (Hkind : okind (prepared o0 (VRef m) q handler) = okind o0)
    by apply changed_only_prepared.
  assert (Hfield : ∀ key, ordinary key ∨ okind o0 = KPlain →
            obj_get (deref h' options) key = obj_get (prepared o0 (VRef m) q handler) key).
  { intros key [Hkey|Hplain].
    - rewrite Hh', obj_get_pushed by done. by rewrite (deref_lookup _ _ _ Ho1).
    - rewrite Hh', deref_insert_ne; [by rewrite (deref_lookup _ _ _ Ho1)|].
      intros ->. rewrite (deref_lookup _ _ _ Ho1) in Hk. congruence. }
  assert (Hkept : ∀ l o, h1 !! l = Some (plain o) → h' !! l = Some (plain o)).
  { intros l o Hl. rewrite Hh', lookup_insert_ne; [done|].
    intros ->. rewrite (deref_lookup _ _ _ Hl) in Hk. discriminate. }
  assert (Hkind' : okind (deref h' options) = KPlain ↔ okind o0 = KPlain).
  { rewrite Hh'. destruct (decide (a = options)) as [->|Hne].
    - rewrite deref_insert_eq. rewrite (deref_lookup _ _ _ Ho1), Hkind in Hk.
      cbn [okind]. rewrite Hk. by split.
    - by rewrite deref_insert_ne, (deref_lookup _ _ _ Ho1), Hkind. }
  destruct (prepared_fields o0 (VRef m) q handler) as (Hs & Hp & Hqf & Hh).
  split; [done|]. split; [|split; [|split; [|split]]].
  - intros k Hord Hw. rewrite Hfield by done. by apply obj_get_prepared_other.
  - rewrite Hfield, Hs by (left; ordinary_key). apply stability_with_default.
  - exists m, psm. rewrite !Hfield, Hp, Hqf by (left; ordinary_key).
    split; [done|]. split; [done|]. split; [by apply Hkept|].
    split; [by apply (params_merged_value this options h o0 m psm)|].
    destruct Hq as [[-> ->]|(-> & ql & -> & Hql & Hne & Hql1)]; [done|].
    exists ql. repeat (split; [done|]). by apply Hkept.
  - by rewrite Hfield, Hh by (left; ordinary_key).
  - intros k v Hord Hne. cbn zeta.
    assert (Hord' : ordinary k ∨ okind (deref h' options) = KPlain).
    { destruct Hord as [?|?]; [by left|right; by apply Hkind']. }
    exists (VRef options). split.
    + rewrite (entries_of_set _ _ _ _ _ _ Hat Hord' Hne). cbn [mbind option_bind].
      apply last_snoc.
    + cbn [get_prop]. by rewrite deref_insert_eq, obj_get_set_same.
Qed.

(** what the iteratee of lines 157-159 does *)
Lemma validate_query_run v key h :
  validate_query host v key h =
  (if is_validator h v then Normal ()
   else Throw (Error ("query." +:+ ToString host h key +:+ " must be a RegExp or a function!")),
   h).
Proof.
  unfold validate_query, is_validator. rewrite bind_run. cbn [current_heap].
  by destruct (_ || _).
Qed.

(** The key loop throws as soon as the iteratee throws at one of the keys. *)
Lemma each_key_throws collection (f : value → value → M unit) keys h k :
  is_nullish collection = false →
  (∀ v key, pure_action (f v key)) →
  k ∈ keys →
  throws (f (prop_of h collection k) (VStr k) h).1 = true →
  throws (Lodash.each_key collection f keys h).1 = true.
Proof.
  intros Hc Hpure Hk Hv. induction keys as [|key keys IH]; [by apply elem_of_nil in Hk|].
  cbn [Lodash.each_key]. rewrite bind_run. unfold get.
  rewrite (get_prop_nonnullish _ _ _ Hc), bind_run.
  pose proof (Hpure (prop_of h collection key) (VStr key) h) as Hh.
  destruct (f (prop_of h collection key) (VStr key) h) as [[[]|e] h1] eqn:Hkey; [|done].
  cbn [snd] in Hh. subst h1.
  apply IH. apply elem_of_cons in Hk as [->|Hk]; [|done].
  by rewrite Hkey in Hv.
Qed.

Lemma each_key_invalid collection keys h k :
  is_nullish collection = false →
  k ∈ keys →
  is_validator h (prop_of h collection k) = false →
  throws (Lodash.each_key collection (validate_query host) keys h).1 = true.
Proof.
  intros Hc Hk Hv. apply (each_key_throws _ _ _ _ k); try done.
  - intros v key. apply pure_validate_query.
  - by rewrite validate_query_run, Hv.
Qed.

Lemma is_validator_frame options h hg v :
  frame options h hg → in_heap h v → is_validator hg v = is_validator h v.
Proof.
  intros [Hrest Hopt] Hin. destruct v as [| | | | |l]; try done.
  destruct Hin as [o Ho]. unfold is_validator, instanceof_RegExp, instanceof_Function.
  destruct (decide (l = options)) as [->|Hne].
  - destruct (Hopt _ Ho) as (o' & Ho' & [Hkind _]).
    by rewrite (deref_lookup _ _ _ Ho), (deref_lookup _ _ _ Ho'), Hkind.
  - unfold deref. by rewrite (Hrest _ Hne) by eauto.
Qed.

(** Property X10.
    What the check of lines 156-160 does enforce: a query object that has no
    numeric [length] and holds something else than a regular expression or a
    function under one of its keys makes [declare] throw. *)
Lemma declare_rejects_invalid_query this options handler h o0 ql psq k v :
  h !! options = Some o0 →
  obj_get o0 "query" = VRef ql → ql ≠ options →
  h !! ql = Some (plain psq) →
  Lodash.isLength (lookup_prop psq "length") = None →
  assoc k psq = Some v →
  is_validator h v = false → in_heap h v →
  throws (declare host this options handler h).1 = true.
Proof.
  intros Ho0 Hquery Hne Hql Hlen Hk Hv Hin.
  pose proof (declare_spec host this options handler h o0 Ho0) as H.
  unfold wp, declare_post in H.
  destruct (declare host this options handler h) as [[[]|e] h']; simpl in H; [|done].
  exfalso.
  destruct H as (h1 & m & q & a & es & hg & [Hframe Hvalid] & _ & _ & Hq & _).
  assert (q = VRef ql) as ->.
  { destruct Hq as [[_ ->]|[Hf _]]; [done|]. by rewrite Hquery in Hf. }
  assert (Hqlg : hg !! ql = Some (plain psq)).
  { destruct Hframe as [Hrest _]. by rewrite (Hrest _ Hne) by eauto. }
  assert (throws (Lodash.forEach (VRef ql) (validate_query host) hg).1 = true) as Hthrows.
  { unfold Lodash.forEach, mbind, M_bind, bind, current_heap. cbn [fst snd].
    unfold Lodash.isArray, Lodash.isArrayLike, instanceof_Function.
    cbn [is_nullish get_prop keys_of]. rewrite (deref_lookup _ _ _ Hqlg). cbn [okind plain].
    rewrite obj_get_plain. fold (lookup_prop psq "length"). rewrite Hlen.
    apply (each_key_invalid _ _ _ k); [done|by eapply assoc_Some_key|].
    unfold prop_of. cbn [get_prop]. rewrite (deref_lookup _ _ _ Hqlg), obj_get_plain, Hk.
    change (default VUndefined (Some v)) with v.
    by rewrite (is_validator_frame _ _ _ _ Hframe Hin). }
  by rewrite Hvalid in Hthrows.
Qed.

(** Property X11.
    When [query] is falsy, the stored query is a new object without
    properties. *)
Lemma declare_default_query this options handler h h' :
  declare host this options handler h = (Normal (), h') →
  truthy (obj_get (deref h options) "query") = false →
  ∃ ql, obj_get (deref h' options) "query" = VRef ql ∧
        h !! ql = None ∧ h' !! ql = Some (plain []).
Proof.
  intros Hrun Hq. destruct (h !! options) as [o0|] eqn:Ho0.
  - pose proof (declare_spec host this options handler h o0 Ho0) as H.
    unfold wp, declare_post in H. rewrite Hrun in H. simpl in H.
    destruct H as (h1 & m & q & a & es & hg & _ & _ & _ & Hq1 & Ho1 & _ & _ & _ & _ & Hk & _ & _ & ->).
    rewrite (deref_lookup _ _ _ Ho0) in Hq.
    destruct Hq1 as [[Ht _]|(_ & ql & -> & Hql & _ & Hql1)]; [congruence|].
    exists ql. rewrite obj_get_pushed by ordinary_key.
    rewrite (deref_lookup _ _ _ Ho1).
    destruct (prepared_fields o0 (VRef m) (VRef ql) handler) as (_ & _ & -> & _).
    split; [done|]. split; [done|].
    rewrite lookup_insert_ne; [done|].
    intros ->. rewrite (deref_lookup _ _ _ Hql1) in Hk. discriminate.
  - destruct (declare_dangling this options handler h Ho0) as [e He]. congruence.
Qed.

End Registry.

(* ===================================================================== *)
(** * Construction *)
(* ===================================================================== *)

Section Construction.
Context (host : Host).

Lemma wp_test re v h Q :
  Q (Normal (Regex.test re (ToString host h v))) h → wp (test host re v) h Q.
Proof. done. Qed.

(** Claim C7.  Construction throws when the string conversion of
    [options.name] does not match [/^[a-z][a-z0-9_-]*$/], and when that of
    [options.version] does not match [/^v[0-9]+$/].  (For a string the
    conversion is the string itself.) *)
Theorem APIBuilder_rejects_invalid_name_or_version options h :
  (∀ h', Regex.test Regex.api_name
           (ToString host h' (obj_get (deref h options) "name")) = false) ∨
  (∀ h', Regex.test Regex.api_version
           (ToString host h' (obj_get (deref h options) "version")) = false) →
  throws (APIBuilder host options h).1 = true.
Proof.
  intros Hbad.
  change (wp (APIBuilder host options) h (λ r _, throws r = true)).
  unfold APIBuilder.
  apply wp_bind, wp_alloc. intros this Hthis.
  apply wp_bind, wp_get. cbn beta iota.
  apply wp_bind, wp_assert; [intros _|done].
  apply wp_bind, wp_require_fields; [intros _|done].
  apply wp_bind, wp_get. cbn beta iota.
  apply wp_bind, wp_current_heap.
  apply wp_bind, wp_test. cbn beta iota.
  rewrite (deref_alloc h this _ options Hthis eq_refl).
  apply wp_bind, wp_assert; [intros Hname|done].
  apply wp_bind, wp_get. cbn beta iota.
  apply wp_bind, wp_test. cbn beta iota.
  rewrite (deref_alloc h this _ options Hthis eq_refl).
  apply wp_bind, wp_assert; [intros Hversion|done].
  destruct Hbad as [Hbad|Hbad]; rewrite Hbad in *; discriminate.
Qed.

Lemma extends_refl h : extends h h.
Proof. by intros l o. Qed.

Lemma extends_fresh h hc l : extends h hc → hc !! l = None → h !! l = None.
Proof.
  intros Hext Hl. destruct (h !! l) as [o|] eqn:E; [|done].
  apply Hext in E. congruence.
Qed.

Lemma extends_insert h hc l o : extends h hc → h !! l = None → extends h (<[l := o]> hc).
Proof.
  intros Hext Hl l' o' Hl'. rewrite lookup_insert_ne; [by apply Hext|].
  intros ->. congruence.
Qed.

Lemma lookup_fresh_ne (hc : heap) l x o : hc !! l = None → hc !! x = Some o → l ≠ x.
Proof. intros Hl Hx ->. congruence. Qed.

Lemma lookup_insert_other (hc : heap) l onew x o :
  l ≠ x → hc !! x = Some o → <[l := onew]> hc !! x = Some o.
Proof. intros Hne Hx. by rewrite lookup_insert_ne. Qed.

(** The heap in the goal is [<[l := onew]> hc]: restate what is known of [hc]
    for it and forget [hc].  [l] is new ([fresh_in]) or holds a known object
    that is being replaced ([rewritten]). *)
Ltac fresh_in hc l Hl :=
  repeat match goal with
  | H : hc !! ?x = Some ?o |- _ =>
      lazymatch goal with
      | _ : l ≠ x |- _ => fail
      | _ => pose proof (lookup_fresh_ne hc l x o Hl H)
      end
  end;
  match goal with
  | Hext : extends ?h hc |- _ => pose proof (extends_fresh h hc l Hext Hl)
  end.

Ltac rewritten hc l onew :=
  let hn := fresh "hc" in
  let Hnew := fresh "Hnew" in
  assert (Hnew : <[l := onew]> hc !! l = Some onew) by apply lookup_insert_eq;
  repeat match goal with
  | H : hc !! ?x = Some ?o, Hne : l ≠ ?x |- _ =>
      apply (lookup_insert_other hc l onew x o Hne) in H
  | H : hc !! ?x = Some ?o, Hne : ?x ≠ l |- _ =>
      apply (lookup_insert_other hc l onew x o (not_eq_sym Hne)) in H
  end;
  match goal with
  | Hext : extends ?h hc, Hl : ?h !! l = None |- _ =>
      apply (λ E, extends_insert h hc l onew E Hl) in Hext
  end;
  repeat match goal with
  | H : hc !! l = _ |- _ => clear H
  end;
  set (hn := <[l := onew]> hc) in *; clearbody hn; try clear hc.

Tactic Notation "forward_alloc" ident(l) "as" ident(Hl) ident(Hfresh) :=
  apply wp_bind, wp_alloc; intros l Hfresh;
  match goal with
  | |- wp _ (<[l := ?onew]> ?hc) _ =>
      fresh_in hc l Hfresh; clear Hfresh;
      match goal with H : _ !! l = None |- _ => rename H into Hfresh end;
      rewritten hc l onew;
      match goal with H : _ !! l = Some onew |- _ => rename H into Hl end
  end.

Lemma validate_error_code_run v key h :
  validate_error_code host v key h =
  (if Regex.test Regex.error_code (ToString host h key)
   then if String.eqb (typeof h v) "number" then Normal ()
        else Throw (AssertionError "Expected HTTP status code to be int")
   else Throw (AssertionError ("Invalid error code: " +:+ ToString host h key)),
   h).
Proof.
  unfold validate_error_code, test. rewrite !bind_run. cbn [current_heap].
  rewrite !bind_run. cbn [current_heap mret M_ret ret].
  destruct (Regex.test _ _); [|done]. cbn [assert]. rewrite bind_run. cbn [ret].
  by destruct (String.eqb _ _).
Qed.

Lemma lookup_prop_assoc ps k v : lookup_prop ps k = v → v ≠ VUndefined → assoc k ps = Some v.
Proof. unfold lookup_prop. destruct (assoc k ps); simpl; congruence. Qed.

Lemma lookup_prop_absent ps k : k ∉ (fst <$> ps) → lookup_prop ps k = VUndefined.
Proof.
  intros Hk. unfold lookup_prop. destruct (assoc k ps) as [v|] eqn:E; [|done].
  by apply assoc_Some_key in E.
Qed.

(** [l[k] = v] on a plain object at [l] *)
Ltac forward_set :=
  apply wp_bind, wp_set;
  match goal with
  | H : ?hc !! ?l = Some (plain ?ps) |- wp _ (<[?l := obj_set (deref ?hc ?l) ?k ?v]> ?hc) _ =>
      rewrite (deref_lookup _ _ _ H), obj_set_plain;
      rewritten hc l (plain (set_named k v ps));
      match goal with
      | Hnew : _ !! l = Some (plain (set_named k v ps)) |- _ => rename Hnew into H
      end
  end.

Tactic Notation "name_heap" ident(hn) :=
  lazymatch goal with |- wp _ ?hc _ => rename hc into hn end.

(** [new APIBuilder(options)], statement by statement, with every way out *)
Lemma APIBuilder_outcome_spec options h ps :
  h !! options = Some (plain ps) →
  wp (APIBuilder host options) h (APIBuilder_outcome host h ps).
Proof.
  intros Hopt. unfold APIBuilder.
  pose proof (extends_refl h) as Hext. pose proof Hopt as Ho.
  revert Hext Ho. generalize h at 2 3 4 as hc. intros hc Hext Ho.
  forward_alloc this as Ht Hthis. name_heap hx.
  (* the checks of lines 27-32 *)
  apply wp_bind, wp_get. cbn beta iota.
  rewrite (deref_lookup _ _ _ Ho), obj_get_plain. fold (lookup_prop ps "schemaPrefix").
  apply wp_bind, wp_assert; intros Hprefix; [apply negb_true_iff in Hprefix|];
    [|apply negb_false_iff in Hprefix; split; [done|by constructor]].
  apply wp_bind. unfold wp at 1. rewrite require_fields_run. cbn [fst snd].
  rewrite (deref_lookup _ _ _ Ho).
  destruct (first_missing _ _) as [key|] eqn:Hreq; [split; [done|by constructor]|].
  apply wp_bind, wp_get. cbn beta iota.
  rewrite (deref_lookup _ _ _ Ho), obj_get_plain. fold (lookup_prop ps "name").
  apply wp_bind, wp_current_heap.
  apply wp_bind, wp_test. cbn beta iota.
  apply wp_bind, wp_assert; intros Hname; [|split; [done|by econstructor]].
  apply wp_bind, wp_get. cbn beta iota.
  rewrite (deref_lookup _ _ _ Ho), obj_get_plain. fold (lookup_prop ps "version").
  apply wp_bind, wp_test. cbn beta iota.
  apply wp_bind, wp_assert; intros Hversion; [|split; [done|by econstructor]].
  pose proof (conj Hext (conj Hname Hversion)) as Hchecks. clear Hname Hversion.
  (* errorCodes: _.defaults({}, options.errorCodes || {}, errors.ERROR_CODES) *)
  forward_alloc target as Hg Htarget.
  forward_alloc merged as Hm Hmerged. name_heap ha.
  apply wp_bind, wp_get. cbn beta iota.
  rewrite (deref_lookup _ _ _ Ho), obj_get_plain. fold (lookup_prop ps "errorCodes").
  apply wp_bind, wp_or_else_alloc_cases. intros user hu Huser.
  assert (Hfacts :
    extends h hu ∧ hu !! options = Some (plain ps) ∧ hu !! this = Some (plain []) ∧
    hu !! target = Some (plain []) ∧ hu !! merged = Some (plain []) ∧
    (truthy (lookup_prop ps "errorCodes") = true ∧ user = lookup_prop ps "errorCodes" ∨
     truthy (lookup_prop ps "errorCodes") = false ∧
       ∃ l, user = VRef l ∧ h !! l = None ∧ hu !! l = Some (plain []))).
  { destruct Huser as [(Htr & -> & ->)|(Hf & l & Hl & -> & ->)].
    - repeat (split; [done|]). by left.
    - fresh_in ha l Hl.
      repeat split; try (by apply lookup_insert_other); [by apply extends_insert|].
      right. split; [done|]. exists l. by rewrite lookup_insert_eq. }
  clear Huser Hext Ho Ht Hg Hm ha.
  destruct Hfacts as (Hext & Ho & Ht & Hg & Hm & Huser).
  apply wp_bind. cbn [Lodash.defaults]. apply wp_bind.
  destruct (defaults_source_spec merged user hu [] Hm) as (ps1 & Hrun1 & Hps1).
  unfold wp at 1. rewrite Hrun1. cbn [fst snd]. apply wp_bind.
  destruct (defaults_source_spec merged (ERROR_CODES host) (<[merged := plain ps1]> hu) ps1
              ltac:(apply lookup_insert_eq)) as (psm & Hrun2 & Hpsm).
  unfold wp at 1. rewrite Hrun2. cbn [fst snd]. rewrite insert_insert_eq. apply wp_ret.
  assert (Hcodes : merged_error_codes hu merged user (ERROR_CODES host) psm).
  { exists ps1. split; [|done]. intros k. rewrite Hps1. done. }
  assert (Hdomain : merged_keys hu merged user (ERROR_CODES host) psm).
  { intros k Hk.
    destruct (defaults_source_domain _ _ _ _ _ ltac:(apply lookup_insert_eq) Hrun2 k Hk)
      as [Hk1|Hk2]; [|right; by exists ps1].
    destruct (defaults_source_domain _ _ _ _ _ Hm Hrun1 k Hk1) as [[]%elem_of_nil|?].
    by left. }
  assert (Hcovers : merged_covers hu merged user (ERROR_CODES host) psm).
  { intros k Hk.
    apply (defaults_source_covers _ _ _ _ _ ltac:(apply lookup_insert_eq) Hrun2).
    destruct Hk as [Hk|[Hne Hk]].
    - left. apply (defaults_source_covers _ _ _ _ _ Hm Hrun1). by right.
    - right. by rewrite keys_of_insert_ne. }
  clear Hrun1 Hrun2 Hps1 Hpsm.
  pose proof (conj Hext (conj Hm Huser)) as Hu.
  rewritten hu merged (plain psm). rename Hnew into Hm.
  (* {errorCodes: ...} *)
  forward_set.
  change (set_named "errorCodes" (VRef merged) []) with [("errorCodes", VRef merged)] in Hg.
  forward_alloc params0 as Hparams0 Hparams0'.
  forward_alloc context0 as Hcontext0 Hcontext0'.
  forward_alloc errorCodes0 as HerrorCodes0 HerrorCodes0'.
  forward_alloc fallback as Hfallback Hfallback'. name_heap hb.
  (* options = _.defaults({errorCodes: ...}, options, {...}) *)
  apply wp_bind. cbn [Lodash.defaults]. apply wp_bind.
  destruct (defaults_source_spec target (VRef options) hb _ Hg) as (ps2 & Hrun1 & Hps2).
  unfold wp at 1. rewrite Hrun1. cbn [fst snd]. apply wp_bind.
  destruct (defaults_source_spec target (VRef fallback) (<[target := plain ps2]> hb) ps2
              ltac:(apply lookup_insert_eq)) as (ps3 & Hrun2 & Hps3).
  unfold wp at 1. rewrite Hrun2. cbn [fst snd]. rewrite insert_insert_eq. apply wp_ret.
  assert (Hps2' : ∀ k, k ≠ "errorCodes" → lookup_prop ps2 k = lookup_prop ps k).
  { intros k Hk. rewrite Hps2. unfold prop_of. cbn [keys_of get_prop].
    rewrite (deref_lookup _ _ _ Ho), obj_get_plain. fold (lookup_prop ps k).
    cbn [obj_keys okind plain props].
    assert (lookup_prop [("errorCodes", VRef merged)] k = VUndefined) as ->.
    { unfold lookup_prop. cbn [assoc]. by destruct (String.eqb_spec k "errorCodes"). }
    cbn [is_undefined strict_eq andb]. case_bool_decide as Hin; [done|].
    by rewrite lookup_prop_absent. }
  pose proof (lookup_insert_other hb target (plain ps2) fallback _
                ltac:(by apply not_eq_sym) Hfallback) as Hfallback2.
  assert (Hfb : ∀ k, prop_of (<[target := plain ps2]> hb) (VRef fallback) k =
                     lookup_prop [("params", VRef params0); ("context", VRef context0);
                                  ("errorCodes", VRef errorCodes0)] k).
  { intros k. unfold prop_of. cbn [get_prop]. by rewrite (deref_lookup _ _ _ Hfallback2). }
  assert (Hkeys : keys_of (<[target := plain ps2]> hb) (VRef fallback) =
                  ["params"; "context"; "errorCodes"]).
  { cbn [keys_of]. by rewrite (deref_lookup _ _ _ Hfallback2). }
  assert (Hcopied : ∀ k, k ∈ ["title"; "description"; "name"; "version"] →
            lookup_prop ps3 k = lookup_prop ps k).
  { intros k Hk. rewrite Hps3, Hkeys, Hps2'.
    - rewrite bool_decide_eq_false_2, andb_false_r; [done|].
      revert Hk. rewrite !elem_of_cons, !elem_of_nil.
      intros [->|[->|[->|[->|[]]]]] [?|[?|[?|[]]]]; discriminate.
    - revert Hk. rewrite !elem_of_cons, elem_of_nil.
      intros [->|[->|[->|[->|[]]]]]; discriminate. }
  assert (Hcodes3 : lookup_prop ps3 "errorCodes" = VRef merged).
  { rewrite Hps3, Hps2. reflexivity. }
  assert (Hparams : lookup_prop ps3 "params" =
            if is_undefined (lookup_prop ps "params") then VRef params0
            else lookup_prop ps "params").
  { rewrite Hps3, Hkeys, Hfb, Hps2' by discriminate.
    destruct (is_undefined (lookup_prop ps "params")); [vm_compute|]; reflexivity. }
  assert (Hcontext : lookup_prop ps3 "context" =
            if is_undefined (lookup_prop ps "context") then VRef context0
            else lookup_prop ps "context").
  { rewrite Hps3, Hkeys, Hfb, Hps2' by discriminate.
    destruct (is_undefined (lookup_prop ps "context")); [vm_compute|]; reflexivity. }
  clear Hrun1 Hrun2 Hps2 Hps3 Hps2' Hfb Hkeys Hfallback2.
  rewritten hb target (plain ps3). rename Hnew into Hg'. name_heap hv.
  (* the check of lines 40-43 *)
  apply wp_bind, wp_get. cbn beta iota.
  rewrite (deref_lookup _ _ _ Hg'), obj_get_plain. fold (lookup_prop ps3 "errorCodes").
  rewrite Hcodes3.
  destruct Hu as (Hextu & Hmu & _).
  assert (Hmerge : error_codes_merged host h ps merged user hu psm hv) by done.
  apply wp_bind, wp_pure; [apply pure_forEach, pure_validate_error_code|].
  destruct (Lodash.forEach _ _ hv).1 as [[]|e] eqn:Hvalid;
    [|split; [done|by econstructor]].
  clear Hextu Hmu Huser Hcodes Hdomain.
  (* this.name = options.name ... *)
  do 7 (apply wp_bind, wp_get; cbn beta iota;
        rewrite (deref_lookup _ _ _ Hg'), obj_get_plain; forward_set).
  forward_alloc entries as Hentries Hentries'.
  forward_set. apply wp_ret.
  repeat match type of Ht with
         | context [default VUndefined (assoc ?k ps3)] =>
             change (default VUndefined (assoc k ps3)) with (lookup_prop ps3 k) in Ht
         end.
  rewrite Hcodes3, Hparams, Hcontext in Ht.
  rewrite (Hcopied "name"), (Hcopied "version"), (Hcopied "title"), (Hcopied "description")
    in Ht by in_list.
  split; [done|]. repeat (split; [done|]). split; [by exists hx|].
  exists merged, user, hu, psm, hv,
    (if is_undefined (lookup_prop ps "params") then VRef params0 else lookup_prop ps "params"),
    (if is_undefined (lookup_prop ps "context") then VRef context0
     else lookup_prop ps "context"), entries.
  split; [done|]. split; [done|]. split; [exact Ht|]. repeat (split; [done|]).
  unfold defaulted. split.
  - destruct (is_undefined (lookup_prop ps "params")); [by exists params0|done].
  - destruct (is_undefined (lookup_prop ps "context")); [by exists context0|done].
Qed.

(** [new APIBuilder(options)], when it returns *)
Lemma APIBuilder_spec options h ps :
  h !! options = Some (plain ps) →
  wp (APIBuilder host options) h (APIBuilder_post host h ps).
Proof.
  intros Hopt. eapply wp_mono; [by apply APIBuilder_outcome_spec|].
  intros [this|e] h' [_ H]; [|done].
  destruct H as (Hthis & _ & _ & _ & merged & user & hu & psm & hv & params & context &
                 entries & Hmerge & Hvalid & Ht & _ & _ & Hentries & _).
  destruct Hmerge as (? & ? & ? & ? & ? & _ & _ & ? & ?).
  split; [done|]. exists merged, user, hu, psm, hv. repeat (split; [done|]).
  split; [|done]. by exists params, context, entries.
Qed.

(** What the check of lines 39-43 does enforce.  Let neither the caller's
    table of error codes nor the built-in one have a numeric [length].  Then
    an entry of the caller's table whose key holds no upper-case letter
    followed by alphanumerics, or whose value is not a number, makes the
    construction throw. *)
Lemma APIBuilder_rejects_invalid_error_code options h ps codes pc builtin pb k v :
  h !! options = Some (plain ps) →
  lookup_prop ps "errorCodes" = VRef codes → h !! codes = Some (plain pc) →
  ERROR_CODES host = VRef builtin → h !! builtin = Some (plain pb) →
  Lodash.isLength (lookup_prop pc "length") = None →
  Lodash.isLength (lookup_prop pb "length") = None →
  assoc k pc = Some v → v ≠ VUndefined →
  Regex.test Regex.error_code k = false ∨ (∀ n, v ≠ VNum n) →
  throws (APIBuilder host options h).1 = true.
Proof.
  intros Hopt Hcodes Hpc Hbuiltin Hpb Hlenc Hlenb Hk Hv Hbad.
  pose proof (APIBuilder_spec options h ps Hopt) as H. unfold wp in H.
  destruct (APIBuilder host options h) as [[this|e] h']; [|done].
  cbn [fst snd APIBuilder_post] in H. exfalso.
  destruct H as (_ & merged & user & hu & psm & hv & _ & Hfresh & Hextu & _ & Huser &
                 (ps1 & Hps1 & Hpsm) & Hextv & Hmv & Hvalid).
  assert (user = VRef codes) as ->.
  { rewrite Hcodes in Huser. by destruct Huser as [[_ ->]|[? _]]. }
  pose proof (Hextu _ _ Hpc) as Hpcu. pose proof (Hextu _ _ Hpb) as Hpbu.
  assert (Hne : merged ≠ builtin) by (intros ->; congruence).
  assert (Hps1' : ∀ key, lookup_prop ps1 key = lookup_prop pc key).
  { intros key. rewrite Hps1. unfold prop_of. cbn [keys_of get_prop].
    rewrite (deref_lookup _ _ _ Hpcu), obj_get_plain. fold (lookup_prop pc key).
    cbn [obj_keys okind plain props]. case_bool_decide as Hin; [done|].
    by rewrite lookup_prop_absent. }
  assert (Hpsm' : ∀ key, lookup_prop psm key = lookup_prop pc key ∨
                         lookup_prop psm key = lookup_prop pb key).
  { intros key. rewrite Hpsm, Hps1', Hbuiltin. destruct (_ && _); [right|by left].
    unfold prop_of. cbn [get_prop].
    by rewrite (deref_lookup _ _ _ (lookup_insert_other _ _ _ _ _ Hne Hpbu)), obj_get_plain. }
  assert (Hkm : assoc k psm = Some v).
  { apply lookup_prop_assoc; [|done]. rewrite Hpsm, Hps1'.
    assert (lookup_prop pc k = v) as -> by (unfold lookup_prop; by rewrite Hk).
    by destruct v. }
  assert (Hlen : Lodash.isLength (lookup_prop psm "length") = None).
  { by destruct (Hpsm' "length") as [-> | ->]. }
  assert (throws (Lodash.forEach (VRef merged) (validate_error_code host) hv).1 = true)
    as Hthrows.
  { unfold Lodash.forEach, mbind, M_bind, bind, current_heap. cbn [fst snd].
    unfold Lodash.isArray, Lodash.isArrayLike, instanceof_Function.
    cbn [is_nullish get_prop keys_of]. rewrite (deref_lookup _ _ _ Hmv). cbn [okind plain].
    rewrite obj_get_plain. fold (lookup_prop psm "length"). rewrite Hlen.
    apply (each_key_throws _ _ _ _ k); [done| |by eapply assoc_Some_key|].
    - intros x key. apply pure_validate_error_code.
    - unfold prop_of. cbn [get_prop]. rewrite (deref_lookup _ _ _ Hmv), obj_get_plain, Hkm.
      change (default VUndefined (Some v)) with v.
      rewrite validate_error_code_run. cbn [ToString fst].
      destruct Hbad as [-> | Hnum]; [done|].
      destruct (Regex.test _ _); [|done].
      destruct v as [| | |n| |l]; try done; [by destruct (Hnum n)|].
      cbn [typeof]. by destruct (okind _). }
  by rewrite Hvalid in Hthrows.
Qed.






(** ** The checks of the constructor, one by one *)

(** Property X2.
    Line 27: a truthy [schemaPrefix] is refused before anything else is
    looked at. *)
Theorem APIBuilder_rejects_schemaPrefix options h :
  truthy (obj_get (deref h options) "schemaPrefix") = true →
  (APIBuilder host options h).1
    = Throw (AssertionError "schemaPrefix is no longer allowed!").
Proof.
  intros Hp.
  change (wp (APIBuilder host options) h
            (λ r _, r = Throw (AssertionError "schemaPrefix is no longer allowed!"))).
  unfold APIBuilder. apply wp_bind, wp_alloc. intros this Hthis.
  apply wp_bind, wp_get. cbn beta iota.
  rewrite (deref_alloc h this _ options Hthis eq_refl), Hp. done.
Qed.

(** Property X3.
    Lines 28-30: without [schemaPrefix], the first of [title], [description],
    [name] and [version] that is missing or falsy is reported. *)
Theorem APIBuilder_requires_options options h key :
  truthy (obj_get (deref h options) "schemaPrefix") = false →
  first_missing (deref h options) ["title"; "description"; "name"; "version"] = Some key →
  (APIBuilder host options h).1 = Throw (must_be_provided key).
Proof.
  intros Hp Hmiss.
  change (wp (APIBuilder host options) h (λ r _, r = Throw (must_be_provided key))).
  unfold APIBuilder. apply wp_bind, wp_alloc. intros this Hthis.
  apply wp_bind, wp_get. cbn beta iota.
  rewrite (deref_alloc h this _ options Hthis eq_refl), Hp.
  apply wp_bind, wp_ret. apply wp_bind. unfold wp at 1.
  rewrite require_fields_run. cbn [fst snd].
  by rewrite (deref_alloc h this _ options Hthis eq_refl), Hmiss.
Qed.

(** Property X4.
    The constructor writes to no object that exists: not to [options], not
    to the caller's table of error codes, not to the built-in one.  Whether it
    returns or throws, all it leaves behind are new objects. *)
Theorem APIBuilder_writes_no_object options h ps :
  h !! options = Some (plain ps) →
  extends h (APIBuilder host options h).2.
Proof.
  intros Hopt. pose proof (APIBuilder_outcome_spec options h ps Hopt) as H.
  unfold wp in H. by destruct H.
Qed.

(** [_.defaults({}, a, b)] on two object literals: what [a] defines, and
    from [b] what [a] leaves undefined *)
Lemma merged_tables hu merged la pa lb pb psm :
  merged_error_codes hu merged (VRef la) (VRef lb) psm →
  hu !! la = Some (plain pa) → hu !! lb = Some (plain pb) → lb ≠ merged →
  ∀ k, lookup_prop psm k =
       if is_undefined (lookup_prop pa k) then lookup_prop pb k else lookup_prop pa k.
Proof.
  intros (ps1 & Hps1 & Hpsm) Hpa Hpb Hne k.
  assert (Hps1' : lookup_prop ps1 k = lookup_prop pa k).
  { rewrite Hps1. unfold prop_of. cbn [keys_of get_prop].
    rewrite (deref_lookup _ _ _ Hpa), obj_get_plain. fold (lookup_prop pa k).
    cbn [obj_keys okind plain props]. case_bool_decide as Hin; [done|].
    by rewrite lookup_prop_absent. }
  rewrite Hpsm, Hps1'. unfold prop_of. cbn [keys_of get_prop].
  rewrite (deref_lookup _ _ _ (lookup_insert_other _ _ _ _ _ (not_eq_sym Hne) Hpb)).
  rewrite obj_get_plain. fold (lookup_prop pb k). cbn [obj_keys okind plain props].
  destruct (is_undefined (lookup_prop pa k)) eqn:Hu; [|done]. cbn [andb].
  case_bool_decide as Hin; [done|].
  by rewrite (is_undefined_true _ Hu), lookup_prop_absent.
Qed.

(** the two tables that line 34 merges, when they are object literals *)
Lemma error_codes_sources h ps pc builtin pb merged user hu psm hv :
  user_error_codes h ps pc →
  ERROR_CODES host = VRef builtin → h !! builtin = Some (plain pb) →
  error_codes_merged host h ps merged user hu psm hv →
  builtin ≠ merged ∧ hu !! builtin = Some (plain pb) ∧
  ∃ lu, user = VRef lu ∧ hu !! lu = Some (plain pc).
Proof.
  intros Hpc Hbuiltin Hpb (Hfresh & Hextu & _ & Huser & _).
  split; [intros ->; congruence|]. split; [by apply Hextu|].
  destruct Hpc as [[Hf ->]|(codes & Hcodes & Hpc)].
  - destruct Huser as [[Ht _]|(_ & l & -> & _ & Hl)]; [congruence|by eauto].
  - rewrite Hcodes in Huser. destruct Huser as [[_ ->]|[? _]]; [|done].
    exists codes. split; [done|by apply Hextu].
Qed.

(** Property X5.
    Lines 33-34 and 50: the builder gets a table of error codes of its own.
    It holds the caller's codes, and of the built-in codes those that the
    caller did not define: the caller's codes override the built-in ones. *)
Theorem APIBuilder_merges_error_codes options h ps pc builtin pb this h' :
  h !! options = Some (plain ps) →
  user_error_codes h ps pc →
  ERROR_CODES host = VRef builtin → h !! builtin = Some (plain pb) →
  APIBuilder host options h = (Normal this, h') →
  ∃ merged psm,
    obj_get (deref h' this) "errorCodes" = VRef merged ∧
    h !! merged = None ∧ h' !! merged = Some (plain psm) ∧
    ∀ k, lookup_prop psm k =
         if is_undefined (lookup_prop pc k) then lookup_prop pb k else lookup_prop pc k.
Proof.
  intros Hopt Hpc Hbuiltin Hpb Hrun.
  pose proof (APIBuilder_outcome_spec options h ps Hopt) as H.
  unfold wp in H. rewrite Hrun in H. cbn [fst snd APIBuilder_outcome] in H.
  destruct H as (_ & _ & _ & _ & _ & merged & user & hu & psm & hv & params & context &
                 entries & Hmerge & _ & Ht & Hm & _).
  destruct (error_codes_sources _ _ _ _ _ _ _ _ _ _ Hpc Hbuiltin Hpb Hmerge)
    as (Hne & Hpbu & lu & -> & Hlu).
  destruct Hmerge as (Hfresh & _ & _ & _ & Hcodes & _).
  exists merged, psm. rewrite (deref_lookup _ _ _ Ht). repeat (split; [done|]).
  rewrite Hbuiltin in Hcodes. by eapply merged_tables.
Qed.

(** Property X6.
    Lines 36-37 and 48-49: the builder holds the [params] and the [context]
    that were passed, and a new empty object or a new empty array for the one
    that was not (that is [undefined]; [null] is kept). *)
Theorem APIBuilder_defaults_params_and_context options h ps this h' :
  h !! options = Some (plain ps) →
  APIBuilder host options h = (Normal this, h') →
  defaulted h h' (lookup_prop ps "params") (plain []) (obj_get (deref h' this) "params") ∧
  defaulted h h' (lookup_prop ps "context") (array []) (obj_get (deref h' this) "context").
Proof.
  intros Hopt Hrun.
  pose proof (APIBuilder_outcome_spec options h ps Hopt) as H.
  unfold wp in H. rewrite Hrun in H. cbn [fst snd APIBuilder_outcome] in H.
  destruct H as (_ & _ & _ & _ & _ & merged & user & hu & psm & hv & params & context &
                 entries & _ & _ & Ht & _ & _ & _ & Hparams & Hcontext).
  by rewrite (deref_lookup _ _ _ Ht).
Qed.

(** Property X7.
    Lines 31-32: the name of a builder is a lower-case letter followed by
    lower-case letters, digits, [_] and [-], and its version is [v] followed
    by one decimal digit or more. *)
Theorem APIBuilder_name_and_version options h ps n v this h' :
  h !! options = Some (plain ps) →
  lookup_prop ps "name" = VStr n → lookup_prop ps "version" = VStr v →
  APIBuilder host options h = (Normal this, h') →
  (∃ c s', list_ascii_of_string n = c :: s' ∧
           Regex.in_class c [Regex.lower] = true ∧
           Forall (λ c, Regex.in_class c [Regex.lower; Regex.digit; Regex.only "_";
                                          Regex.only "-"]%char = true) s') ∧
  (∃ d ds, list_ascii_of_string v = "v"%char :: d :: ds ∧
           Forall (λ c, Regex.in_class c [Regex.digit] = true) (d :: ds)).
Proof.
  intros Hopt Hn Hv Hrun.
  pose proof (APIBuilder_outcome_spec options h ps Hopt) as H.
  unfold wp in H. rewrite Hrun in H. cbn [fst snd APIBuilder_outcome] in H.
  destruct H as (_ & _ & _ & _ & (hx & _ & Hname & Hversion) & _).
  rewrite Hn in Hname. rewrite Hv in Hversion. cbn [ToString] in Hname, Hversion.
  split; [by apply RegexFacts.api_name_accepts|by apply RegexFacts.api_version_accepts].
Qed.

(** ** What the constructor accepts *)

Lemma each_key_returns collection (f : value → value → M unit) keys h :
  is_nullish collection = false →
  (∀ k, k ∈ keys → f (prop_of h collection k) (VStr k) h = (Normal (), h)) →
  Lodash.each_key collection f keys h = (Normal (), h).
Proof.
  intros Hc. induction keys as [|key keys IH]; intros Hf; [done|].
  cbn [Lodash.each_key]. rewrite bind_run. unfold get.
  rewrite (get_prop_nonnullish _ _ _ Hc), bind_run, Hf by apply list_elem_of_here.
  apply IH. intros k Hk. apply Hf. by apply list_elem_of_further.
Qed.

(** [_.forEach] on an object literal without a numeric [length] visits its
    keys. *)
Lemma forEach_plain l ps (f : value → value → M unit) h :
  h !! l = Some (plain ps) →
  Lodash.isLength (lookup_prop ps "length") = None →
  Lodash.forEach (VRef l) f h = Lodash.each_key (VRef l) f (fst <$> ps) h.
Proof.
  intros Hl Hlen. unfold Lodash.forEach. rewrite bind_run. cbn [current_heap].
  unfold Lodash.isArray, Lodash.isArrayLike, instanceof_Function.
  cbn [is_nullish get_prop keys_of]. rewrite (deref_lookup _ _ _ Hl). cbn [okind plain].
  rewrite obj_get_plain. fold (lookup_prop ps "length"). by rewrite Hlen.
Qed.

(** Property X1.
    Lines 34 and 40-43: every key of the caller's table of error codes and
    of the built-in table is checked, with the value it has after the
    merge, which is the caller's value, or the built-in one where the
    caller's is [undefined] or absent.  A key that holds no upper-case
    letter, or whose merged value is not a number, makes the construction
    throw, provided that neither table has a numeric [length]. *)
Theorem APIBuilder_checks_error_codes options h ps pc builtin pb k :
  h !! options = Some (plain ps) →
  user_error_codes h ps pc →
  ERROR_CODES host = VRef builtin → h !! builtin = Some (plain pb) →
  Lodash.isLength (lookup_prop pc "length") = None →
  Lodash.isLength (lookup_prop pb "length") = None →
  k ∈ (fst <$> pc) ∨ k ∈ (fst <$> pb) →
  Regex.test Regex.error_code k = false ∨
  (∀ n, (if is_undefined (lookup_prop pc k) then lookup_prop pb k
         else lookup_prop pc k) ≠ VNum n) →
  throws (APIBuilder host options h).1 = true.
Proof.
  intros Hopt Hpc Hbuiltin Hpb Hlenc Hlenb Hk Hbad.
  pose proof (APIBuilder_outcome_spec options h ps Hopt) as H. unfold wp in H.
  destruct (APIBuilder host options h) as [[this|e] h']; [|done].
  cbn [fst snd APIBuilder_outcome] in H. exfalso.
  destruct H as (_ & _ & _ & _ & _ & merged & user & hu & psm & hv & params & context &
                 entries & Hmerge & Hvalid & _).
  destruct (error_codes_sources _ _ _ _ _ _ _ _ _ _ Hpc Hbuiltin Hpb Hmerge)
    as (Hne & Hpbu & lu & -> & Hlu).
  destruct Hmerge as (Hfresh & _ & _ & _ & Hcodes & _ & Hcovers & _ & Hmv).
  rewrite Hbuiltin in Hcodes, Hcovers.
  pose proof (merged_tables _ _ _ _ _ _ _ Hcodes Hlu Hpbu Hne) as Hvalue.
  assert (Hkm : k ∈ (fst <$> psm)).
  { apply Hcovers. cbn [keys_of].
    rewrite (deref_lookup _ _ _ Hlu), (deref_lookup _ _ _ Hpbu).
    cbn [obj_keys okind plain props].
    destruct Hk as [?|?]; [by left|right]. split; [congruence|done]. }
  assert (Hlen : Lodash.isLength (lookup_prop psm "length") = None).
  { rewrite Hvalue. by destruct (is_undefined (lookup_prop pc "length")). }
  assert (throws (Lodash.forEach (VRef merged) (validate_error_code host) hv).1 = true)
    as Hthrows.
  { rewrite (forEach_plain _ _ _ _ Hmv Hlen).
    apply (each_key_throws _ _ _ _ k); [done| |done|].
    - intros x key. apply pure_validate_error_code.
    - unfold prop_of. cbn [get_prop]. rewrite (deref_lookup _ _ _ Hmv), obj_get_plain.
      fold (lookup_prop psm k). rewrite Hvalue.
      rewrite validate_error_code_run. cbn [ToString fst].
      destruct Hbad as [-> | Hnum]; [done|].
      destruct (Regex.test _ _); [|done].
      destruct (if is_undefined (lookup_prop pc k) then lookup_prop pb k
                else lookup_prop pc k) as [| | |n| |l]; try done; [by destruct (Hnum n)|].
      cbn [typeof]. by destruct (okind _). }
  by rewrite Hvalid in Hthrows.
Qed.

Lemma accepted_error_codes_key pc k :
  forallb accepted_error_code pc = true → k ∈ (fst <$> pc) →
  Regex.test Regex.error_code k = true ∧ ∃ n, lookup_prop pc k = VNum n.
Proof.
  unfold lookup_prop. induction pc as [|[k0 v0] pc IH]; simpl; [by intros _ ?%elem_of_nil|].
  intros [[Hk0 Hv0]%andb_true_iff Hpc]%andb_true_iff Hk. simpl in Hk0, Hv0.
  destruct (String.eqb_spec k k0) as [->|Hne].
  - split; [done|]. destruct v0; try done. by eauto.
  - apply elem_of_cons in Hk as [?|Hk]; [done|]. by apply IH.
Qed.

Lemma accepted_error_codes_length pc :
  forallb accepted_error_code pc = true → lookup_prop pc "length" = VUndefined.
Proof.
  intros Hpc. apply lookup_prop_absent. intros Hk.
  by destruct (accepted_error_codes_key pc "length" Hpc Hk) as [Htest _].
Qed.

(** Property X8.
    Lines 40-43: the iteratee accepts a key that holds an upper-case letter,
    wherever it is in the key and whatever surrounds it, with a value that is
    a number, integer or not; it throws for every other entry. *)
Theorem validate_error_code_accepts v k h :
  (validate_error_code host v (VStr k) h).1 = Normal () ↔
  Exists (λ c, Regex.in_class c [Regex.upper] = true) (list_ascii_of_string k) ∧
  ∃ n, v = VNum n.
Proof.
  rewrite validate_error_code_run, <-RegexFacts.error_code_accepts. cbn [ToString fst].
  destruct (Regex.test Regex.error_code k); [|by split; [|intros []]].
  split.
  - intros Hv. split; [done|]. destruct v as [| | |n| |l]; try done; [by eauto|].
    cbn [typeof] in Hv. by destruct (okind _).
  - by intros [_ [n ->]].
Qed.

(** Property X9.
    The constructor returns a builder for every object literal that has no
    [schemaPrefix], has a [title] and a [description], a [name] and a
    [version] of the required form, and in whose table of error codes, as in
    the built-in one, every key holds an upper-case letter and every value is
    a number. *)
Theorem APIBuilder_accepts options h ps n v pc builtin pb :
  h !! options = Some (plain ps) →
  truthy (lookup_prop ps "schemaPrefix") = false →
  truthy (lookup_prop ps "title") = true →
  truthy (lookup_prop ps "description") = true →
  lookup_prop ps "name" = VStr n → Regex.test Regex.api_name n = true →
  lookup_prop ps "version" = VStr v → Regex.test Regex.api_version v = true →
  user_error_codes h ps pc → forallb accepted_error_code pc = true →
  ERROR_CODES host = VRef builtin → h !! builtin = Some (plain pb) →
  forallb accepted_error_code pb = true →
  ∃ this h', APIBuilder host options h = (Normal this, h').
Proof.
  intros Hopt Hprefix Htitle Hdescription Hn Hname Hv Hversion Hpc Hpcok Hbuiltin Hpb Hpbok.
  pose proof (APIBuilder_outcome_spec options h ps Hopt) as H. unfold wp in H.
  destruct (APIBuilder host options h) as [[this|e] h']; [by eauto|]. exfalso.
  destruct H as [_ H]. cbn [fst] in H.
  inversion H as [Hp|key Hp Hmiss|hx Hx Hbad|hx Hx _ Hbad|
                  merged user hu psm hv e' Hmerge Hvalid]; subst.
  - congruence.
  - apply first_missing_Some in Hmiss as [Hin Hfalse].
    rewrite obj_get_plain in Hfalse. fold (lookup_prop ps key) in Hfalse.
    revert Hin Hfalse. rewrite !elem_of_cons, elem_of_nil.
    intros [->|[->|[->|[->|[]]]]]; rewrite ?Hn, ?Hv; try congruence.
    + by destruct n.
    + by destruct v.
  - rewrite Hn in Hbad. cbn [ToString] in Hbad. congruence.
  - rewrite Hv in Hbad. cbn [ToString] in Hbad. congruence.
  - destruct (error_codes_sources _ _ _ _ _ _ _ _ _ _ Hpc Hbuiltin Hpb Hmerge)
      as (Hne & Hpbu & lu & -> & Hlu).
    destruct Hmerge as (Hfresh & _ & _ & _ & Hcodes & Hdomain & _ & _ & Hmv).
    rewrite Hbuiltin in Hcodes.
    pose proof (merged_tables _ _ _ _ _ _ _ Hcodes Hlu Hpbu Hne) as Hlook.
    assert (Hkeys : ∀ k, k ∈ (fst <$> psm) → k ∈ (fst <$> pc) ∨ k ∈ (fst <$> pb)).
    { intros k Hk. destruct (Hdomain k Hk) as [Hk1|[ps1 Hk2]].
      - left. revert Hk1. cbn [keys_of]. by rewrite (deref_lookup _ _ _ Hlu).
      - right. revert Hk2. rewrite Hbuiltin. cbn [keys_of].
        by rewrite (deref_lookup _ _ _ (lookup_insert_other _ _ _ _ _ (not_eq_sym Hne) Hpbu)). }
    rewrite (forEach_plain _ _ _ _ Hmv) in Hvalid.
    + rewrite each_key_returns in Hvalid; [done..|].
      intros k Hk. unfold prop_of. cbn [get_prop].
      rewrite (deref_lookup _ _ _ Hmv), obj_get_plain. fold (lookup_prop psm k).
      rewrite validate_error_code_run, Hlook. cbn [ToString].
      destruct (decide (k ∈ (fst <$> pc))) as [Hin|Hout].
      * destruct (accepted_error_codes_key pc k Hpcok Hin) as [-> [x ->]]. done.
      * rewrite (lookup_prop_absent pc k Hout). cbn [is_undefined strict_eq].
        destruct (Hkeys k Hk) as [?|Hin]; [done|].
        destruct (accepted_error_codes_key pb k Hpbok Hin) as [-> [x ->]]. done.
    + rewrite Hlook, (accepted_error_codes_length pc Hpcok),
        (accepted_error_codes_length pb Hpbok). done.
Qed.

End Construction.

(* ===================================================================== *)
(** * The checks of [declare], and what it accepts *)
(* ===================================================================== *)

Section Declaration.
Context (host : Host).

(** Property X12.
    Lines 144-146: the first of [name], [method], [route], [title] and
    [description] that is missing or falsy is reported, and nothing has been
    written. *)
Theorem declare_requires_options this options handler h key :
  first_missing (deref h options) required = Some key →
  declare host this options handler h = (Throw (must_be_provided key), h).
Proof.
  intros Hmiss. unfold declare. rewrite bind_run, require_fields_run.
  fold required. by rewrite Hmiss.
Qed.

(** Property X13.
    Lines 161-162: a truthy [deferAuth] is refused. *)
Theorem declare_rejects_deferAuth this options handler h :
  truthy (obj_get (deref h options) "deferAuth") = true →
  throws (declare host this options handler h).1 = true.
Proof.
  intros Hd. destruct (h !! options) as [o0|] eqn:Ho0.
  - pose proof (declare_outcome_spec host this options handler h o0 Ho0) as H.
    unfold wp in H.
    destruct (declare host this options handler h) as [[[]|e] h']; [|done].
    destruct H as (h1 & m & q & psm & a & es & hg & _ & _ & _ & _ & _ & Hdefer & _).
    rewrite (deref_lookup _ _ _ Ho0) in Hd. congruence.
  - by destruct (declare_dangling host this options handler h Ho0) as [e ->].
Qed.

(** Property X14.
    Lines 163-165: scopes that [ScopeExpressionTemplate.validate] refuses
    are refused. *)
Theorem declare_rejects_invalid_scopes this options handler h :
  truthy (obj_get (deref h options) "scopes") = true →
  (∀ h', frame options h h' →
         ScopeExpressionTemplate_validate host h' (obj_get (deref h options) "scopes")
           = false) →
  throws (declare host this options handler h).1 = true.
Proof.
  intros Ht Hv. destruct (h !! options) as [o0|] eqn:Ho0.
  - pose proof (declare_outcome_spec host this options handler h o0 Ho0) as H.
    unfold wp in H.
    destruct (declare host this options handler h) as [[[]|e] h']; [|done].
    destruct H as (h1 & m & q & psm & a & es & hg & _ & _ & Hframe & _ & _ & _ & Hscopes & _).
    rewrite (deref_lookup _ _ _ Ho0) in Ht, Hv.
    destruct Hscopes as [?|Hok]; [congruence|]. by rewrite Hv in Hok.
  - by destruct (declare_dangling host this options handler h Ho0) as [e ->].
Qed.

Lemma obj_get_pushed_name (h : heap) a es es' l :
  okind (deref h a) = KArray es →
  obj_get (deref (<[a := Object (KArray es') (props (deref h a))]> h) l) "name"
  = obj_get (deref h l) "name".
Proof.
  intros Hkind. destruct (decide (a = l)) as [->|Hne].
  - rewrite deref_insert_eq. unfold obj_get. by rewrite Hkind.
  - by rewrite deref_insert_ne.
Qed.

(** Property X15.
    Line 154: the end-point gets a [params] object of its own.  It holds the
    patterns declared for the end-point, and of the builder's patterns those
    that the end-point did not declare: the end-point's patterns override the
    builder's. *)
Theorem declare_merges_params this options handler h o0 pp shared sp h' :
  h !! options = Some o0 →
  own_params h options o0 pp →
  obj_get (deref h this) "params" = VRef shared → shared ≠ options →
  h !! shared = Some (plain sp) →
  declare host this options handler h = (Normal (), h') →
  ∃ m psm,
    obj_get (deref h' options) "params" = VRef m ∧
    h !! m = None ∧ h' !! m = Some (plain psm) ∧
    ∀ k, lookup_prop psm k =
         if is_undefined (lookup_prop pp k) then lookup_prop sp k else lookup_prop pp k.
Proof.
  intros Ho0 Hpp Hshared Hne Hsp Hrun.
  pose proof (declare_outcome_spec host this options handler h o0 Ho0) as H.
  unfold wp in H. rewrite Hrun in H. cbn [fst snd declare_outcome] in H.
  destruct H as (h1 & m & q & psm & a & es & hg & _ & _ & _ & _ & _ & _ & _ & Hstaged & Ha & Hk
                 & _ & _ & ->).
  destruct Hstaged as (Ho1 & Hrest & Hm0 & Hm1 & Hmerged & _).
  exists m, psm. rewrite obj_get_pushed by ordinary_key.
  rewrite (deref_lookup _ _ _ Ho1).
  destruct (prepared_fields o0 (VRef m) q handler) as (_ & -> & _).
  split; [done|]. split; [done|]. split.
  { rewrite lookup_insert_ne; [done|].
    intros ->. rewrite (deref_lookup _ _ _ Hm1) in Hk. discriminate. }
  destruct Hmerged as (own & hd & Hod & Hrestd & _ & Hown & Hcodes).
  assert (Hshared' : obj_get (deref hd this) "params" = VRef shared).
  { destruct (decide (this = options)) as [->|Hto].
    - rewrite (deref_lookup _ _ _ Hod). rewrite (deref_lookup _ _ _ Ho0) in Hshared.
      rewrite <-Hshared. unfold with_default_stability.
      destruct (truthy (obj_get o0 "stability")); [done|].
      by rewrite obj_get_set_ne by key_side.
    - destruct (h !! this) as [ot|] eqn:Hthis.
      + unfold deref in Hshared |- *. by rewrite (Hrestd _ Hto) by (rewrite Hthis; eauto).
      + unfold deref in Hshared. by rewrite Hthis in Hshared. }
  rewrite Hshared' in Hcodes.
  assert (Hspd : hd !! shared = Some (plain sp)) by by rewrite (Hrestd _ Hne) by eauto.
  assert (shared ≠ m) by (intros ->; congruence).
  destruct Hpp as [[Hf ->]|(l & Hl & Hlo & Hpl)].
  - destruct Hown as [[Ht _]|(_ & l & -> & _ & Hl)]; [congruence|].
    by eapply merged_tables.
  - rewrite Hl in Hown. destruct Hown as [[_ ->]|[? _]]; [|done].
    eapply merged_tables; [done| |done..]. by rewrite (Hrestd _ Hlo) by eauto.
Qed.

(** Property X16.
    What a call of [declare] leaves alone: when it throws, everything but
    new objects and four properties of [options]; when it returns,
    every object but [options] and the array of entries. *)
Theorem declare_frame this options handler h es a :
  entries_of h this = Some es →
  obj_get (deref h this) "entries" = VRef a →
  match declare host this options handler h with
  | (Throw _, h') => frame options h h'
  | (Normal _, h') => ∀ l, l ≠ options → l ≠ a → is_Some (h !! l) → h' !! l = h !! l
  end.
Proof.
  intros Hes Ha. pose proof (declare_inv host this options handler h es Hes) as H.
  destruct (declare host this options handler h) as [[[]|e] h']; [|done].
  destruct H as (o0 & h1 & m & q & a' & oa & Ho0 & _ & _ & _ & Ho1 & Hf & _ & _ & Ha' & _ & _ & _
                 & _ & ->).
  assert (a' = a) as ->.
  { pose proof (entries_of_frame _ _ _ _ _ Hf Hes) as Hes1.
    apply entries_of_Some in Hes as (o & b & ob & Ho & Hb & _).
    rewrite (deref_lookup _ _ _ Ho), Hb in Ha. injection Ha as ->.
    destruct (decide (this = options)) as [->|Hto].
    - rewrite (deref_lookup _ _ _ Ho1) in Ha'. rewrite Ho0 in Ho. injection Ho as ->.
      rewrite obj_get_prepared_other in Ha' by apply not_written_entries. congruence.
    - destruct Hf as [Hrest _]. unfold deref in Ha'.
      rewrite (Hrest _ Hto), Ho in Ha' by eauto. simpl in Ha'. congruence. }
  intros l Hlo Hla Hin. rewrite lookup_insert_ne by done. by apply Hf.
Qed.

(** ** A registry without two entries of one name *)

Lemma pairwise_snoc {A} (differ : A → A → bool) xs y :
  pairwise differ (xs ++ [y]) = pairwise differ xs && forallb (λ x, differ x y) xs.
Proof.
  induction xs as [|x xs IH]; [done|]. cbn [app pairwise forallb].
  rewrite IH, forallb_app. cbn [forallb]. rewrite andb_true_r.
  generalize (forallb (differ x) xs) (differ x y) (pairwise differ xs)
    (forallb (λ x0, differ x0 y) xs).
  by intros [] [] [] [].
Qed.

Lemma pairwise_distinct_snoc vs w :
  pairwise_distinct (vs ++ [w]) =
  pairwise_distinct vs && forallb (λ v, negb (strict_eq v w)) vs.
Proof. apply pairwise_snoc. Qed.

Lemma entry_names_snoc h es entry :
  entry_names h (es ++ [entry]) = entry_names h es ++ [prop_of h entry "name"].
Proof. unfold entry_names. by rewrite fmap_app. Qed.

(** Property X17.
    The entries of a builder do not share a name: if the names of the
    entries are pairwise different before a call of [declare] that returns,
    so are they afterwards, the new one included. *)
Theorem declare_keeps_names_distinct this options handler h es h' :
  entries_of h this = Some es →
  Forall (in_heap h) es →
  pairwise_distinct (entry_names h es) = true →
  declare host this options handler h = (Normal (), h') →
  entries_of h' this = Some (es ++ [VRef options]) ∧
  pairwise_distinct (entry_names h' (es ++ [VRef options])) = true.
Proof.
  intros Hes Hin Hdistinct Hrun.
  pose proof (declare_entries host this options handler h es Hes) as Hat.
  pose proof (declare_inv host this options handler h es Hes) as Hinv.
  rewrite Hrun in Hat, Hinv. split; [done|].
  destruct Hinv as (o0 & h1 & m & q & a & oa & Ho0 & _ & _ & _ & Ho1 & Hf & Hreq & _ & _ & Hoa
                    & Hkind & _ & Hnames & ->).
  rewrite <-(deref_lookup _ _ _ Hoa) in Hkind |- *.
  assert (Hstable : ∀ l, is_Some (h !! l) →
            obj_get (deref (<[a := Object (KArray (es ++ [VRef options]))
                                           (props (deref h1 a))]> h1) l) "name"
            = obj_get (deref h l) "name").
  { intros l Hl. rewrite (obj_get_pushed_name _ _ _ _ _ Hkind).
    destruct (decide (l = options)) as [->|Hne].
    - rewrite (deref_lookup _ _ _ Ho1), (deref_lookup _ _ _ Ho0).
      apply obj_get_prepared_other. not_in_list.
    - destruct Hf as [Hrest _]. unfold deref. by rewrite (Hrest _ Hne). }
  assert (Hold : ∀ entry, entry ∈ es →
            prop_of (<[a := Object (KArray (es ++ [VRef options]))
                                   (props (deref h1 a))]> h1) entry "name"
            = prop_of h entry "name").
  { intros entry Hentry. rewrite Forall_forall in Hin. specialize (Hin _ Hentry).
    destruct entry as [| | | | |l]; try done. unfold prop_of. cbn [get_prop].
    by apply Hstable. }
  rewrite entry_names_snoc, pairwise_distinct_snoc.
  assert (Hmap : entry_names (<[a := Object (KArray (es ++ [VRef options]))
                                            (props (deref h1 a))]> h1) es
                 = entry_names h es).
  { unfold entry_names. apply list_fmap_ext. intros i entry Hi. apply Hold.
    by eapply list_elem_of_lookup_2. }
  rewrite Hmap, Hdistinct. cbn [andb].
  apply forallb_forall. intros v Hv. apply list_elem_of_In in Hv.
  apply list_elem_of_fmap in Hv as (entry & -> & Hentry).
  specialize (Hnames _ Hentry). revert Hnames.
  unfold prop_of at 2. cbn [get_prop]. rewrite Hstable by eauto.
  unfold same_name. rewrite !bind_run. unfold get at 1.
  destruct (get_prop h1 entry "name") as [n|e] eqn:Hn; [|done].
  rewrite bind_run. unfold get. cbn [get_prop mret M_ret ret fst].
  rewrite (deref_lookup _ _ _ Ho1), (deref_lookup _ _ _ Ho0).
  rewrite obj_get_prepared_other by not_in_list.
  assert (n = prop_of h entry "name") as ->.
  { rewrite Forall_forall in Hin. specialize (Hin _ Hentry). unfold prop_of.
    destruct entry as [| | | | |l];
      try (cbn [get_prop] in Hn |- *; first [done|congruence|by rewrite Hn]).
    cbn [get_prop] in Hn |- *. injection Hn as <-.
    rewrite <-(Hstable l Hin). by rewrite (obj_get_pushed_name _ _ _ _ _ Hkind). }
  intros [= ->]. done.
Qed.

(** ** A registry without two entries of one route and method *)

Lemma same_route_and_method_run options entry h :
  is_nullish entry = false →
  (same_route_and_method host options entry h).1 =
  Normal (loose_eq host h (prop_of h entry "route") (obj_get (deref h options) "route") &&
          loose_eq host h (prop_of h entry "method") (obj_get (deref h options) "method")).
Proof.
  intros Hnn. unfold same_route_and_method, mbind, M_bind, bind, get, current_heap.
  rewrite (get_prop_nonnullish _ _ _ Hnn). cbn [get_prop fst snd].
  destruct (loose_eq host h (prop_of h entry "route") (obj_get (deref h options) "route"));
    [|reflexivity].
  by rewrite (get_prop_nonnullish _ _ _ Hnn).
Qed.

Lemma entry_routes_snoc h es entry :
  entry_routes h (es ++ [entry])
  = entry_routes h es ++ [(prop_of h entry "route", prop_of h entry "method")].
Proof. unfold entry_routes. by rewrite fmap_app. Qed.

(** Property X18.
    No two entries of a builder have the same route and the same method:
    if that holds before a call of [declare] that returns, it holds
    afterwards, the new entry included.  (Routes and methods are strings,
    between which [==] is [===].) *)
Theorem declare_keeps_routes_distinct this options handler h es h' :
  entries_of h this = Some es →
  Forall (in_heap h) es →
  string_routes (entry_routes h (es ++ [VRef options])) = true →
  routes_distinct (entry_routes h es) = true →
  declare host this options handler h = (Normal (), h') →
  entry_routes h' (es ++ [VRef options]) = entry_routes h (es ++ [VRef options]) ∧
  routes_distinct (entry_routes h' (es ++ [VRef options])) = true.
Proof.
  intros Hes Hin Hstrings Hdistinct Hrun.
  pose proof (declare_inv host this options handler h es Hes) as Hinv.
  rewrite Hrun in Hinv.
  destruct Hinv as (o0 & h1 & m & q & a & oa & Ho0 & _ & _ & _ & Ho1 & Hf & _ & _ & _ & Hoa
                    & _ & Hident & _ & ->).
  rewrite <-(deref_lookup _ _ _ Hoa).
  assert (Hget1 : ∀ l k, is_Some (h !! l) → k ∉ written →
            obj_get (deref h1 l) k = obj_get (deref h l) k).
  { intros l k Hl Hk. destruct (decide (l = options)) as [->|Hne].
    - rewrite (deref_lookup _ _ _ Ho1), (deref_lookup _ _ _ Ho0).
      by apply obj_get_prepared_other.
    - destruct Hf as [Hrest _]. unfold deref. by rewrite (Hrest _ Hne). }
  assert (Hprop1 : ∀ entry k, in_heap h entry → k ∉ written →
            prop_of h1 entry k = prop_of h entry k).
  { intros entry k Hentry Hk. destruct entry as [| | | | |l]; try done.
    unfold prop_of. cbn [get_prop]. by apply Hget1. }
  assert (Hprop : ∀ entry k, in_heap h entry → ordinary k → k ∉ written →
            prop_of (<[a := Object (KArray (es ++ [VRef options])) (props (deref h1 a))]> h1)
                    entry k = prop_of h entry k).
  { intros entry k Hentry Hord Hk. rewrite <-(Hprop1 entry k Hentry Hk).
    destruct entry as [| | | | |l]; try done.
    unfold prop_of. cbn [get_prop]. by apply obj_get_pushed. }
  assert (Hall : Forall (in_heap h) (es ++ [VRef options])).
  { apply Forall_app. split; [done|]. constructor; [by eexists|constructor]. }
  assert (Hsame : entry_routes (<[a := Object (KArray (es ++ [VRef options]))
                                            (props (deref h1 a))]> h1) (es ++ [VRef options])
                  = entry_routes h (es ++ [VRef options])).
  { unfold entry_routes. apply list_fmap_ext. intros i entry Hi.
    rewrite Forall_forall in Hall. specialize (Hall entry (list_elem_of_lookup_2 _ _ _ Hi)).
    by rewrite !Hprop by first [ordinary_key|not_in_list|done]. }
  split; [done|]. rewrite Hsame.
  rewrite entry_routes_snoc in Hstrings |- *.
  unfold routes_distinct. rewrite pairwise_snoc.
  fold (routes_distinct (entry_routes h es)). rewrite Hdistinct. cbn [andb].
  unfold string_routes in Hstrings. rewrite forallb_app in Hstrings.
  apply andb_true_iff in Hstrings as [Hstrings Hnew]. cbn [forallb fst snd] in Hnew.
  rewrite forallb_forall in Hstrings.
  apply forallb_forall. intros r Hr. pose proof (Hstrings r Hr) as Hstr.
  apply list_elem_of_In, list_elem_of_fmap in Hr as (entry & -> & Hentry).
  cbn [fst snd] in Hstr |- *.
  rewrite Forall_forall in Hin. pose proof (Hin _ Hentry) as Hentry_in.
  specialize (Hident _ Hentry). revert Hident.
  assert (is_nullish entry = false) as Hnn.
  { destruct entry; try done; by vm_compute in Hstr. }
  rewrite (same_route_and_method_run _ _ _ Hnn).
  rewrite !Hprop1, (deref_lookup _ _ _ Ho1) by first [not_in_list|done].
  rewrite !obj_get_prepared_other by not_in_list.
  assert (∀ k, prop_of h (VRef options) k = obj_get o0 k) as Ho.
  { intros k. unfold prop_of. cbn [get_prop]. by rewrite (deref_lookup _ _ _ Ho0). }
  rewrite !Ho in *.
  destruct (prop_of h entry "route") as [| | | |r|]; try done.
  destruct (prop_of h entry "method") as [| | | |md|]; try done.
  destruct (obj_get o0 "route") as [| | | |r'|]; try done.
  destruct (obj_get o0 "method") as [| | | |md'|]; try done.
  unfold loose_eq. cbn [same_type strict_eq]. by intros [= ->].
Qed.

(** ** What [declare] accepts *)

Lemma array_elems_entries h this es :
  entries_of h this = Some es →
  (array_elems (obj_get (deref h this) "entries") h).1 = Normal es.
Proof.
  intros (o & a & oa & Ho & Ha & Hoa & Hk)%entries_of_Some.
  rewrite (deref_lookup _ _ _ Ho), Ha. unfold array_elems.
  by rewrite (deref_lookup _ _ _ Hoa), Hk.
Qed.

Lemma stability_accepted o0 :
  truthy (obj_get o0 "stability") = false ∨ obj_get o0 "stability" ∈ STABILITY_LEVELS →
  indexOf STABILITY_LEVELS (obj_get (with_default_stability o0) "stability") ≠ (-1)%Z.
Proof.
  rewrite stability_with_default. intros [->|Hin]; [done|].
  rewrite (STABILITY_LEVELS_truthy _ Hin). revert Hin.
  unfold STABILITY_LEVELS, Lodash.values, stability. simpl.
  rewrite !elem_of_cons, elem_of_nil. by intros [->|[->|[->|[]]]].
Qed.

Lemma is_validator_in_heap h v : is_validator h v = true → in_heap h v.
Proof.
  destruct v as [| | | | |l]; try done. unfold is_validator, in_heap.
  unfold instanceof_RegExp, instanceof_Function, deref.
  by destruct (h !! l).
Qed.

Lemma validators_key h psq k :
  forallb (λ kv, is_validator h kv.2) psq = true → k ∈ (fst <$> psq) →
  is_validator h (lookup_prop psq k) = true.
Proof.
  unfold lookup_prop. induction psq as [|[k0 v0] psq IH]; simpl; [by intros _ ?%elem_of_nil|].
  intros [Hv0 Hpsq]%andb_true_iff Hk.
  destruct (String.eqb_spec k k0) as [->|Hne]; [done|].
  apply elem_of_cons in Hk as [?|Hk]; [done|]. by apply IH.
Qed.

Lemma validators_length h psq :
  forallb (λ kv, is_validator h kv.2) psq = true →
  Lodash.isLength (lookup_prop psq "length") = None.
Proof.
  intros Hpsq. destruct (decide ("length" ∈ (fst <$> psq))) as [Hin|Hout].
  - pose proof (validators_key h psq "length" Hpsq Hin) as Hv.
    by destruct (lookup_prop psq "length").
  - by rewrite lookup_prop_absent.
Qed.

Lemma same_name_run options entry h :
  is_nullish entry = false →
  (same_name options entry h).1 =
  Normal (strict_eq (prop_of h entry "name") (obj_get (deref h options) "name")).
Proof.
  intros Hnn. unfold same_name, mbind, M_bind, bind, get.
  by rewrite (get_prop_nonnullish _ _ _ Hnn).
Qed.

Lemma filterM_returns p xs h :
  (∀ x, pure_action (p x)) →
  (∀ x, x ∈ xs → ∃ b, (p x h).1 = Normal b) →
  ∃ ys, (filterM p xs h).1 = Normal ys.
Proof.
  intros Hp. induction xs as [|x xs IH]; intros Hxs; cbn [filterM]; [by eexists|].
  rewrite bind_run. pose proof (Hp x h) as Hh.
  destruct (Hxs x ltac:(apply list_elem_of_here)) as [keep Hx].
  destruct (p x h) as [r h1]; cbn [fst snd] in Hx, Hh; subst r h1.
  rewrite bind_run. pose proof (pure_filterM p xs Hp h) as Hh.
  destruct IH as [rest Hrest]; [intros y Hy; apply Hxs; by apply list_elem_of_further|].
  destruct (filterM p xs h) as [r h1]; cbn [fst snd] in Hrest, Hh; subst r h1.
  by eexists.
Qed.

Lemma someM_returns p xs h :
  (∀ x, pure_action (p x)) →
  (∀ x, x ∈ xs → ∃ b, (p x h).1 = Normal b) →
  ∃ b, (someM p xs h).1 = Normal b.
Proof.
  intros Hp. induction xs as [|x xs IH]; intros Hxs; cbn [someM]; [by eexists|].
  rewrite bind_run. pose proof (Hp x h) as Hh.
  destruct (Hxs x ltac:(apply list_elem_of_here)) as [found Hx].
  destruct (p x h) as [r h1]; cbn [fst snd] in Hx, Hh; subst r h1.
  destruct found; [by eexists|].
  apply IH. intros y Hy. apply Hxs. by apply list_elem_of_further.
Qed.

(** A well-formed end-point passes every check before the registry is
    consulted: if the call throws, it does so in lines 167-172. *)
Lemma well_formed_failure this options handler h o0 es e h' :
  entries_of h this = Some es →
  well_formed host h options o0 →
  frame options h h' →
  declare_failure host this options handler h o0 e h' →
  ∃ m q psm,
    declare_staged this options h o0 m q psm h' (prepared o0 (VRef m) q handler) ∧
    ((filterM (same_route_and_method host options) es h').1 = Throw e ∨
     (∃ x xs, (filterM (same_route_and_method host options) es h').1 = Normal (x :: xs)) ∧
       e = Error "Identical route and method declaration." ∨
     (someM (same_name options) es h').1 = Throw e ∨
     (someM (same_name options) es h').1 = Normal true ∧
       e = Error "This function has already been declared.").
Proof.
  intros Hes (Ho0 & Hreq & Hstab & Hquery & Hdefer & Hscopes) Hframe H.
  assert (Hentries : (array_elems (obj_get (deref h' this) "entries") h').1 = Normal es).
  { by eapply array_elems_entries, entries_of_frame. }
  inversion H as [key Hmiss|? Hbad|m q psm ? ? Hstaged Hvalid|? Hd|? Ht Hv|
                  m q psm ? ? Hstaged Helems|m q psm ? es1 ? Hstaged Helems Hfilter|
                  m q psm ? es1 x xs Hstaged Helems Hfilter|
                  m q psm ? es1 ? Hstaged Helems Hsome|m q psm ? es1 Hstaged Helems Hsome];
    subst; try congruence.
  - by destruct (stability_accepted o0 Hstab).
  - exfalso. destruct Hstaged as (Ho1 & Hrest & _ & _ & _ & Hq).
    destruct Hq as [[Ht ->]|(Hf & ql & -> & _ & _ & Hql)].
    + destruct Hquery as [?|(ql & psq & Hq & Hne & Hql & Hpsq)]; [congruence|].
      rewrite Hq in Hvalid.
      assert (Hqlg : h' !! ql = Some (plain psq)) by by rewrite Hrest by eauto.
      rewrite (forEach_plain _ _ _ _ Hqlg (validators_length _ _ Hpsq)) in Hvalid.
      rewrite each_key_returns in Hvalid; [done..|].
      intros k Hk. unfold prop_of. cbn [get_prop].
      rewrite (deref_lookup _ _ _ Hqlg), obj_get_plain. fold (lookup_prop psq k).
      rewrite validate_query_run.
      pose proof (validators_key _ _ _ Hpsq Hk) as Hv.
      by rewrite (is_validator_frame _ _ _ _ Hframe (is_validator_in_heap _ _ Hv)), Hv.
    + rewrite (forEach_plain _ _ _ _ Hql) in Hvalid; done.
  - destruct Hscopes as [?|Hok]; [congruence|]. by rewrite Hok in Hv.
  - rewrite Hentries in Helems. injection Helems as <-. exists m, q, psm. by eauto.
  - rewrite Hentries in Helems. injection Helems as <-. exists m, q, psm. by eauto 10.
  - rewrite Hentries in Helems. injection Helems as <-. exists m, q, psm. by eauto 10.
  - rewrite Hentries in Helems. injection Helems as <-. exists m, q, psm. by eauto 10.
Qed.

Lemma declare_returns this options handler h o0 es :
  entries_of h this = Some es →
  well_formed host h options o0 →
  unregistered host h o0 es →
  ∃ h', declare host this options handler h = (Normal (), h') ∧
        entries_of h' this = Some (es ++ [VRef options]).
Proof.
  intros Hes Hwf Hunreg. pose proof Hwf as (Ho0 & Hreq & _).
  pose proof (declare_entries host this options handler h es Hes) as Hat.
  pose proof (declare_outcome_spec host this options handler h o0 Ho0) as H. unfold wp in H.
  destruct (declare host this options handler h) as [[[]|e] h']; [by eauto|]. exfalso.
  destruct H as [Hframe H]. cbn [fst snd] in H, Hframe.
  destruct (well_formed_failure _ _ _ _ _ _ _ _ Hes Hwf Hframe H)
    as (m & q & psm & (Ho1 & Hrest & _) & Hregistry).
  assert (Hname : truthy (obj_get o0 "name") = true).
  { apply (proj1 (first_missing_None _ _) Hreq). in_list. }
  assert (Hother : ∀ x, x ∈ es →
            (same_route_and_method host options x h').1 = Normal false ∧
            (same_name options x h').1 = Normal false).
  { intros x Hx. destruct (Hunreg x Hx) as (e0 & oe & -> & Hoe & Hne & Hroute).
    assert (e0 ≠ options).
    { intros ->. rewrite Ho0 in Hoe. injection Hoe as <-.
      by rewrite strict_eq_refl in Hne. }
    assert (Hoe' : h' !! e0 = Some oe) by by rewrite Hrest, Hoe by eauto.
    rewrite same_route_and_method_run, same_name_run by done.
    unfold prop_of. cbn [get_prop].
    rewrite (deref_lookup _ _ _ Hoe'), (deref_lookup _ _ _ Ho1).
    rewrite !obj_get_prepared_other by not_in_list. by rewrite Hroute, Hne. }
  assert ((filterM (same_route_and_method host options) es h').1 = Normal []) as Hfilter.
  { apply (filterM_none _ _ _ (pure_same_route_and_method host options)).
    intros x Hx. by apply Hother. }
  assert ((someM (same_name options) es h').1 = Normal false) as Hsome.
  { apply (someM_none _ _ _ (pure_same_name options)). intros x Hx. by apply Hother. }
  destruct Hregistry as [?|[[(x & xs & ?) _]|[?|[? _]]]]; congruence.
Qed.

(** Property X19.
    A well-formed end-point is refused only as a duplicate: of a route with
    its method, or else of a name.  The entries are then as they were, but
    the end-point is not: line 166 has attached the handler before the
    registry is consulted. *)
Theorem declare_refuses_only_duplicates this options handler h o0 es :
  entries_of h this = Some es →
  well_formed host h options o0 →
  Forall (λ entry, is_nullish entry = false) es →
  match declare host this options handler h with
  | (Normal _, _) => True
  | (Throw e, h') =>
      (e = Error "Identical route and method declaration." ∨
       e = Error "This function has already been declared.") ∧
      obj_get (deref h' options) "handler" = handler ∧
      entries_of h' this = Some es
  end.
Proof.
  intros Hes Hwf Hobjects. pose proof Hwf as (Ho0 & _).
  pose proof (declare_entries host this options handler h es Hes) as Hat.
  pose proof (declare_outcome_spec host this options handler h o0 Ho0) as H. unfold wp in H.
  destruct (declare host this options handler h) as [[[]|e] h']; [done|].
  destruct H as [Hframe H]. cbn [fst snd] in H, Hframe.
  destruct (well_formed_failure _ _ _ _ _ _ _ _ Hes Hwf Hframe H)
    as (m & q & psm & (Ho1 & _) & Hregistry).
  rewrite Forall_forall in Hobjects.
  split; [|split; [|done]].
  - destruct (filterM_returns _ es h' (pure_same_route_and_method host options)) as [ys Hys].
    { intros x Hx. rewrite same_route_and_method_run by by apply Hobjects. by eexists. }
    destruct (someM_returns _ es h' (pure_same_name options)) as [b Hb].
    { intros x Hx. rewrite same_name_run by by apply Hobjects. by eexists. }
    destruct Hregistry as [?|[[_ ->]|[?|[_ ->]]]]; [congruence|by left|congruence|by right].
  - rewrite (deref_lookup _ _ _ Ho1).
    by destruct (prepared_fields o0 (VRef m) q handler) as (_ & _ & _ & ->).
Qed.

(** Property X20.
    [declare] registers every well-formed end-point whose name, and whose
    route with its method, no entry of the builder has. *)
Theorem declare_accepts this options handler h o0 es :
  entries_of h this = Some es →
  well_formed host h options o0 →
  unregistered host h o0 es →
  ∃ h', declare host this options handler h = (Normal (), h') ∧
        entries_of h' this = Some (es ++ [VRef options]).
Proof. apply declare_returns. Qed.

(** ** Builders and their registries *)

(** Property X21.
    A new builder accepts every well-formed end-point: it has no entry the
    end-point could clash with. *)
Theorem first_declare options h ps this h1 endpoint o0 handler :
  h !! options = Some (plain ps) →
  APIBuilder host options h = (Normal this, h1) →
  well_formed host h1 endpoint o0 →
  ∃ h2, declare host this endpoint handler h1 = (Normal (), h2) ∧
        entries_of h2 this = Some [VRef endpoint].
Proof.
  intros Hopt Hrun Hwf.
  pose proof (APIBuilder_spec host options h ps Hopt) as H.
  unfold wp in H. rewrite Hrun in H. cbn [fst snd APIBuilder_post] in H.
  destruct H as (_ & merged & user & hu & psm & hv & Hconstructed & _).
  destruct Hconstructed as (params & context & entries & Hthis & Hentries).
  assert (Hes : entries_of h1 this = Some []).
  { unfold entries_of. rewrite Hthis. cbn. by rewrite Hentries. }
  apply (declare_returns this endpoint handler h1 o0 [] Hes Hwf).
  intros entry Hentry. by apply elem_of_nil in Hentry.
Qed.

Lemma entries_of_other_builder this other options handler h es es' :
  entries_of h this = Some es →
  entries_of h other = Some es' →
  obj_get (deref h this) "entries" ≠ obj_get (deref h other) "entries" →
  entries_of (declare host this options handler h).2 other = Some es'.
Proof.
  intros Hes Hes' Hdiff.
  pose proof (declare_inv host this options handler h es Hes) as H.
  destruct (declare host this options handler h) as [[[]|e] h']; cbn [snd];
    [|by eapply entries_of_frame].
  destruct H as (o0 & h1 & m & q & a & oa & Ho0 & _ & _ & _ & Ho1 & Hf & _ & _ & Ha & Hoa & _ & _
                 & _ & ->).
  pose proof (entries_of_frame _ _ _ _ _ Hf Hes) as Hes1.
  pose proof (entries_of_frame _ _ _ _ _ Hf Hes') as Hes1'.
  assert (Hsame : ∀ b xs, entries_of h b = Some xs → entries_of h1 b = Some xs →
            obj_get (deref h1 b) "entries" = obj_get (deref h b) "entries").
  { intros b xs Hb. apply entries_of_Some in Hb as (o & ab & oab & Ho & Hab & _).
    intros (o1 & ab1 & oab1 & Ho1' & Hab1 & _)%entries_of_Some.
    rewrite (deref_lookup _ _ _ Ho), (deref_lookup _ _ _ Ho1'), Hab, Hab1.
    destruct (decide (b = options)) as [->|Hne].
    - rewrite Ho1 in Ho1'. injection Ho1' as <-. rewrite Ho0 in Ho. injection Ho as <-.
      rewrite obj_get_prepared_other in Hab1 by apply not_written_entries. congruence.
    - destruct Hf as [Hrest _]. rewrite (Hrest _ Hne), Ho in Ho1' by eauto.
      injection Ho1' as <-. congruence. }
  rewrite <-(Hsame _ _ Hes Hes1), <-(Hsame _ _ Hes' Hes1'), Ha in Hdiff.
  apply entries_of_Some in Hes1' as (o & b & ob & Ho & Hb & Hob & Hk).
  rewrite (deref_lookup _ _ _ Ho), Hb in Hdiff.
  assert (Hab : a ≠ b) by congruence.
  apply entries_of_Some.
  destruct (decide (a = other)) as [->|Hao].
  - rewrite Hoa in Ho. injection Ho as <-.
    exists (Object (KArray (es ++ [VRef options])) (props oa)), b, ob.
    rewrite lookup_insert_eq, lookup_insert_ne by done. repeat (split; [done|]).
    split; [|done]. rewrite obj_get_ordinary in Hb |- * by ordinary_key. done.
  - exists o, b, ob. by rewrite !lookup_insert_ne by done.
Qed.

(** Property X22.
    A call of [declare] on one builder leaves the entries of every builder
    that has another array of entries as they are. *)
Theorem declare_leaves_other_builders this other options handler h es es' :
  entries_of h this = Some es →
  entries_of h other = Some es' →
  obj_get (deref h this) "entries" ≠ obj_get (deref h other) "entries" →
  entries_of (declare host this options handler h).2 other = Some es'.
Proof. apply entries_of_other_builder. Qed.

(** Property X23.
    Two builders do not share a registry: a call of [declare] on the first
    leaves the second without entries. *)
Theorem builders_are_independent options1 options2 h ps1 ps2 first h1 second h2
    endpoint handler :
  h !! options1 = Some (plain ps1) →
  APIBuilder host options1 h = (Normal first, h1) →
  h1 !! options2 = Some (plain ps2) →
  APIBuilder host options2 h1 = (Normal second, h2) →
  entries_of (declare host first endpoint handler h2).2 second = Some [].
Proof.
  intros Hopt1 Hrun1 Hopt2 Hrun2.
  pose proof (APIBuilder_outcome_spec host options1 h ps1 Hopt1) as H1.
  unfold wp in H1. rewrite Hrun1 in H1. cbn [fst snd APIBuilder_outcome] in H1.
  destruct H1 as (_ & _ & _ & _ & _ & merged1 & user1 & hu1 & psm1 & hv1 & params1 & context1 &
                  entries1 & _ & _ & Ht1 & _ & _ & He1 & _).
  pose proof (APIBuilder_outcome_spec host options2 h1 ps2 Hopt2) as H2.
  unfold wp in H2. rewrite Hrun2 in H2. cbn [fst snd APIBuilder_outcome] in H2.
  destruct H2 as (Hext & _ & _ & _ & _ & merged2 & user2 & hu2 & psm2 & hv2 & params2 & context2 &
                  entries2 & _ & _ & Ht2 & _ & Hfresh2 & He2 & _).
  pose proof (Hext _ _ Ht1) as Ht1'. pose proof (Hext _ _ He1) as He1'.
  apply (entries_of_other_builder first second endpoint handler h2 [] []).
  - unfold entries_of. rewrite Ht1'. cbn. by rewrite He1'.
  - unfold entries_of. rewrite Ht2. cbn. by rewrite He2.
  - rewrite (deref_lookup _ _ _ Ht1'), (deref_lookup _ _ _ Ht2). cbn.
    intros [= ->]. congruence.
Qed.

End Declaration.

(* ===================================================================== *)
(** * [build] *)
(* ===================================================================== *)

Section Build.
Context (host : Host).

(** Claim C8.  Let [new API(options)] return [service].  If [options.publish]
    is then truthy, [build] calls [publish] once, after the constructor, and
    the promise it returns follows the awaited one: fulfilled with [service]
    when [publish] is fulfilled, rejected with the same cause when [publish]
    is rejected, pending as long as [publish] is.  If [options.publish] is
    falsy, [publish] is not called and the promise is fulfilled with
    [service]. *)
Theorem build_publish this options h service h2 :
  API host options (<[options := obj_set (deref h options) "api" (VRef this)]> h)
    = (Normal service, h2) →
  let '(result, _, calls) := build host this options h in
  if truthy (obj_get (deref h2 options) "publish") then
    calls = [CallAPI options; CallPublish service] ∧ publish_calls calls = 1 ∧
    match (publish host service h2).1 with
    | Fulfilled _ => result = Fulfilled service
    | Rejected cause => result = Rejected cause
    | Pending => result = Pending
    end
  else
    calls = [CallAPI options] ∧ publish_calls calls = 0 ∧ result = Fulfilled service.
Proof.
  intros HAPI. unfold build. rewrite HAPI.
  destruct (truthy (obj_get (deref h2 options) "publish")); [|done].
  by destruct (publish host service h2) as [[v|cause|] h3].
Qed.

(** When the constructor throws, the promise is rejected with what it threw
    and [publish] is not called. *)
Lemma build_constructor_throws this options h e h2 :
  API host options (<[options := obj_set (deref h options) "api" (VRef this)]> h)
    = (Throw e, h2) →
  build host this options h = (Rejected e, h2, [CallAPI options]).
Proof. intros HAPI. unfold build. by rewrite HAPI. Qed.

End Build.


(* ===================================================================== *)
(** * The widget service: the specification on concrete calls *)
(* ===================================================================== *)

Import Widgets.

(** ** The examples of the specification *)

Example api_name_examples :
  Regex.test Regex.api_name "widgets" = true ∧
  Regex.test Regex.api_name "Bad Name" = false ∧
  Regex.test Regex.api_name "1abc" = false.
Proof. vm_compute. by repeat split. Qed.

Example api_version_examples :
  Regex.test Regex.api_version "v1" = true ∧
  Regex.test Regex.api_version "1" = false ∧
  Regex.test Regex.api_version "version1" = false.
Proof. vm_compute. by repeat split. Qed.

Example construct_widgets :
  (APIBuilder host 2%positive heap0).1 = Normal 52%positive ∧
  (APIBuilder host 3%positive heap0).1
    = Throw (AssertionError ("api name " +:+ dquote +:+ "Bad Name" +:+ dquote +:+ " is not valid")) ∧
  (APIBuilder host 4%positive heap0).1
    = Throw (AssertionError ("api version " +:+ dquote +:+ "version1" +:+ dquote +:+ " is not valid")).
Proof. vm_compute. by repeat split. Qed.

(** error codes that construction refuses: a key without an upper-case
    letter, a value that is a string *)
Example construct_error_codes :
  (APIBuilder host 44%positive heap0).1
    = Throw (AssertionError "Invalid error code: teapot") ∧
  (APIBuilder host 46%positive heap0).1
    = Throw (AssertionError "Expected HTTP status code to be int").
Proof. vm_compute. by repeat split. Qed.

(** [get /widgets/:id] twice; the name [getWidget] twice; a third end-point;
    a stability outside the levels; a query value that is a string; a query
    of a regular expression and a function *)
Example declare_examples :
  (declare host builder 30%positive (VRef handler) heap0).1
    = Throw (Error "Identical route and method declaration.") ∧
  (declare host builder 31%positive (VRef handler) heap0).1
    = Throw (Error "This function has already been declared.") ∧
  (declare host builder 32%positive (VRef handler) heap0).1 = Normal () ∧
  (declare host builder 34%positive (VRef handler) heap0).1
    = Throw (AssertionError ("options.stability must be a valid stability-level, " +:+
                             "see base.API.stability for valid options")) ∧
  (declare host builder 37%positive (VRef handler) heap0).1
    = Throw (Error "query.limit must be a RegExp or a function!") ∧
  (declare host builder 39%positive (VRef handler) heap0).1 = Normal ().
Proof. vm_compute. by repeat split. Qed.

(** Declaring a registered object again throws and leaves the entries as they
    were, but the object, which is the registered entry, has by then a new
    handler. *)
Example declare_same_object_twice :
  let '(r, h') := declare host builder 20%positive (VRef 24%positive) heap0 in
  r = Throw (Error "Identical route and method declaration.") ∧
  entries_of h' builder = Some [VRef 20%positive] ∧
  obj_get (deref heap0 20%positive) "handler" = VRef handler ∧
  obj_get (deref h' 20%positive) "handler" = VRef 24%positive.
Proof. vm_compute. by repeat split. Qed.

(** [build] with [publish: true] and with [publish: false]; with a [publish]
    that rejects *)
Example build_examples :
  (let '(result, _, calls) := build host builder 50%positive heap0 in (result, calls))
    = (Fulfilled 52%positive, [CallAPI 50%positive; CallPublish 52%positive]) ∧
  (let '(result, _, calls) := build host builder 51%positive heap0 in (result, calls))
    = (Fulfilled 52%positive, [CallAPI 51%positive]) ∧
  (let '(result, _, calls) := build failing_host builder 50%positive heap0 in (result, calls))
    = (Rejected (Foreign (VStr "bucket not found")),
       [CallAPI 50%positive; CallPublish 52%positive]).
Proof. vm_compute. by repeat split. Qed.

(** ** Claim C2: error codes that construction accepts *)

(** Claim C2 says that construction fails when a key of the merged
    [errorCodes] does not match [/^[A-Z][A-Za-z0-9]*$/] or a value is not an
    integer.  The check of line 41 has no anchors and the check of line 42
    is [typeof value === 'number']: construction from
    [errorCodes: {'bad-Code': 400}] returns a builder, and so does
    construction from [errorCodes: {Teapot: 418.5}].  What the two checks do
    refuse is [APIBuilder_rejects_invalid_error_code]. *)
Theorem APIBuilder_accepts_invalid_error_codes :
  Regex.test Regex.error_code_documented "bad-Code" = false ∧
  Regex.test Regex.error_code "bad-Code" = true ∧
  obj_get (deref heap0 41%positive) "bad-Code" = num 400 ∧
  throws (APIBuilder host 40%positive heap0).1 = false ∧
  obj_get (deref heap0 43%positive) "Teapot" = VNum (Fin (Qmake 837 2)) ∧
  is_integer (Qmake 837 2) = false ∧
  throws (APIBuilder host 42%positive heap0).1 = false.
Proof. vm_compute. by repeat split. Qed.

(** ** Claim C6: a query that is not validated *)

(** Claim C6 says that [declare] fails when a value of [query] is neither a
    regular expression nor a function.  [_.forEach] iterates an object that
    has a numeric [length] as an array: for
    [query: {limit: 'not-a-function-or-regex', length: 0}] the iteratee of
    line 157 is never called, [declare] returns and the entry is appended. *)
Theorem declare_accepts_array_like_query :
  obj_get (deref heap0 35%positive) "query" = VRef 36%positive ∧
  heap0 !! 36%positive
    = Some (plain [("limit", VStr "not-a-function-or-regex"); ("length", num 0)]) ∧
  instanceof_RegExp heap0 (VStr "not-a-function-or-regex") = false ∧
  instanceof_Function heap0 (VStr "not-a-function-or-regex") = false ∧
  (declare host builder 35%positive (VRef handler) heap0).1 = Normal () ∧
  entries_of (declare host builder 35%positive (VRef handler) heap0).2 builder
    = Some [VRef 20%positive; VRef 35%positive].
Proof. vm_compute. by repeat split. Qed.

(** ** Claim C9 as first stated: options whose name the builder does not get *)


(** ** Claim C5 as first stated: a stability outside the levels that is accepted *)

(** The empty string is not a stability level, and [declare] accepts it: it is
    falsy, so line 148 replaces it. *)
Lemma declare_accepts_empty_stability :
  obj_get (deref heap0 33%positive) "stability" = VStr EmptyString ∧
  (VStr EmptyString ∉ STABILITY_LEVELS) ∧
  (declare host builder 33%positive (VRef handler) heap0).1 = Normal () ∧
  obj_get (deref (declare host builder 33%positive (VRef handler) heap0).2 33%positive)
    "stability" = VStr "experimental".
Proof.
  split; [vm_compute; reflexivity|]. split; [|vm_compute; by split].
  unfold STABILITY_LEVELS, Lodash.values, stability. simpl.
  rewrite !elem_of_cons, elem_of_nil. intros [?|[?|[?|[]]]]; discriminate.
Qed.

(** ** The theorems at concrete calls *)

Lemma declare_atomic_witness :
  entries_of heap0 builder = Some [VRef 20%positive] ∧
  match declare host builder 32%positive (VRef handler) heap0 with
  | (Normal _, h') => entries_of h' builder = Some ([VRef 20%positive] ++ [VRef 32%positive])
  | (Throw _, h') => entries_of h' builder = Some [VRef 20%positive]
  end.
Proof.
  split; [vm_compute; reflexivity|].
  apply (declare_atomic host builder 32%positive (VRef handler) heap0).
  vm_compute; reflexivity.
Defined.

Lemma declare_rejects_same_route_and_method_witness :
  ∃ err h', declare host builder 30%positive (VRef handler) heap0 = (Throw err, h') ∧
            entries_of h' builder = Some [VRef 20%positive] ∧
            (∀ es', entries_of h' builder = Some es' → length es' = 1).
Proof.
  apply (declare_rejects_same_route_and_method host builder 30%positive (VRef handler) heap0
           [VRef 20%positive] 20%positive
           (entry "getWidget" "get" "/widgets/:id"
              [("stability", VStr "experimental"); ("params", VRef 22%positive);
               ("query", VRef 23%positive); ("handler", VRef handler)])).
  - vm_compute; reflexivity.
  - constructor.
  - vm_compute; reflexivity.
  - vm_compute; reflexivity.
  - vm_compute; reflexivity.
Defined.

Lemma declare_rejects_same_name_witness :
  ∃ err h', declare host builder 31%positive (VRef handler) heap0 = (Throw err, h') ∧
            entries_of h' builder = Some [VRef 20%positive].
Proof.
  apply (declare_rejects_same_name host builder 31%positive (VRef handler) heap0
           [VRef 20%positive] 20%positive
           (entry "getWidget" "get" "/widgets/:id"
              [("stability", VStr "experimental"); ("params", VRef 22%positive);
               ("query", VRef 23%positive); ("handler", VRef handler)])).
  - vm_compute; reflexivity.
  - constructor.
  - vm_compute; reflexivity.
  - vm_compute; reflexivity.
Defined.

Lemma declare_stability_witness :
  truthy (obj_get (deref heap0 34%positive) "stability") = true ∧
  (obj_get (deref heap0 34%positive) "stability" ∉ STABILITY_LEVELS) ∧
  throws (declare host builder 34%positive (VRef handler) heap0).1 = true.
Proof.
  assert (Hout : obj_get (deref heap0 34%positive) "stability" ∉ STABILITY_LEVELS).
  { vm_compute. intros H.
    repeat (apply elem_of_cons in H as [H|H]; [discriminate|]).
    by apply elem_of_nil in H. }
  split; [vm_compute; reflexivity|]. split; [exact Hout|].
  apply (proj2 (declare_stability host builder 34%positive (VRef handler) heap0)).
  - vm_compute; reflexivity.
  - exact Hout.
Defined.

Lemma APIBuilder_rejects_invalid_name_or_version_witness :
  throws (APIBuilder host 3%positive heap0).1 = true ∧
  throws (APIBuilder host 4%positive heap0).1 = true.
Proof.
  split.
  - apply (APIBuilder_rejects_invalid_name_or_version host 3%positive heap0).
    left. intros h'. vm_compute; reflexivity.
  - apply (APIBuilder_rejects_invalid_name_or_version host 4%positive heap0).
    right. intros h'. vm_compute; reflexivity.
Defined.


Lemma build_publish_witness :
  API failing_host 50%positive
    (<[50%positive := obj_set (deref heap0 50%positive) "api" (VRef builder)]> heap0)
  = (Normal 52%positive, heap_with_service) ∧
  let '(result, _, calls) := build failing_host builder 50%positive heap0 in
  if truthy (obj_get (deref heap_with_service 50%positive) "publish") then
    calls = [CallAPI 50%positive; CallPublish 52%positive] ∧ publish_calls calls = 1 ∧
    match (publish failing_host 52%positive heap_with_service).1 with
    | Fulfilled _ => result = Fulfilled 52%positive
    | Rejected cause => result = Rejected cause
    | Pending => result = Pending
    end
  else
    calls = [CallAPI 50%positive] ∧ publish_calls calls = 0 ∧ result = Fulfilled 52%positive.
Proof.
  split; [vm_compute; reflexivity|].
  exact (build_publish failing_host builder 50%positive heap0 52%positive heap_with_service
           ltac:(vm_compute; reflexivity)).
Defined.

Lemma declare_registers_the_options_object_witness :
  entries_of Gadgets.heap1 Gadgets.gadgets = Some [] ∧
  declare host Gadgets.gadgets 25%positive (VRef handler) Gadgets.heap1
    = (Normal (), (declare host Gadgets.gadgets 25%positive (VRef handler) Gadgets.heap1).2) ∧
  entries_of (declare host Gadgets.gadgets 25%positive (VRef handler) Gadgets.heap1).2
    Gadgets.gadgets = Some ([] ++ [VRef 25%positive]) ∧
  ∃ m psm,
    obj_get (deref (declare host Gadgets.gadgets 25%positive (VRef handler) Gadgets.heap1).2
               25%positive) "params" = VRef m ∧
    (declare host Gadgets.gadgets 25%positive (VRef handler) Gadgets.heap1).2 !! m
      = Some (plain psm) ∧
    lookup_prop psm "size" = VRef 49%positive ∧
    lookup_prop psm "gadgetId" = VRef 49%positive.
Proof.
  split; [vm_compute; reflexivity|]. split; [vm_compute; reflexivity|].
  destruct (declare_registers_the_options_object host Gadgets.gadgets 25%positive
              (VRef handler) Gadgets.heap1 []
              (declare host Gadgets.gadgets 25%positive (VRef handler) Gadgets.heap1).2
              ltac:(vm_compute; reflexivity) ltac:(vm_compute; reflexivity))
    as (Hentries & _ & _ & (m & psm & Hparams & _ & Hm & Hmerged & _) & _).
  split; [exact Hentries|]. exists m, psm.
  split; [exact Hparams|]. split; [exact Hm|].
  rewrite !Hmerged. split; vm_compute; reflexivity.
Defined.

(** ** The gadget service: the further theorems at concrete calls *)

Import Gadgets.

Example construct_gadgets :
  (APIBuilder host 7%positive heap1).1 = Normal 52%positive ∧
  (APIBuilder host 5%positive heap1).1
    = Throw (AssertionError "schemaPrefix is no longer allowed!") ∧
  (APIBuilder host 6%positive heap1).1
    = Throw (AssertionError "Option 'description' must be provided").
Proof. vm_compute. by repeat split. Qed.

Lemma APIBuilder_rejects_schemaPrefix_witness :
  (APIBuilder host 5%positive heap1).1
    = Throw (AssertionError "schemaPrefix is no longer allowed!").
Proof.
  apply (APIBuilder_rejects_schemaPrefix host 5%positive heap1).
  vm_compute; reflexivity.
Defined.

Lemma APIBuilder_requires_options_witness :
  (APIBuilder host 6%positive heap1).1 = Throw (must_be_provided "description").
Proof.
  apply (APIBuilder_requires_options host 6%positive heap1 "description").
  - vm_compute; reflexivity.
  - vm_compute; reflexivity.
Defined.

Lemma APIBuilder_writes_no_object_witness :
  extends heap1 (APIBuilder host 7%positive heap1).2.
Proof.
  apply (APIBuilder_writes_no_object host 7%positive heap1 service).
  vm_compute; reflexivity.
Defined.

Lemma APIBuilder_merges_error_codes_witness :
  ∃ merged psm,
    obj_get (deref (APIBuilder host 7%positive heap1).2 52%positive) "errorCodes"
      = VRef merged ∧
    heap1 !! merged = None ∧
    (APIBuilder host 7%positive heap1).2 !! merged = Some (plain psm) ∧
    ∀ k, lookup_prop psm k =
         if is_undefined (lookup_prop codes k)
         then lookup_prop [("MalformedPayload", num 400); ("ResourceNotFound", num 404);
                           ("InternalServerError", num 500)] k
         else lookup_prop codes k.
Proof.
  apply (APIBuilder_merges_error_codes host 7%positive heap1 service codes 1%positive
           [("MalformedPayload", num 400); ("ResourceNotFound", num 404);
            ("InternalServerError", num 500)]
           52%positive (APIBuilder host 7%positive heap1).2).
  - vm_compute; reflexivity.
  - right. exists 8%positive. split; vm_compute; reflexivity.
  - reflexivity.
  - vm_compute; reflexivity.
  - vm_compute; reflexivity.
Defined.

Lemma APIBuilder_defaults_params_and_context_witness :
  defaulted heap1 (APIBuilder host 7%positive heap1).2
    (lookup_prop service "params") (plain [])
    (obj_get (deref (APIBuilder host 7%positive heap1).2 52%positive) "params") ∧
  defaulted heap1 (APIBuilder host 7%positive heap1).2
    (lookup_prop service "context") (array [])
    (obj_get (deref (APIBuilder host 7%positive heap1).2 52%positive) "context").
Proof.
  apply (APIBuilder_defaults_params_and_context host 7%positive heap1 service 52%positive
           (APIBuilder host 7%positive heap1).2).
  - vm_compute; reflexivity.
  - vm_compute; reflexivity.
Defined.

Lemma APIBuilder_name_and_version_witness :
  (∃ c s', list_ascii_of_string "gadgets" = c :: s' ∧
           Regex.in_class c [Regex.lower] = true ∧
           Forall (λ c, Regex.in_class c [Regex.lower; Regex.digit; Regex.only "_";
                                          Regex.only "-"]%char = true) s') ∧
  (∃ d ds, list_ascii_of_string "v2" = "v"%char :: d :: ds ∧
           Forall (λ c, Regex.in_class c [Regex.digit] = true) (d :: ds)).
Proof.
  apply (APIBuilder_name_and_version host 7%positive heap1 service "gadgets" "v2"
           52%positive (APIBuilder host 7%positive heap1).2).
  - vm_compute; reflexivity.
  - reflexivity.
  - reflexivity.
  - vm_compute; reflexivity.
Defined.

Lemma APIBuilder_checks_error_codes_witness :
  throws (APIBuilder host 44%positive heap0).1 = true.
Proof.
  apply (APIBuilder_checks_error_codes host 44%positive heap0
           [("title", VStr "Widgets"); ("description", VStr "The widget service");
            ("name", VStr "widgets"); ("version", VStr "v1");
            ("errorCodes", VRef 45%positive)]
           [("teapot", num 418)]
           1%positive [("MalformedPayload", num 400); ("ResourceNotFound", num 404);
                       ("InternalServerError", num 500)]
           "teapot"); try (vm_compute; reflexivity).
  - right. exists 45%positive. split; vm_compute; reflexivity.
  - left. apply list_elem_of_here.
  - left. vm_compute; reflexivity.
Defined.

Lemma APIBuilder_accepts_witness :
  ∃ this h', APIBuilder host 7%positive heap1 = (Normal this, h').
Proof.
  apply (APIBuilder_accepts host 7%positive heap1 service "gadgets" "v2" codes 1%positive
           [("MalformedPayload", num 400); ("ResourceNotFound", num 404);
            ("InternalServerError", num 500)]); try (vm_compute; reflexivity).
  right. exists 8%positive. split; vm_compute; reflexivity.
Defined.

Example declare_gadgets :
  (declare host gadgets 14%positive (VRef handler) heap1).1
    = Throw (AssertionError "Option 'route' must be provided") ∧
  (declare host gadgets 15%positive (VRef handler) heap1).1
    = Throw (AssertionError
        "deferAuth is deprecated! https://github.com/taskcluster/taskcluster-lib-api#request-handlers") ∧
  (declare host gadgets 16%positive (VRef handler) heap1).1
    = Throw (Error "Invalid scope expression template: []") ∧
  (declare host gadgets 25%positive (VRef handler) heap1).1 = Normal ().
Proof. vm_compute. by repeat split. Qed.

Lemma declare_requires_options_witness :
  declare host gadgets 14%positive (VRef handler) heap1
    = (Throw (must_be_provided "route"), heap1).
Proof.
  apply (declare_requires_options host gadgets 14%positive (VRef handler) heap1 "route").
  vm_compute; reflexivity.
Defined.

Lemma declare_rejects_invalid_query_witness :
  throws (declare host builder 37%positive (VRef handler) heap0).1 = true.
Proof.
  apply (declare_rejects_invalid_query host builder 37%positive (VRef handler) heap0
           (entry "listWidgets" "get" "/widgets" [("query", VRef 38%positive)])
           38%positive [("limit", VStr "not-a-function-or-regex")]
           "limit" (VStr "not-a-function-or-regex")); try (vm_compute; reflexivity); done.
Defined.

Lemma declare_rejects_deferAuth_witness :
  throws (declare host gadgets 15%positive (VRef handler) heap1).1 = true.
Proof.
  apply (declare_rejects_deferAuth host gadgets 15%positive (VRef handler) heap1).
  vm_compute; reflexivity.
Defined.

Lemma declare_rejects_invalid_scopes_witness :
  throws (declare host gadgets 16%positive (VRef handler) heap1).1 = true.
Proof.
  apply (declare_rejects_invalid_scopes host gadgets 16%positive (VRef handler) heap1).
  - vm_compute; reflexivity.
  - intros h' _. vm_compute; reflexivity.
Defined.

Lemma declare_merges_params_witness :
  ∃ m psm,
    obj_get (deref (declare host gadgets 25%positive (VRef handler) heap1).2 25%positive)
      "params" = VRef m ∧
    heap1 !! m = None ∧
    (declare host gadgets 25%positive (VRef handler) heap1).2 !! m = Some (plain psm) ∧
    ∀ k, lookup_prop psm k =
         if is_undefined (lookup_prop Gadgets.own_params k)
         then lookup_prop shared_params k
         else lookup_prop Gadgets.own_params k.
Proof.
  apply (declare_merges_params host gadgets 25%positive (VRef handler) heap1
           (entry "getGadget" "get" "/gadgets/:gadgetId" [("params", VRef 26%positive)])
           Gadgets.own_params 18%positive shared_params
           (declare host gadgets 25%positive (VRef handler) heap1).2).
  - vm_compute; reflexivity.
  - right. exists 26%positive. split; [reflexivity|]. split; [discriminate|].
    vm_compute; reflexivity.
  - vm_compute; reflexivity.
  - discriminate.
  - vm_compute; reflexivity.
  - vm_compute; reflexivity.
Defined.

Lemma declare_default_query_witness :
  ∃ ql, obj_get (deref (declare host builder 32%positive (VRef handler) heap0).2 32%positive)
          "query" = VRef ql ∧
        heap0 !! ql = None ∧
        (declare host builder 32%positive (VRef handler) heap0).2 !! ql = Some (plain []).
Proof.
  apply (declare_default_query host builder 32%positive (VRef handler) heap0
           (declare host builder 32%positive (VRef handler) heap0).2).
  - vm_compute; reflexivity.
  - vm_compute; reflexivity.
Defined.

Lemma declare_frame_witness :
  match declare host builder 32%positive (VRef handler) heap0 with
  | (Throw _, h') => frame 32%positive heap0 h'
  | (Normal _, h') =>
      ∀ l, l ≠ 32%positive → l ≠ 12%positive → is_Some (heap0 !! l) → h' !! l = heap0 !! l
  end.
Proof.
  apply (declare_frame host builder 32%positive (VRef handler) heap0 [VRef 20%positive]
           12%positive).
  - vm_compute; reflexivity.
  - vm_compute; reflexivity.
Defined.

Lemma declare_keeps_names_distinct_witness :
  entries_of (declare host builder 32%positive (VRef handler) heap0).2 builder
    = Some ([VRef 20%positive] ++ [VRef 32%positive]) ∧
  pairwise_distinct
    (entry_names (declare host builder 32%positive (VRef handler) heap0).2
       ([VRef 20%positive] ++ [VRef 32%positive])) = true.
Proof.
  apply (declare_keeps_names_distinct host builder 32%positive (VRef handler) heap0
           [VRef 20%positive] (declare host builder 32%positive (VRef handler) heap0).2).
  - vm_compute; reflexivity.
  - constructor; [|constructor]. vm_compute. eauto.
  - vm_compute; reflexivity.
  - vm_compute; reflexivity.
Defined.

Lemma declare_keeps_routes_distinct_witness :
  entry_routes (declare host builder 32%positive (VRef handler) heap0).2
    ([VRef 20%positive] ++ [VRef 32%positive])
  = entry_routes heap0 ([VRef 20%positive] ++ [VRef 32%positive]) ∧
  routes_distinct
    (entry_routes (declare host builder 32%positive (VRef handler) heap0).2
       ([VRef 20%positive] ++ [VRef 32%positive])) = true.
Proof.
  apply (declare_keeps_routes_distinct host builder 32%positive (VRef handler) heap0
           [VRef 20%positive] (declare host builder 32%positive (VRef handler) heap0).2).
  - vm_compute; reflexivity.
  - constructor; [|constructor]. vm_compute. eauto.
  - vm_compute; reflexivity.
  - vm_compute; reflexivity.
  - vm_compute; reflexivity.
Defined.

Lemma declare_accepts_witness :
  ∃ h', declare host builder 39%positive (VRef handler) heap0 = (Normal (), h') ∧
        entries_of h' builder = Some ([VRef 20%positive] ++ [VRef 39%positive]).
Proof.
  apply (declare_accepts host builder 39%positive (VRef handler) heap0
           (entry "listWidgets" "get" "/widgets" [("query", VRef 48%positive)])
           [VRef 20%positive]).
  - vm_compute; reflexivity.
  - split; [vm_compute; reflexivity|]. split; [vm_compute; reflexivity|].
    split; [left; vm_compute; reflexivity|]. split.
    { right. exists 48%positive, [("limit", VRef 49%positive); ("after", VRef 24%positive)].
      split; [vm_compute; reflexivity|]. split; [discriminate|].
      split; vm_compute; reflexivity. }
    split; [vm_compute; reflexivity|]. left. vm_compute; reflexivity.
  - intros x Hx. apply list_elem_of_singleton in Hx as ->.
    exists 20%positive,
      (entry "getWidget" "get" "/widgets/:id"
         [("stability", VStr "experimental"); ("params", VRef 22%positive);
          ("query", VRef 23%positive); ("handler", VRef handler)]).
    split; [reflexivity|]. split; [vm_compute; reflexivity|].
    split; [vm_compute; reflexivity|]. intros h'. vm_compute; reflexivity.
Defined.

Lemma declare_refuses_only_duplicates_witness :
  match declare host builder 30%positive (VRef handler) heap0 with
  | (Normal _, _) => True
  | (Throw e, h') =>
      (e = Error "Identical route and method declaration." ∨
       e = Error "This function has already been declared.") ∧
      obj_get (deref h' 30%positive) "handler" = VRef handler ∧
      entries_of h' builder = Some [VRef 20%positive]
  end.
Proof.
  apply (declare_refuses_only_duplicates host builder 30%positive (VRef handler) heap0
           (entry "getWidgetAgain" "get" "/widgets/:id" []) [VRef 20%positive]).
  - vm_compute; reflexivity.
  - split; [vm_compute; reflexivity|]. split; [vm_compute; reflexivity|].
    split; [left; vm_compute; reflexivity|]. split; [left; vm_compute; reflexivity|].
    split; [vm_compute; reflexivity|]. left. vm_compute; reflexivity.
  - constructor; [reflexivity|constructor].
Defined.

Lemma first_declare_witness :
  ∃ h2, declare host 52%positive 32%positive (VRef handler) (APIBuilder host 2%positive heap0).2
          = (Normal (), h2) ∧
        entries_of h2 52%positive = Some [VRef 32%positive].
Proof.
  apply (first_declare host 2%positive heap0
           [("title", VStr "Widgets"); ("description", VStr "The widget service");
            ("name", VStr "widgets"); ("version", VStr "v1")]
           52%positive (APIBuilder host 2%positive heap0).2 32%positive
           (entry "listWidgets" "get" "/widgets" []) (VRef handler)).
  - vm_compute; reflexivity.
  - vm_compute; reflexivity.
  - split; [vm_compute; reflexivity|]. split; [vm_compute; reflexivity|].
    split; [left; vm_compute; reflexivity|]. split; [left; vm_compute; reflexivity|].
    split; [vm_compute; reflexivity|]. left. vm_compute; reflexivity.
Defined.

Lemma declare_leaves_other_builders_witness :
  entries_of (declare host gadgets 25%positive (VRef handler) heap1).2 builder
    = Some [VRef 20%positive].
Proof.
  apply (declare_leaves_other_builders host gadgets builder 25%positive (VRef handler) heap1
           [] [VRef 20%positive]).
  - vm_compute; reflexivity.
  - vm_compute; reflexivity.
  - vm_compute. discriminate.
Defined.

Lemma builders_are_independent_witness :
  entries_of
    (declare host 52%positive 32%positive (VRef handler)
       (APIBuilder host 7%positive (APIBuilder host 2%positive heap1).2).2).2
    61%positive = Some [].
Proof.
  apply (builders_are_independent host 2%positive 7%positive heap1
           [("title", VStr "Widgets"); ("description", VStr "The widget service");
            ("name", VStr "widgets"); ("version", VStr "v1")]
           service 52%positive (APIBuilder host 2%positive heap1).2 61%positive
           (APIBuilder host 7%positive (APIBuilder host 2%positive heap1).2).2
           32%positive (VRef handler)).
  - vm_compute; reflexivity.
  - vm_compute; reflexivity.
  - vm_compute; reflexivity.
  - vm_compute; reflexivity.
Defined.
